(** * TestMonitor: a shallow embedding of [src/scripts/utils/test-monitor.js]

    The class [TestMonitor] is embedded as a record of its fields and its
    methods as computations in a small state-and-exception monad that also
    collects the calls the monitor makes into the host page (console,
    callbacks, [setTimeout], [dispatchEvent], ...).

    - JavaScript numbers are IEEE 754 binary64 values: [PrimFloat.float].
    - [this.violations] is a reference to an array; the arrays live in a
      store, so the array handed to [onViolation], to the [testAutoSubmit]
      event and to the summary is the log itself and not a copy.
    - an [async] method runs synchronously up to its first [await]; what is
      left is returned as a continuation that the event loop resumes later.
    - the two host callbacks ([onViolation], [onCameraError]) are observed
      as effects: they receive their arguments, return normally and do not
      call back into the monitor.
    - the page is a document with a body and a standard DOM: once
      [getUserMedia] has resolved, creating the video and canvas elements,
      appending the video to the body and asking the canvas for its 2d
      context return normally.  What can fail in [initialize] is
      [getUserMedia] and the constructor of the detector.
    - [Object.prototype] is as the language defines it; the accumulators of
      the summary are plain objects and inherit from it. *)

From stdpp Require Import base option list gmap strings.
From Stdlib Require Import Floats.PrimFloat Uint63 Strings.Byte.

Open Scope string_scope.
Open Scope list_scope.

(** ** Strings *)

(** [isPrefixOf p s]: [s.startsWith(p)]. *)
Fixpoint isPrefixOf (p s : string) : bool :=
  match p, s with
  | EmptyString, _ => true
  | String a p', String b s' => if Ascii.eqb a b then isPrefixOf p' s' else false
  | String _ _, EmptyString => false
  end.

(** [includes s searchString]: [s.includes(searchString)], a scan for the
    first position at which [searchString] starts.  Every search string of
    the monitor is ASCII, so scanning bytes and scanning UTF-16 code units
    find the same occurrences. *)
Fixpoint includes (s searchString : string) : bool :=
  isPrefixOf searchString s ||
  match s with
  | EmptyString => false
  | String _ s' => includes s' searchString
  end.

(** The mathematical notion [includes] decides. *)
Definition occursIn (searchString s : string) : Prop :=
  ∃ before after, s = before +:+ searchString +:+ after.

(** ** Data model *)

Record Violation := mkViolation {
  type : string;
  timestamp : string;   (* new Date().toISOString() *)
  severity : string
}.

Record Options := mkOptions {
  enableCameraMonitoring : bool;
  enableTabSwitchDetection : bool;
  enableFullscreenMonitoring : bool;
  enableKeyboardMonitoring : bool
}.

(** A reference to a JavaScript array of violations. *)
Definition ref := nat.

Inductive ReadyState := live | ended.

Record MediaStreamTrack := mkTrack { readyState : ReadyState }.

(** A [MediaStream]: the tracks returned by [getTracks()]. *)
Definition MediaStream := list MediaStreamTrack.

(** The hidden [<video>] element; [inDocument] tells whether it is still a
    child of [document.body]. *)
Record HTMLVideoElement := mkVideo { inDocument : bool }.

Record HTMLCanvasElement := mkCanvas { width : nat; height : nat }.

Inductive FaceDetector := mkFaceDetector (fastMode : bool) (maxDetectedFaces : nat).

Record Point := mkPoint { px : float; py : float }.

Record BoundingBox := mkBox { x : float; y : float; boxWidth : float; boxHeight : float }.

Record DetectedFace := mkFace { boundingBox : BoundingBox }.

Record TestMonitor := mkTestMonitor {
  options : Options;
  isActive : bool;
  violations : ref;
  stream : option MediaStream;
  video : option HTMLVideoElement;
  canvas : option HTMLCanvasElement;   (* [context] is the canvas' 2d context *)
  faceDetectionModel : option FaceDetector;
  lastFacePosition : option Point;
  lastBrightness : option float;       (* [None]: the property is undefined *)
  alertThreshold : nat
}.

(** The document and window listeners that [setupEventListeners] installs,
    one constructor per closure. *)
Inductive Listener :=
| visibilitychangeListener
| blurListener
| fullscreenchangeListener
| keydownListener
| contextmenuListener
| selectstartListener.

(** What the browser offers: ['FaceDetector' in window], the four
    fullscreen entry points of [document.documentElement], and what
    [new FaceDetector(...)] does where there is one: it returns a detector
    ([None]) or throws an error with the given message. *)
Record Browser := mkBrowser {
  hasFaceDetector : bool;
  hasRequestFullscreen : bool;
  hasWebkitRequestFullscreen : bool;
  hasMozRequestFullScreen : bool;
  hasMsRequestFullscreen : bool;
  faceDetectorError : option string
}.

Record World := mkWorld {
  this : TestMonitor;
  arrays : gmap ref (list Violation);
  listeners : list Listener;            (* in registration order *)
  browser : Browser
}.

Record KeyboardEvent := mkKey {
  key : string;
  ctrlKey : bool;
  shiftKey : bool;
  altKey : bool
}.

Inductive DomEvent :=
| visibilitychange (hidden : bool)               (* document.hidden *)
| blur
| fullscreenchange (fullscreenElement : bool)    (* document.fullscreenElement is set *)
| keydown (event : KeyboardEvent)
| contextmenu
| selectstart.

(** Calls out of the monitor, in the order they are made. *)
Inductive Effect :=
| console_error (message detail : string)
| console_warn (message : string)
| console_log (message : string)
| onViolation (violation : Violation) (log : ref)
| onCameraError (error : string)
| dispatchTestAutoSubmit (reason : string) (log : ref)
| preventDefault (e : DomEvent)
| setTimeout (ms : nat)
| requestFullscreen (entryPoint : string)
| drawImage.

(** ** The monad *)

Inductive Completion (A : Type) :=
| normal (a : A)
| throw (error : string).
Arguments normal {A} a.
Arguments throw {A} error.

Definition M (A : Type) : Type := World → Completion A * World * list Effect.

Definition ret {A} (a : A) : M A := λ w, (normal a, w, []).

Definition bind {A B} (c : M A) (f : A → M B) : M B := λ w,
  match c w with
  | (normal a, w1, e1) =>
      match f a w1 with
      | (r, w2, e2) => (r, w2, e1 ++ e2)
      end
  | (throw error, w1, e1) => (throw error, w1, e1)
  end.

#[global] Instance M_ret : MRet M := @ret.
#[global] Instance M_bind : MBind M := λ A B f c, bind c f.

Definition raise {A} (error : string) : M A := λ w, (throw error, w, []).

(** [try { c } catch (error) { handler error }] *)
Definition try_catch {A} (c : M A) (handler : string → M A) : M A := λ w,
  match c w with
  | (normal a, w1, e1) => (normal a, w1, e1)
  | (throw error, w1, e1) =>
      match handler error w1 with
      | (r, w2, e2) => (r, w2, e1 ++ e2)
      end
  end.

Definition get : M World := λ w, (normal w, w, []).
Definition modify (f : World → World) : M unit := λ w, (normal tt, f w, []).
Definition emit (e : Effect) : M unit := λ w, (normal tt, w, [e]).
Definition when (b : bool) (c : M unit) : M unit := if b then c else ret tt.

(** ** Field updates *)

Definition with_this (f : TestMonitor → TestMonitor) (w : World) : World :=
  mkWorld (f (this w)) (arrays w) (listeners w) (browser w).

Definition set_isActive (b : bool) (m : TestMonitor) : TestMonitor :=
  mkTestMonitor (options m) b (violations m) (stream m) (video m) (canvas m)
    (faceDetectionModel m) (lastFacePosition m) (lastBrightness m) (alertThreshold m).

Definition set_violations (r : ref) (m : TestMonitor) : TestMonitor :=
  mkTestMonitor (options m) (isActive m) r (stream m) (video m) (canvas m)
    (faceDetectionModel m) (lastFacePosition m) (lastBrightness m) (alertThreshold m).

Definition set_stream (s : option MediaStream) (m : TestMonitor) : TestMonitor :=
  mkTestMonitor (options m) (isActive m) (violations m) s (video m) (canvas m)
    (faceDetectionModel m) (lastFacePosition m) (lastBrightness m) (alertThreshold m).

Definition set_video (v : option HTMLVideoElement) (m : TestMonitor) : TestMonitor :=
  mkTestMonitor (options m) (isActive m) (violations m) (stream m) v (canvas m)
    (faceDetectionModel m) (lastFacePosition m) (lastBrightness m) (alertThreshold m).

Definition set_canvas (c : option HTMLCanvasElement) (m : TestMonitor) : TestMonitor :=
  mkTestMonitor (options m) (isActive m) (violations m) (stream m) (video m) c
    (faceDetectionModel m) (lastFacePosition m) (lastBrightness m) (alertThreshold m).

Definition set_faceDetectionModel (d : option FaceDetector) (m : TestMonitor) : TestMonitor :=
  mkTestMonitor (options m) (isActive m) (violations m) (stream m) (video m) (canvas m)
    d (lastFacePosition m) (lastBrightness m) (alertThreshold m).

Definition set_lastFacePosition (p : option Point) (m : TestMonitor) : TestMonitor :=
  mkTestMonitor (options m) (isActive m) (violations m) (stream m) (video m) (canvas m)
    (faceDetectionModel m) p (lastBrightness m) (alertThreshold m).

Definition set_lastBrightness (b : option float) (m : TestMonitor) : TestMonitor :=
  mkTestMonitor (options m) (isActive m) (violations m) (stream m) (video m) (canvas m)
    (faceDetectionModel m) (lastFacePosition m) b (alertThreshold m).

Definition set_arrays (h : gmap ref (list Violation)) (w : World) : World :=
  mkWorld (this w) h (listeners w) (browser w).

Definition add_listener (l : Listener) (w : World) : World :=
  mkWorld (this w) (arrays w) (listeners w ++ [l]) (browser w).

(** ** Arrays *)

(** The contents of the array behind a reference. *)
Definition contents (h : gmap ref (list Violation)) (r : ref) : list Violation :=
  default [] (h !! r).

(** [array.push(v)] *)
Definition push (r : ref) (v : Violation) (h : gmap ref (list Violation))
  : gmap ref (list Violation) :=
  <[r := contents h r ++ [v]]> h.

(** The violation log of the monitor: the array [this.violations] refers to. *)
Definition log (w : World) : list Violation :=
  contents (arrays w) (violations (this w)).

(** ** Severity classifier *)

Definition highSeverity : list string :=
  ["Tab switch detected"; "Exited fullscreen mode"; "Window lost focus"].

Definition mediumSeverity : list string :=
  ["No face detected"; "Suspicious head movement"].

Definition getViolationSeverity (type : string) : string :=
  if existsb (λ violation, includes type violation) highSeverity then "high"
  else if existsb (λ violation, includes type violation) mediumSeverity then "medium"
  else "low".

(** ** Violation recorder and threshold policy *)

Definition triggerAutoSubmit : M unit :=
  emit (console_warn "Multiple violations detected - triggering auto-submit");;
  w ← get;
  emit (dispatchTestAutoSubmit "Multiple violations detected" (violations (this w))).

(** [now] is the reading of the clock, [new Date().toISOString()]. *)
Definition recordViolation (now : string) (type : string) : M unit :=
  let violation := mkViolation type now (getViolationSeverity type) in
  w ← get;
  modify (set_arrays (push (violations (this w)) violation (arrays w)));;
  emit (console_warn "Test violation:");;
  emit (onViolation violation (violations (this w)));;
  w ← get;
  when (alertThreshold (this w) <=? length (log w))%nat triggerAutoSubmit.

(** ** Lifecycle controller *)

Definition defaultOptions : Options := mkOptions true true true true.

(** [new TestMonitor(options)] on a page that has no listener yet. *)
Definition construct (opts : Options) (b : Browser) : World :=
  mkWorld
    (mkTestMonitor opts false 0 None None None None None None 3)
    {[ 0 := [] ]} [] b.

(** [getUserMedia] is what [navigator.mediaDevices.getUserMedia(...)]
    settles to: a stream, or a rejection with the message of its error.
    The DOM calls that follow return normally (the page has a body), so the
    [catch] is reached from [getUserMedia] only. *)
Definition setupCamera (getUserMedia : Completion MediaStream) : M bool :=
  try_catch
    (mediaStream ← match getUserMedia with
                   | normal s => mret s
                   | throw error => raise error
                   end;
     modify (with_this (set_stream (Some mediaStream)));;
     modify (with_this (set_video (Some (mkVideo true))));;
     modify (with_this (set_canvas (Some (mkCanvas 640 480))));;
     mret true)
    (λ error, raise ("Camera access denied: " +:+ error)).

(** [new FaceDetector({fastMode: true, maxDetectedFaces: 1})] *)
Definition newFaceDetector : M FaceDetector :=
  w ← get;
  match faceDetectorError (browser w) with
  | None => mret (mkFaceDetector true 1)
  | Some error => raise error
  end.

Definition loadFaceDetection : M unit :=
  w ← get;
  if hasFaceDetector (browser w)
  then detector ← newFaceDetector;
       modify (with_this (set_faceDetectionModel (Some detector)))
  else emit (console_warn "Face detection API not available, using fallback method").

Definition setupEventListeners : M unit :=
  w ← get;
  let o := options (this w) in
  when (enableTabSwitchDetection o)
    (modify (add_listener visibilitychangeListener);;
     modify (add_listener blurListener));;
  when (enableFullscreenMonitoring o)
    (modify (add_listener fullscreenchangeListener));;
  when (enableKeyboardMonitoring o)
    (modify (add_listener keydownListener));;
  modify (add_listener contextmenuListener);;
  modify (add_listener selectstartListener).

Definition initialize (getUserMedia : Completion MediaStream) : M bool :=
  try_catch
    (w ← get;
     when (enableCameraMonitoring (options (this w)))
       (setupCamera getUserMedia;; loadFaceDetection);;
     setupEventListeners;;
     mret true)
    (λ error,
     emit (console_error "Failed to initialize test monitor:" error);;
     emit (onCameraError error);;
     mret false).

(** The signal listeners that the options enable, as [setupEventListeners]
    registers them. *)
Definition enabledListeners (o : Options) : list Listener :=
  (if enableTabSwitchDetection o then [visibilitychangeListener; blurListener] else []) ++
  (if enableFullscreenMonitoring o then [fullscreenchangeListener] else []) ++
  (if enableKeyboardMonitoring o then [keydownListener] else []) ++
  [contextmenuListener; selectstartListener].

Definition stopTrack (track : MediaStreamTrack) : MediaStreamTrack := mkTrack ended.

Definition removeVideo (v : HTMLVideoElement) : HTMLVideoElement := mkVideo false.

Definition stopMonitoring : M unit :=
  modify (with_this (set_isActive false));;
  w ← get;
  match stream (this w) with
  | Some s => modify (with_this (set_stream (Some (stopTrack <$> s))))
  | None => mret tt
  end;;
  w ← get;
  match video (this w) with
  | Some v => modify (with_this (set_video (Some (removeVideo v))))
  | None => mret tt
  end;;
  emit (console_log "Test monitoring stopped").

Definition enterFullscreen : M unit :=
  w ← get;
  let element := browser w in
  if hasRequestFullscreen element then emit (requestFullscreen "requestFullscreen")
  else if hasWebkitRequestFullscreen element then emit (requestFullscreen "webkitRequestFullscreen")
  else if hasMozRequestFullScreen element then emit (requestFullscreen "mozRequestFullScreen")
  else if hasMsRequestFullscreen element then emit (requestFullscreen "msRequestFullscreen")
  else mret tt.

(** ** Signal listeners *)

Definition blockedKeys : list string := ["Escape"; "F11"; "F12"; "PrintScreen"].

Definition blockedCombos (event : KeyboardEvent) : list bool :=
  [ ctrlKey event && String.eqb (key event) "c";
    ctrlKey event && String.eqb (key event) "v";
    ctrlKey event && shiftKey event && String.eqb (key event) "I";
    altKey event && String.eqb (key event) "Tab" ].

(** The body of listener [l] run for event [e]; a listener does not see the
    events of another type. *)
Definition runListener (now : string) (l : Listener) (e : DomEvent) : M unit :=
  match l, e with
  | visibilitychangeListener, visibilitychange hidden =>
      w ← get;
      when (hidden && isActive (this w)) (recordViolation now "Tab switch detected")
  | blurListener, blur =>
      w ← get;
      when (isActive (this w)) (recordViolation now "Window lost focus")
  | fullscreenchangeListener, fullscreenchange fullscreenElement =>
      w ← get;
      when (negb fullscreenElement && isActive (this w))
        (recordViolation now "Exited fullscreen mode")
  | keydownListener, keydown event =>
      w ← get;
      if negb (isActive (this w)) then mret tt
      else
        when (existsb (String.eqb (key event)) blockedKeys
              || existsb (λ combo, combo) (blockedCombos event))
          (emit (preventDefault e);;
           recordViolation now ("Blocked key pressed: " +:+ key event))
  | contextmenuListener, contextmenu =>
      w ← get;
      when (isActive (this w))
        (emit (preventDefault e);;
         recordViolation now "Right-click attempted")
  | selectstartListener, selectstart =>
      w ← get;
      when (isActive (this w)) (emit (preventDefault e))
  | _, _ => mret tt
  end.

Fixpoint runListeners (now : string) (ls : list Listener) (e : DomEvent) : M unit :=
  match ls with
  | [] => mret tt
  | l :: ls' => runListener now l e;; runListeners now ls' e
  end.

(** The browser delivers [e] to the registered listeners, in the order of
    their registration.  [now] is the reading of the clock during the
    delivery: the listeners run back to back, and a listener that records
    reads the clock then; the model takes the readings of one delivery to
    be the same. *)
Definition deliver (now : string) (e : DomEvent) : M unit :=
  w ← get;
  runListeners now (listeners w) e.

Fixpoint deliverAll (events : list (string * DomEvent)) : M unit :=
  match events with
  | [] => mret tt
  | (now, e) :: rest => deliver now e;; deliverAll rest
  end.

(** ** Presence analyzer and camera sampler *)

(** What an [async] method hands back to its caller: it either ran to its
    end without suspending, or it is suspended at an [await] and [k] is the
    rest of its body, run by the event loop on the world as it is then. *)
Inductive Async (A : Type) :=
| returned (a : A)
| awaiting (k : M A).
Arguments returned {A} a.
Arguments awaiting {A} k.

(** What [faceDetectionModel.detect(canvas)] settles to. *)
Inductive Detection :=
| detected (faces : list DetectedFace)
| detectRejected (error : string).

(** The inputs of one sampler cycle: the pixels [getImageData] returns (a
    [Uint8ClampedArray]), the outcome of the detector and the clock. *)
Record Sample := mkSample {
  imageData : list byte;
  detection : Detection;
  sampledAt : string
}.

(** The number a byte of a [Uint8ClampedArray] reads as. *)
Definition number (b : byte) : float :=
  PrimFloat.of_uint63 (Uint63.of_Z (Z.of_N (Byte.to_N b))).

(** [pixels.length] as a number. *)
Definition lengthNumber (pixels : list byte) : float :=
  PrimFloat.of_uint63 (Uint63.of_Z (Z.of_nat (length pixels))).

(** [pixels[i]] in arithmetic: past the end it is [undefined], which
    converts to NaN. *)
Definition pixel (pixels : list byte) (i : nat) : float :=
  match pixels !! i with
  | Some b => number b
  | None => PrimFloat.nan
  end.

(** The values of [i] in [for (let i = 0; i < pixels.length; i += 4)]. *)
Definition pixelIndices (pixels : list byte) : list nat :=
  (λ k, 4 * k) <$> seq 0 ((length pixels + 3) / 4).

Definition meanBrightness (pixels : list byte) : float :=
  let brightness :=
    foldl (λ brightness i,
             brightness + (pixel pixels i + pixel pixels (i + 1) + pixel pixels (i + 2)) / 3)%float
          0%float (pixelIndices pixels) in
  (brightness / (lengthNumber pixels / 4))%float.

(** Truthiness of a number-valued property: [undefined], [0], [-0] and NaN
    are falsy. *)
Definition truthy (v : option float) : bool :=
  match v with
  | None => false
  | Some n => negb (PrimFloat.eqb n 0%float) && PrimFloat.eqb n n
  end.

Definition center (box : BoundingBox) : Point :=
  mkPoint (x box + boxWidth box / 2)%float (y box + boxHeight box / 2)%float.

(** Whether the move from [last] to [current] counts as head movement. *)
Definition headMoved (last current : Point) : bool :=
  let deltaX := PrimFloat.abs (px current - px last)%float in
  let deltaY := PrimFloat.abs (py current - py last)%float in
  PrimFloat.ltb 100%float deltaX || PrimFloat.ltb 50%float deltaY.

(** The native path of [analyzeFacePosition] from the point where
    [detect] has resolved with [faces]. *)
Definition analyzeFaces (now : string) (faces : list DetectedFace) : M unit :=
  match faces with
  | [] => recordViolation now "No face detected - looking away"
  | face :: _ =>
      let currentPosition := center (boundingBox face) in
      w ← get;
      match lastFacePosition (this w) with
      | Some last =>
          when (headMoved last currentPosition)
            (recordViolation now "Suspicious head movement detected")
      | None => mret tt
      end;;
      modify (with_this (set_lastFacePosition (Some currentPosition)))
  end.

(** [this.lastBrightness && Math.abs(brightness - this.lastBrightness) > 20] *)
Definition brightnessChanged (last : option float) (brightness : float) : bool :=
  truthy last &&
  match last with
  | Some l => PrimFloat.ltb 20%float (PrimFloat.abs (brightness - l)%float)
  | None => false
  end.

(** The fallback path of [analyzeFacePosition]. *)
Definition analyzeBrightness (now : string) (pixels : list byte) : M unit :=
  let brightness := meanBrightness pixels in
  w ← get;
  when (brightnessChanged (lastBrightness (this w)) brightness)
    (recordViolation now "Significant movement detected");;
  modify (with_this (set_lastBrightness (Some brightness))).

(** The native path of [analyzeFacePosition] from its [await]: the [try]
    block once [detect] has settled, and its [catch]. *)
Definition nativeAnalysis (s : Sample) : M unit :=
  try_catch
    (faces ← match detection s with
             | detected fs => mret fs
             | detectRejected error => raise error
             end;
     analyzeFaces (sampledAt s) faces)
    (λ error, emit (console_error "Face detection failed:" error)).

Definition analyzeFacePosition (s : Sample) : M (Async unit) :=
  w ← get;
  match faceDetectionModel (this w) with
  | Some _ => mret (awaiting (nativeAnalysis s))
  | None =>
      analyzeBrightness (sampledAt s) (imageData s);;
      mret (returned tt)
  end.

(** The event loop resumes a suspended method: [await] on a method that
    has returned goes on with its result. *)
Definition settle {A} (a : Async A) : M A :=
  match a with
  | returned x => mret x
  | awaiting k => k
  end.

(** The end of a cycle: [if (this.isActive) setTimeout(..., 1000)]. *)
Definition scheduleNext : M bool :=
  w ← get;
  if isActive (this w)
  then emit (setTimeout 1000);; mret true
  else mret false.

(** A cycle from its [await]: the analysis is resumed inside the [try]
    block, a failure is logged by the [catch], and the next cycle is
    scheduled. *)
Definition resumeCycle (analysis : Async unit) : M bool :=
  try_catch (settle analysis)
    (λ error, emit (console_error "Face detection error:" error));;
  scheduleNext.

(** One cycle of the sampler.  The result tells whether the next cycle was
    scheduled, which is also visible as the effect [setTimeout 1000].  The
    call of [analyzeFacePosition] runs up to its own [await] before the
    cycle suspends; that part completes normally, so the [try] block of the
    source matters from the [await] on. *)
Definition startCameraAnalysis (s : Sample) : M (Async bool) :=
  w ← get;
  if negb (isActive (this w)) || negb (bool_decide (is_Some (video (this w))))
  then mret (returned false)
  else
    emit drawImage;;
    analysis ← analyzeFacePosition s;
    mret (awaiting (resumeCycle analysis)).

(** [this.violations = []]: a new array. *)
Definition resetViolations : M unit :=
  w ← get;
  let r := fresh (dom (arrays w)) in
  modify (set_arrays (<[r := []]> (arrays w)));;
  modify (with_this (set_violations r)).

(** [startMonitoring()]; [s] is what the first cycle of the sampler reads.
    The result is the first cycle as it stands when the method returns. *)
Definition startMonitoring (s : Sample) : M (Async bool) :=
  modify (with_this (set_isActive true));;
  resetViolations;;
  w ← get;
  cycle ← (if enableCameraMonitoring (options (this w))
              && bool_decide (is_Some (video (this w)))
           then startCameraAnalysis s
           else mret (returned false));
  when (enableFullscreenMonitoring (options (this w))) enterFullscreen;;
  emit (console_log "Test monitoring started");;
  mret cycle.

(** ** Summary reporter *)

(** What a property of a summary object holds: a number (a count; the log
    has fewer than 2^32 entries, so counting is exact) or a string. *)
Inductive Value :=
| numberValue (n : nat)
| stringValue (s : string).

(** What reading a property finds on [Object.prototype], from which an
    object created by [{}] inherits: a built-in function, or the accessor
    [__proto__]. *)
Inductive Inherited :=
| builtinFunction (name : string)
| protoAccessor.

(** The properties of [Object.prototype] as the language defines them
    (a page that adds properties to it is outside the model).
    [Object.prototype.constructor] is the function [Object]. *)
Definition objectPrototype (k : string) : option Inherited :=
  if String.eqb k "__proto__" then Some protoAccessor
  else if String.eqb k "constructor" then Some (builtinFunction "Object")
  else if existsb (String.eqb k)
            ["hasOwnProperty"; "isPrototypeOf"; "propertyIsEnumerable"; "toLocaleString";
             "toString"; "valueOf"; "__defineGetter__"; "__defineSetter__";
             "__lookupGetter__"; "__lookupSetter__"]
  then Some (builtinFunction k)
  else None.

(** The string a built-in function converts to. *)
Definition functionText (name : string) : string :=
  "function " +:+ name +:+ "() { [native code] }".

(** [acc[k] = (acc[k] || 0) + 1] on an object created by [{}]; [acc] holds
    the object's own properties.
    - an own number [n]: [n || 0] is [n] (also for 0), and the property
      becomes [n + 1];
    - an own string: the empty string is falsy and the property becomes 1,
      any other string has "1" appended;
    - no own property and nothing inherited: [undefined || 0] is 0, and the
      property becomes 1;
    - no own property and an inherited function: the function is truthy,
      [+] converts it to its text, and the property becomes that text
      followed by "1";
    - [__proto__]: the getter returns [Object.prototype], [+] gives
      "[object Object]1", and the setter ignores a value that is neither an
      object nor [null], so the object is left as it was. *)
Definition increment (acc : gmap string Value) (k : string) : gmap string Value :=
  match acc !! k with
  | Some (numberValue n) => <[k := numberValue (n + 1)]> acc
  | Some (stringValue EmptyString) => <[k := numberValue 1]> acc
  | Some (stringValue s) => <[k := stringValue (s +:+ "1")]> acc
  | None =>
      match objectPrototype k with
      | None => <[k := numberValue 1]> acc
      | Some (builtinFunction name) => <[k := stringValue (functionText name +:+ "1")]> acc
      | Some protoAccessor => acc
      end
  end.

Module Summary.
Record t := mk {
  total : nat;
  byType : gmap string Value;
  bySeverity : gmap string Value;
  violations : ref
}.
End Summary.

(** [list.reduce((acc, violation) => { acc[k] = (acc[k] || 0) + 1; return acc }, {})]
    with [k] the property [keyOf] of the violation. *)
Definition countBy (keyOf : Violation → string) (l : list Violation) : gmap string Value :=
  foldl (λ acc violation, increment acc (keyOf violation)) ∅ l.

Definition getViolationSummary : M Summary.t :=
  w ← get;
  mret (Summary.mk (length (log w)) (countBy type (log w)) (countBy severity (log w))
          (violations (this w))).

(** The number a property of a summary object counts for: a string is not
    a count. *)
Definition count (v : Value) : nat :=
  match v with
  | numberValue n => n
  | stringValue _ => 0
  end.

(** The sum of the counts of a summary object. *)
Definition sumCounts (counts : gmap string Value) : nat :=
  map_fold (λ _ v total, count v + total) 0 counts.

(** Every property of a summary object is a number. *)
Definition onlyCounts (counts : gmap string Value) : Prop :=
  map_Forall (λ _ v, ∃ n, v = numberValue n) counts.

(** The key that [keyOf] gives a violation is no property of
    [Object.prototype]. *)
Definition plainKeys (keyOf : Violation → string) (l : list Violation) : Prop :=
  Forall (λ v, objectPrototype (keyOf v) = None) l.

(** For the proofs: the counts as naturals.  [tally keyOf acc l] adds to
    the counts [acc], for each key, the number of violations of [l] that
    have it. *)
Definition tally (keyOf : Violation → string) (acc : gmap string nat) (l : list Violation)
  : gmap string nat :=
  foldl (λ acc violation,
           <[keyOf violation := default 0 (acc !! keyOf violation) + 1]> acc)
        acc l.

Definition sumNat (counts : gmap string nat) : nat :=
  map_fold (λ _ n total, n + total) 0 counts.

(** The [testAutoSubmit] events among the effects of a call. *)
Definition isAutoSubmit (e : Effect) : bool :=
  match e with
  | dispatchTestAutoSubmit _ _ => true
  | _ => false
  end.

(** The calls of [onCameraError] among the effects of a call. *)
Definition isCameraError (e : Effect) : bool :=
  match e with
  | onCameraError _ => true
  | _ => false
  end.

(** Records the violations [records] (instant and type of each) one after
    the other and counts the [testAutoSubmit] events raised by each call. *)
Fixpoint autoSubmitsPerRecord (records : list (string * string)) (w : World) : list nat :=
  match records with
  | [] => []
  | (now, type) :: rest =>
      match recordViolation now type w with
      | (_, w', effects) =>
          length (filter (λ e, isAutoSubmit e = true) effects) :: autoSubmitsPerRecord rest w'
      end
  end.

(** The world after [recordViolation now type]. *)
Definition recorded (now type : string) (w : World) : World :=
  set_arrays
    (push (violations (this w)) (mkViolation type now (getViolationSeverity type)) (arrays w)) w.

(** The calls [recordViolation now type] makes out of the monitor. *)
Definition recordingEffects (now type : string) (w : World) : list Effect :=
  [console_warn "Test violation:";
   onViolation (mkViolation type now (getViolationSeverity type)) (violations (this w))] ++
  if (alertThreshold (this w) <=? length (log (recorded now type w)))%nat
  then [console_warn "Multiple violations detected - triggering auto-submit";
        dispatchTestAutoSubmit "Multiple violations detected" (violations (this w))]
  else [].

(** The world after [this.violations = []]. *)
Definition resetWorld (w : World) : World :=
  with_this (set_violations (fresh (dom (arrays w))))
    (set_arrays (<[fresh (dom (arrays w)) := []]> (arrays w)) w).

(** The world after the fallback analysis of a frame. *)
Definition brightnessAnalyzed (now : string) (pixels : list byte) (w : World) : World :=
  with_this (set_lastBrightness (Some (meanBrightness pixels)))
    (if brightnessChanged (lastBrightness (this w)) (meanBrightness pixels)
     then recorded now "Significant movement detected" w
     else w).

(** The world after [stopMonitoring()]. *)
Definition stopped (w : World) : World :=
  with_this
    (λ m, set_video (removeVideo <$> video m)
            (set_stream (match stream m with
                         | Some s => Some (stopTrack <$> s)
                         | None => None
                         end)
               (set_isActive false m)))
    w.

(** The world after the native analysis of the faces of a frame. *)
Definition facesAnalyzed (now : string) (faces : list DetectedFace) (w : World) : World :=
  match faces with
  | [] => recorded now "No face detected - looking away" w
  | face :: _ =>
      with_this (set_lastFacePosition (Some (center (boundingBox face))))
        (if match lastFacePosition (this w) with
            | Some last => headMoved last (center (boundingBox face))
            | None => false
            end
         then recorded now "Suspicious head movement detected" w
         else w)
  end.

(** The timers among the effects of a call. *)
Definition isSetTimeout (e : Effect) : bool :=
  match e with
  | setTimeout _ => true
  | _ => false
  end.

(** ** The sampler in the event loop *)

(** What the host page does while the sampler is suspended: it stops the
    monitor, or the browser delivers an event. *)
Inductive HostAction :=
| hostStop
| hostEvent (now : string) (e : DomEvent).

Definition host (a : HostAction) : M unit :=
  match a with
  | hostStop => stopMonitoring
  | hostEvent now e => deliver now e
  end.

Fixpoint hostAll (actions : list HostAction) : M unit :=
  match actions with
  | [] => mret tt
  | a :: rest => host a;; hostAll rest
  end.

(** The chain of cycles that one call of [startCameraAnalysis] starts.
    Each tick gives the sample the cycle reads, what happens while the
    cycle is suspended, and what happens while its timer runs.  The result
    is the number of cycles that captured a frame. *)
Fixpoint samplerLoop (ticks : list (Sample * list HostAction * list HostAction)) : M nat :=
  match ticks with
  | [] => mret 0
  | (s, duringAwait, duringTimer) :: rest =>
      cycle ← startCameraAnalysis s;
      match cycle with
      | returned _ => mret 0
      | awaiting k =>
          hostAll duringAwait;;
          scheduled ← k;
          if scheduled : bool
          then hostAll duringTimer;; n ← samplerLoop rest; mret (S n)
          else mret 1
      end
  end.

(** An analysis that completes normally, keeps [isActive] and sets no
    timer. *)
Definition quietAnalysis (c : M unit) : Prop :=
  ∀ w1, ∃ w2 effects,
    c w1 = (normal tt, w2, effects) ∧
    isActive (this w2) = isActive (this w1) ∧
    filter (λ e, isSetTimeout e = true) effects = [].

(** The world a computation leaves. *)
Definition worldAfter {A} (c : M A) (w : World) : World := (c w).1.2.

(** The capture resource of a monitor is released: every track of its
    stream has ended and its video element is out of the document. *)
Definition released (m : TestMonitor) : Prop :=
  (∀ s, stream m = Some s → Forall (λ track, readyState track = ended) s) ∧
  (∀ v, video m = Some v → inDocument v = false).

(** ** Scenarios *)

(** A browser with the Shape Detection API and one without. *)
Definition withFaceDetector : Browser := mkBrowser true true true false false None.
Definition withoutFaceDetector : Browser := mkBrowser false true false true false None.

(** A browser that has [FaceDetector] in [window] but whose constructor
    throws. *)
Definition withBrokenFaceDetector : Browser :=
  mkBrowser true true true false false (Some "Face detection service unavailable").

(** A monitor with the default options after a successful [initialize]. *)
Definition initialized (b : Browser) : World :=
  worldAfter (initialize (normal [mkTrack live])) (construct defaultOptions b).

(** A frame whose four bytes are all [b]. *)
Definition uniformFrame (b : byte) (now : string) : Sample :=
  mkSample [b; b; b; b] (detected []) now.

(** A first session on the fallback path samples one grey frame and is
    stopped. *)
Definition afterFirstSession : World :=
  worldAfter
    (cycle ← startMonitoring (uniformFrame x64 "t1");
     settle cycle;;
     stopMonitoring)
    (initialized withoutFaceDetector).

(** A face whose bounding box is a square of side 100 centred at
    ([cx], [cy]). *)
Definition faceAt (cx cy : float) : DetectedFace :=
  mkFace (mkBox (cx - 50)%float (cy - 50)%float 100%float 100%float).

(** A session on the native path whose first cycle saw a face centred at
    (100, 100). *)
Definition afterFaceAt100 : World :=
  worldAfter
    (cycle ← startMonitoring (mkSample [] (detected [faceAt 100 100]) "t1");
     settle cycle)
    (initialized withFaceDetector).

(** A session on the fallback path whose first cycle saw a black frame. *)
Definition afterBlackFrame : World :=
  worldAfter
    (cycle ← startMonitoring (uniformFrame x00 "t1");
     settle cycle)
    (initialized withoutFaceDetector).

(** An active session in which two violations have been recorded. *)
Definition afterTwoViolations : World :=
  worldAfter
    (startMonitoring (mkSample [] (detected [faceAt 100 100]) "t0");;
     deliver "t1" blur;;
     deliver "t2" (visibilitychange true))
    (initialized withFaceDetector).

(** The host page calls the public method [recordViolation] itself, with
    two names that every object inherits. *)
Definition recordedByHost (w : World) : World :=
  worldAfter (recordViolation "t1" "constructor";; recordViolation "t2" "__proto__") w.

(** ** Sessions *)

(** What can happen to a monitor, one step at a time: the host calls a
    public method, the browser delivers an event, a timer of the sampler
    fires, or a suspended cycle is resumed. *)
Inductive Action :=
| actInitialize (getUserMedia : Completion MediaStream)
| actStart (s : Sample)         (* [startMonitoring()] up to its return *)
| actStop
| actDeliver (now : string) (e : DomEvent)
| actTimer (s : Sample)         (* [startCameraAnalysis()] up to its [await] *)
| actResumeNative (s : Sample)  (* a cycle resumes once [detect] has settled *)
| actResumeFallback             (* a cycle of the fallback path resumes *)
| actSummary.

Definition perform (a : Action) (w : World) : World :=
  match a with
  | actInitialize getUserMedia => worldAfter (initialize getUserMedia) w
  | actStart s => worldAfter (startMonitoring s) w
  | actStop => worldAfter stopMonitoring w
  | actDeliver now e => worldAfter (deliver now e) w
  | actTimer s => worldAfter (startCameraAnalysis s) w
  | actResumeNative s => worldAfter (resumeCycle (awaiting (nativeAnalysis s))) w
  | actResumeFallback => worldAfter (resumeCycle (returned tt)) w
  | actSummary => worldAfter getViolationSummary w
  end.

(** A session: the steps in the order they happen.  Any list of steps is
    a session here, also one that resumes a cycle that was never
    suspended; what holds for all of them holds for those a browser can
    produce. *)
Definition runSession (actions : list Action) (w : World) : World :=
  foldl (λ w a, perform a w) w actions.

Definition isInitialize (a : Action) : bool :=
  match a with
  | actInitialize _ => true
  | _ => false
  end.

Definition isStart (a : Action) : bool :=
  match a with
  | actStart _ => true
  | _ => false
  end.

(** ** What the monitor records *)

(** The keys that the keyboard listener can block. *)
Definition blockableKeys : list string :=
  ["Escape"; "F11"; "F12"; "PrintScreen"; "c"; "v"; "I"; "Tab"].

(** The types that the code passes to [recordViolation], each with the
    severity the classifier gives it. *)
Definition vocabulary : list (string * string) :=
  [("Tab switch detected", "high");
   ("Window lost focus", "high");
   ("Exited fullscreen mode", "high");
   ("Right-click attempted", "low");
   ("No face detected - looking away", "medium");
   ("Suspicious head movement detected", "medium");
   ("Significant movement detected", "low")] ++
  ((λ k, ("Blocked key pressed: " +:+ k, "low")) <$> blockableKeys).

Definition monitorViolation (v : Violation) : Prop :=
  (type v, severity v) ∈ vocabulary.

(** The condition of the keyboard listener. *)
Definition isBlocked (event : KeyboardEvent) : bool :=
  existsb (String.eqb (key event)) blockedKeys
  || existsb (λ combo, combo) (blockedCombos event).

(** The type that listener [l] records for event [e] while the monitor is
    active, if it records one. *)
Definition listenerRecords (l : Listener) (e : DomEvent) : option string :=
  match l, e with
  | visibilitychangeListener, visibilitychange true => Some "Tab switch detected"
  | blurListener, blur => Some "Window lost focus"
  | fullscreenchangeListener, fullscreenchange false => Some "Exited fullscreen mode"
  | keydownListener, keydown event =>
      if isBlocked event then Some ("Blocked key pressed: " +:+ key event) else None
  | contextmenuListener, contextmenu => Some "Right-click attempted"
  | _, _ => None
  end.

(** Whether listener [l] prevents the default action of [e] while the
    monitor is active. *)
Definition listenerPrevents (l : Listener) (e : DomEvent) : bool :=
  match l, e with
  | keydownListener, keydown event => isBlocked event
  | contextmenuListener, contextmenu => true
  | selectstartListener, selectstart => true
  | _, _ => false
  end.

(** The world after recording the types [types] at instant [now]. *)
Definition recordedAll (now : string) (types : list string) (w : World) : World :=
  foldl (λ w type, recorded now type w) w types.

(** The violation that [recordViolation now type] appends. *)
Definition violationOf (now type : string) : Violation :=
  mkViolation type now (getViolationSeverity type).

Definition isPreventDefault (e : Effect) : bool :=
  match e with
  | preventDefault _ => true
  | _ => false
  end.

Definition isRequestFullscreen (e : Effect) : bool :=
  match e with
  | requestFullscreen _ => true
  | _ => false
  end.

Definition isDrawImage (e : Effect) : bool :=
  match e with
  | drawImage => true
  | _ => false
  end.

(** The entry points of [enterFullscreen] in the order they are probed,
    each with its availability. *)
Definition fullscreenEntryPoints (b : Browser) : list (string * bool) :=
  [("requestFullscreen", hasRequestFullscreen b);
   ("webkitRequestFullscreen", hasWebkitRequestFullscreen b);
   ("mozRequestFullScreen", hasMozRequestFullScreen b);
   ("msRequestFullscreen", hasMsRequestFullscreen b)].

(** The error that [loadFaceDetection] raises, if it raises one. *)
Definition detectorFailure (b : Browser) : option string :=
  if hasFaceDetector b then faceDetectorError b else None.

(** The world after [setupCamera] and [loadFaceDetection] with a stream. *)
Definition cameraReady (mediaStream : MediaStream) (w : World) : World :=
  with_this
    (λ m,
       (if hasFaceDetector (browser w) && negb (bool_decide (is_Some (faceDetectorError (browser w))))
        then set_faceDetectionModel (Some (mkFaceDetector true 1))
        else λ m, m)
         (set_canvas (Some (mkCanvas 640 480))
            (set_video (Some (mkVideo true))
               (set_stream (Some mediaStream) m))))
    w.

(** The world after [setupEventListeners]. *)
Definition listenersAdded (w : World) : World :=
  mkWorld (this w) (arrays w) (listeners w ++ enabledListeners (options (this w))) (browser w).

(** Whether [initialize] succeeds. *)
Definition initializeSucceeds (getUserMedia : Completion MediaStream) (w : World) : bool :=
  negb (enableCameraMonitoring (options (this w)))
  || match getUserMedia with
     | normal _ => negb (bool_decide (is_Some (detectorFailure (browser w))))
     | throw _ => false
     end.

(** The world after [initialize]. *)
Definition initializedFrom (getUserMedia : Completion MediaStream) (w : World) : World :=
  if enableCameraMonitoring (options (this w))
  then match getUserMedia with
       | normal mediaStream =>
           match detectorFailure (browser w) with
           | None => listenersAdded (cameraReady mediaStream w)
           | Some _ => cameraReady mediaStream w
           end
       | throw _ => w
       end
  else listenersAdded w.

(** Whether [startMonitoring] runs the fallback analysis of the first frame
    inside the call. *)
Definition samplesAtStart (w : World) : bool :=
  enableCameraMonitoring (options (this w))
  && bool_decide (is_Some (video (this w)))
  && negb (bool_decide (is_Some (faceDetectionModel (this w)))).

(** The world after [startMonitoring]. *)
Definition startedWorld (s : Sample) (w : World) : World :=
  let w1 := resetWorld (with_this (set_isActive true) w) in
  if samplesAtStart w
  then brightnessAnalyzed (sampledAt s) (imageData s) w1
  else w1.

(** The world after the synchronous part of a cycle. *)
Definition sampledWorld (s : Sample) (w : World) : World :=
  if isActive (this w) && bool_decide (is_Some (video (this w)))
     && negb (bool_decide (is_Some (faceDetectionModel (this w))))
  then brightnessAnalyzed (sampledAt s) (imageData s) w
  else w.

(** The world after the resumption of a cycle of the native path. *)
Definition detectedWorld (s : Sample) (w : World) : World :=
  match detection s with
  | detected fs => facesAnalyzed (sampledAt s) fs w
  | detectRejected _ => w
  end.

(** What [enterFullscreen] requests: the first entry point that is
    available, if any. *)
Definition fullscreenRequest (b : Browser) : list Effect :=
  match filter (λ p, p.2 = true) (fullscreenEntryPoints b) with
  | (entryPoint, _) :: _ => [requestFullscreen entryPoint]
  | [] => []
  end.

(** The calls the synchronous part of a cycle makes. *)
Definition cycleEffects (s : Sample) (w : World) : list Effect :=
  if isActive (this w) && bool_decide (is_Some (video (this w)))
  then drawImage ::
       if negb (bool_decide (is_Some (faceDetectionModel (this w))))
          && brightnessChanged (lastBrightness (this w)) (meanBrightness (imageData s))
       then recordingEffects (sampledAt s) "Significant movement detected" w
       else []
  else [].

(** The calls [startMonitoring] makes. *)
Definition startEffects (s : Sample) (w : World) : list Effect :=
  (if enableCameraMonitoring (options (this w))
   then cycleEffects s (resetWorld (with_this (set_isActive true) w))
   else []) ++
  (if enableFullscreenMonitoring (options (this w))
   then fullscreenRequest (browser w)
   else []) ++
  [console_log "Test monitoring started"].

(** How the store of arrays may change along a step: arrays are never
    removed, the log array stays allocated, and an array that is not the
    log is not written and does not become the log. *)
Definition heapStep (w w' : World) : Prop :=
  dom (arrays w) ⊆ dom (arrays w') ∧
  (violations (this w) ∈ dom (arrays w) → violations (this w') ∈ dom (arrays w')) ∧
  ∀ r, r ∈ dom (arrays w) → r ≠ violations (this w) →
       arrays w' !! r = arrays w !! r ∧ r ≠ violations (this w').

(** The fields of the monitor that only [initialize] and [stopMonitoring]
    write. *)
Definition sameCapture (m m' : TestMonitor) : Prop :=
  stream m' = stream m ∧ video m' = video m ∧ canvas m' = canvas m ∧
  faceDetectionModel m' = faceDetectionModel m.

(** Whether the monitor is active after a session that started in state
    [b]: the last [startMonitoring] or [stopMonitoring] decides. *)
Definition activeAfter (b : bool) (actions : list Action) : bool :=
  foldl (λ b a, match a with
                | actStart _ => true
                | actStop => false
                | _ => b
                end) b actions.

(** A monitor that was initialized, started, stopped and started again. *)
Definition restarted : World :=
  runSession
    [actInitialize (normal [mkTrack live]);
     actStart (uniformFrame x64 "t1");
     actStop;
     actStart (uniformFrame x64 "t2")]
    (construct defaultOptions withoutFaceDetector).

(** A monitor whose [initialize] ran twice before it was started. *)
Definition initializedTwice : World :=
  runSession
    [actInitialize (normal [mkTrack live]);
     actInitialize (normal [mkTrack live]);
     actStart (mkSample [] (detected [faceAt 100 100]) "t0")]
    (construct defaultOptions withFaceDetector).

(** A cycle of the native path is suspended at [detect] when the host
    stops the monitor. *)
Definition stoppedDuringDetect : World :=
  runSession
    [actInitialize (normal [mkTrack live]);
     actStart (mkSample [] (detected [faceAt 100 100]) "t0");
     actDeliver "t1" blur;
     actDeliver "t2" blur;
     actStop]
    (construct defaultOptions withFaceDetector).

(** The analysis a cycle waits for: suspended at [detect] on the native
    path, finished on the fallback path. *)
Definition analysisOf (s : Sample) (w : World) : Async unit :=
  if bool_decide (is_Some (faceDetectionModel (this w)))
  then awaiting (nativeAnalysis s)
  else returned tt.

Definition isResumeNative (a : Action) : bool :=
  match a with
  | actResumeNative _ => true
  | _ => false
  end.

(** * The component loader: [src/scripts/components/loader.js] *)

(** An element inside the menu button that shows an icon: an [<i>] (with
    its [data-lucide] attribute, if it has one), or the [<svg>] that the
    icon library has put in the place of an element (it carries the
    [data-lucide] attribute of the element it replaced). *)
Inductive IconElement :=
| iElement (dataLucide : option string)
| svgElement (dataLucide : string).

(** A partial: its markup and, of the elements the markup parses to when
    it is assigned to [innerHTML], what the loader looks at: the button
    [#mobile-menu-btn] (with the icon elements inside it, in document
    order) and the navigation [#mobile-nav] (with whether its class list
    holds "hidden").  The HTML parser is not modelled: a partial comes with
    what its markup parses to. *)
Record Partial := mkPartial {
  markup : string;
  partialButton : option (list IconElement);
  partialNav : option bool
}.

(** The element a component is loaded into, with what the loader looks at
    among its descendants. *)
Record Element := mkElement {
  dataSource : option string;                (* the attribute [data-source] *)
  mobileMenuBtn : option (list IconElement); (* the button, with its icon elements *)
  mobileNav : option bool;                   (* the navigation, with "hidden" set or not *)
  menuWired : bool                           (* the button has the click listener *)
}.

(** What [fetch] settles to: a response with its [ok] flag and what
    [text()] settles to, or a rejection. *)
Record Response := mkResponse {
  responseOk : bool;
  responseText : Completion Partial
}.

(** The global [lucide] of the page, where the icon library is loaded:
    the names it has an icon for. *)
Definition Lucide := string → bool.

Inductive LoaderEffect :=
| fetched (url : string)
| loaderError (message detail : string)   (* console.error *)
| createIcons.                            (* lucide.createIcons() *)

(** [a || b] on values that are a string or [null]: the empty string is
    falsy too. *)
Definition orElse (a b : option string) : option string :=
  match a with
  | Some s => if String.eqb s "" then b else Some s
  | None => b
  end.

Definition previewPath : string := "/api/preview-6896c1eb0da21718c4373b9f/".

Definition initializeComponentEvents (container : Element) : Element :=
  match mobileMenuBtn container, mobileNav container with
  | Some _, Some _ =>
      mkElement (dataSource container) (mobileMenuBtn container) (mobileNav container) true
  | _, _ => container
  end.

(** [element.innerHTML = html]: the children are replaced by what the
    markup parses to, and the listeners of the old children go with
    them. *)
Definition setInnerHTML (p : Partial) (element : Element) : Element :=
  mkElement (dataSource element) (partialButton p) (partialNav p) false.

(** [loadComponent(selector, filePath)]: [element] is what
    [document.querySelector(selector)] finds, [origin] is
    [window.location.origin] and [fetch] answers for each URL. *)
Definition loadComponent (element : option Element) (filePath : option string)
    (origin : string) (fetch : string → Completion Response)
  : option Element * list LoaderEffect :=
  match element with
  | None => (None, [])
  | Some el =>
      match orElse filePath (dataSource el) with
      | None => (Some el, [])
      | Some sourceFile =>
          if String.eqb sourceFile "" then (Some el, [])
          else
            let url := origin +:+ previewPath +:+ sourceFile in
            match fetch url with
            | throw error =>
                (Some el, [fetched url; loaderError "Error loading component:" error])
            | normal response =>
                if responseOk response
                then match responseText response with
                     | normal p =>
                         (Some (initializeComponentEvents (setInnerHTML p el)), [fetched url])
                     | throw error =>
                         (Some el, [fetched url; loaderError "Error loading component:" error])
                     end
                else (Some el, [fetched url])
            end
      end
  end.

(** [mobileMenuBtn.querySelector('i')] followed by
    [icon.setAttribute('data-lucide', name)]: the first [<i>] gets the
    attribute; [None] when the button holds no [<i>], where [icon] is
    [null]. *)
Fixpoint setFirstI (name : string) (icons : list IconElement) : option (list IconElement) :=
  match icons with
  | [] => None
  | iElement _ :: rest => Some (iElement (Some name) :: rest)
  | svgElement rendered :: rest =>
      match setFirstI name rest with
      | Some rest' => Some (svgElement rendered :: rest')
      | None => None
      end
  end.

(** What [lucide.createIcons()] does to an element, as the library
    documents it: an element with the attribute [data-lucide] naming an
    icon is replaced by the [<svg>] of that icon, which carries the
    attribute too; any other element is left. *)
Definition render (icons : Lucide) (e : IconElement) : IconElement :=
  match e with
  | iElement (Some name) => if icons name then svgElement name else e
  | iElement None => e
  | svgElement name => svgElement name
  end.

(** A click on the menu button: the listener, if there is one, toggles
    "hidden" on the navigation, looks for the [<i>] in the button, sets its
    icon to "x" when the menu is open and to "menu" otherwise, and has the
    icons rendered.  Where the button holds no [<i>], [icon.setAttribute]
    raises a TypeError inside the listener; where the page has no global
    [lucide], the last line raises a ReferenceError.  An error is
    represented by its name. *)
Definition clickMenuButton (lucide : option Lucide) (element : Element)
  : Completion unit * Element * list LoaderEffect :=
  if menuWired element
  then match mobileMenuBtn element, mobileNav element with
       | Some icons, Some hidden =>
           let toggled := negb hidden in
           let isOpen := negb toggled in
           match setFirstI (if isOpen then "x" else "menu") icons with
           | None =>
               (throw "TypeError",
                mkElement (dataSource element) (Some icons) (Some toggled) true,
                [])
           | Some icons' =>
               match lucide with
               | None =>
                   (throw "ReferenceError",
                    mkElement (dataSource element) (Some icons') (Some toggled) true,
                    [])
               | Some library =>
                   (normal tt,
                    mkElement (dataSource element) (Some (render library <$> icons'))
                      (Some toggled) true,
                    [createIcons])
               end
           end
       | _, _ => (normal tt, element, [])
       end
  else (normal tt, element, []).

(** [n] clicks on the menu button: the element they leave, how the
    listener completed at each, and the calls made. *)
Fixpoint clickTimes (lucide : option Lucide) (n : nat) (element : Element)
  : Element * list (Completion unit) * list LoaderEffect :=
  match n with
  | 0 => (element, [], [])
  | S n' =>
      match clickMenuButton lucide element with
      | (outcome, element', effects) =>
          match clickTimes lucide n' element' with
          | (element'', outcomes, effects') =>
              (element'', outcome :: outcomes, effects ++ effects')
          end
      end
  end.

Definition isI (e : IconElement) : bool :=
  match e with
  | iElement _ => true
  | svgElement _ => false
  end.

(** The number of [<i>] elements among the icon elements of a button. *)
Fixpoint countI (icons : list IconElement) : nat :=
  match icons with
  | [] => 0
  | e :: rest => (if isI e then 1 else 0) + countI rest
  end.

Definition isNormal {A} (c : Completion A) : bool :=
  match c with
  | normal _ => true
  | throw _ => false
  end.

(** The number of clicks at which the listener ran to its end. *)
Definition completed (outcomes : list (Completion unit)) : nat :=
  length (filter (λ o, isNormal o = true) outcomes).

Definition isFetched (e : LoaderEffect) : bool :=
  match e with
  | fetched _ => true
  | _ => false
  end.

Definition isLoaderError (e : LoaderEffect) : bool :=
  match e with
  | loaderError _ _ => true
  | _ => false
  end.

(** The source file [loadComponent] asks for, if any: the [filePath]
    argument unless it is [null] or empty, then the [data-source]
    attribute unless it is missing or empty. *)
Definition sourceFileOf (filePath : option string) (el : Element) : option string :=
  match filePath with
  | Some f => if decide (f = "") then
                match dataSource el with
                | Some d => if decide (d = "") then None else Some d
                | None => None
                end
              else Some f
  | None => match dataSource el with
            | Some d => if decide (d = "") then None else Some d
            | None => None
            end
  end.

(** A page whose icon library has the two icons of the menu button. *)
Definition menuIcons : Lucide := λ name, String.eqb name "x" || String.eqb name "menu".

(** The header partial: a menu button with one [<i data-lucide="menu">]
    and a hidden navigation, loaded into an empty element. *)
Definition loadedHeader : Element :=
  initializeComponentEvents
    (setInnerHTML
       (mkPartial "<header>...</header>" (Some [iElement (Some "menu")]) (Some true))
       (mkElement (Some "partials/header.html") None None false)).

(** * Properties *)

(** Unfolds the monad so that a computation applied to a world reduces. *)
Ltac run :=
  unfold when, mbind, M_bind, mret, M_ret, bind, ret, get, modify, emit, raise, try_catch in *.

Lemma worldAfter_eq {A} (c : M A) (w : World) (r : Completion A) (w' : World)
    (effects : list Effect) :
  c w = (r, w', effects) → worldAfter c w = w'.
Proof. intros H. unfold worldAfter. by rewrite H. Qed.

(** ** Strings *)

Lemma isPrefixOf_spec (p s : string) :
  isPrefixOf p s = true ↔ ∃ rest, s = p +:+ rest.
Proof.
  revert s. induction p as [|a p IH]; intros s; simpl.
  - split; [intros _; by exists s | done].
  - destruct s as [|b s].
    + split; [done | intros [rest H]; discriminate].
    + destruct (Ascii.eqb_spec a b) as [->|Hne].
      * rewrite IH. split; intros [rest H]; exists rest; [by rewrite H | by injection H].
      * split; [done | intros [rest H]; injection H; intros; congruence].
Qed.

Lemma includes_spec (s searchString : string) :
  includes s searchString = true ↔ occursIn searchString s.
Proof.
  unfold occursIn. split.
  - induction s as [|c s IH]; simpl; rewrite orb_true_iff.
    + intros [H|H]; [|done]. apply isPrefixOf_spec in H as [rest ->]. by exists "", rest.
    + intros [H|H].
      * apply isPrefixOf_spec in H as [rest ->]. by exists "", rest.
      * destruct (IH H) as (before & after & ->). by exists (String c before), after.
  - intros (before & after & ->). induction before as [|c before IH].
    + destruct searchString; simpl.
      * by destruct after.
      * apply orb_true_iff. left.
        rewrite Ascii.eqb_refl. apply isPrefixOf_spec. by exists after.
    + simpl. rewrite IH. apply orb_true_r.
Qed.

Lemma existsb_includes (type : string) (table : list string) :
  existsb (λ violation, includes type violation) table = true
  ↔ ∃ violation, violation ∈ table ∧ occursIn violation type.
Proof.
  rewrite existsb_exists. split; intros (v & Hin & Hv); exists v.
  - split; [by apply list_elem_of_In | by apply includes_spec].
  - split; [by apply list_elem_of_In | by apply includes_spec].
Qed.

(** ** Severity classifier *)

(** C3: the severity of a type is a function of the type alone, decided in
    priority order: "high" exactly when the type contains one of the three
    high-severity phrases; "medium" exactly when it contains none of those
    and one of the two medium-severity phrases; "low" exactly when it
    contains none of the five.  "Blocked key pressed: I" is "low". *)
Theorem getViolationSeverity_priority (type : string) :
  let isHigh := ∃ phrase, phrase ∈ highSeverity ∧ occursIn phrase type in
  let isMedium := ∃ phrase, phrase ∈ mediumSeverity ∧ occursIn phrase type in
  highSeverity = ["Tab switch detected"; "Exited fullscreen mode"; "Window lost focus"] ∧
  mediumSeverity = ["No face detected"; "Suspicious head movement"] ∧
  (getViolationSeverity type = "high" ↔ isHigh) ∧
  (getViolationSeverity type = "medium" ↔ ¬ isHigh ∧ isMedium) ∧
  (getViolationSeverity type = "low" ↔ ¬ isHigh ∧ ¬ isMedium) ∧
  getViolationSeverity "Blocked key pressed: I" = "low".
Proof.
  intros isHigh isMedium. subst isHigh isMedium.
  rewrite <- !existsb_includes. unfold getViolationSeverity.
  destruct (existsb _ highSeverity), (existsb _ mediumSeverity);
    repeat split; try done; intros; try discriminate; intuition congruence.
Qed.

(** ** Violation recorder and threshold policy *)

Lemma contents_push (r : ref) (v : Violation) (h : gmap ref (list Violation)) :
  contents (push r v h) r = contents h r ++ [v].
Proof. unfold contents at 1, push. by rewrite lookup_insert_eq. Qed.

Lemma contents_push_ne (r r' : ref) (v : Violation) (h : gmap ref (list Violation)) :
  r ≠ r' → contents (push r v h) r' = contents h r'.
Proof. intros Hne. unfold contents, push. by rewrite lookup_insert_ne. Qed.

Lemma log_recorded (now type : string) (w : World) :
  log (recorded now type w) = log w ++ [mkViolation type now (getViolationSeverity type)].
Proof. unfold log, recorded. simpl. apply contents_push. Qed.

Lemma this_recorded (now type : string) (w : World) :
  this (recorded now type w) = this w.
Proof. done. Qed.

Lemma recordViolation_run (now type : string) (w : World) :
  recordViolation now type w = (normal tt, recorded now type w, recordingEffects now type w).
Proof.
  unfold recordViolation, triggerAutoSubmit, recordingEffects. run. simpl.
  fold (recorded now type w).
  by destruct (alertThreshold (this w) <=? length (log (recorded now type w)))%nat.
Qed.

Lemma autoSubmits_recordingEffects (now type : string) (w : World) :
  filter (λ e, isAutoSubmit e = true) (recordingEffects now type w) =
  if (alertThreshold (this w) <=? S (length (log w)))%nat
  then [dispatchTestAutoSubmit "Multiple violations detected" (violations (this w))]
  else [].
Proof.
  unfold recordingEffects. rewrite log_recorded, length_app, Nat.add_1_r. simpl.
  by destruct (alertThreshold (this w) <=? S (length (log w)))%nat.
Qed.

Lemma autoSubmitsPerRecord_from (records : list (string * string)) (w : World) :
  autoSubmitsPerRecord records w =
  (λ k, if (alertThreshold (this w) <=? k)%nat then 1 else 0)
    <$> seq (S (length (log w))) (length records).
Proof.
  revert w. induction records as [|[now type] rest IH]; intros w; [done|].
  simpl. rewrite recordViolation_run, IH, autoSubmits_recordingEffects.
  rewrite log_recorded, length_app, this_recorded, Nat.add_1_r. simpl. f_equal.
  by destruct (alertThreshold (this w) <=? S (length (log w)))%nat.
Qed.

(** The array of the log is not replaced by recording: what was handed out
    at one violation reads, after the next one, as the log with both. *)
Lemma recorded_twice_same_array (now type now' type' : string) (w : World) :
  violations (this (recorded now' type' (recorded now type w))) = violations (this w) ∧
  contents (arrays (recorded now' type' (recorded now type w))) (violations (this w)) =
  log w ++ [mkViolation type now (getViolationSeverity type);
            mkViolation type' now' (getViolationSeverity type')].
Proof.
  split; [done|].
  change (contents _ (violations (this w)))
    with (log (recorded now' type' (recorded now type w))).
  by rewrite !log_recorded, <- app_assoc.
Qed.

(** C5, as the code has it: a call of [recordViolation] appends the
    violation and raises the [testAutoSubmit] event exactly when the length
    of the log after the append is at least [alertThreshold]; it raises it
    once, with reason "Multiple violations detected" and the log array
    itself, which reads as the whole log at that instant and, being the
    same array, shows every violation recorded later.  From an empty log
    with [alertThreshold = 3], the first two calls raise none and the third
    and every later call raise one each. *)
Theorem recordViolation_autoSubmit :
  (∀ (now type : string) (w : World),
     ∃ w' effects,
       recordViolation now type w = (normal tt, w', effects) ∧
       log w' = log w ++ [mkViolation type now (getViolationSeverity type)] ∧
       alertThreshold (this w') = alertThreshold (this w) ∧
       violations (this w') = violations (this w) ∧
       filter (λ e, isAutoSubmit e = true) effects =
         (if (alertThreshold (this w) <=? length (log w'))%nat
          then [dispatchTestAutoSubmit "Multiple violations detected" (violations (this w'))]
          else [])) ∧
  (∀ (now type now' type' : string) (w w1 w2 : World) (effects effects' : list Effect),
     recordViolation now type w = (normal tt, w1, effects) →
     recordViolation now' type' w1 = (normal tt, w2, effects') →
     contents (arrays w2) (violations (this w1)) =
       log w1 ++ [mkViolation type' now' (getViolationSeverity type')]) ∧
  (∀ (records : list (string * string)) (w : World),
     alertThreshold (this w) = 3 → log w = [] →
     autoSubmitsPerRecord records w =
       (λ k, if (3 <=? k)%nat then 1 else 0) <$> seq 1 (length records)) ∧
  (∀ (opts : Options) (b : Browser),
     alertThreshold (this (construct opts b)) = 3 ∧ log (construct opts b) = []).
Proof.
  split; [|split; [|split]].
  - intros now type w. eexists _, _. split; [apply recordViolation_run|].
    rewrite autoSubmits_recordingEffects, log_recorded, length_app, Nat.add_1_r.
    by repeat split.
  - intros now type now' type' w w1 w2 effects effects' Hfirst Hsecond.
    rewrite recordViolation_run in Hfirst, Hsecond.
    injection Hsecond as <- _. injection Hfirst as <- _.
    change (contents _ _) with (log (recorded now' type' (recorded now type w))).
    by rewrite log_recorded.
  - intros records w Hthreshold Hlog.
    by rewrite autoSubmitsPerRecord_from, Hthreshold, Hlog.
  - done.
Qed.

(** The threshold example on a freshly constructed monitor: four recorded
    violations raise 0, 0, 1 and 1 events. *)
Lemma recordViolation_autoSubmit_witness :
  autoSubmitsPerRecord
    [("t1", "Tab switch detected"); ("t2", "Window lost focus");
     ("t3", "Right-click attempted"); ("t4", "Exited fullscreen mode")]
    (construct defaultOptions withFaceDetector)
  = [0; 0; 1; 1].
Proof.
  rewrite (proj1 (proj2 (proj2 recordViolation_autoSubmit))); reflexivity.
Defined.

(** In a session with two violations, the third raises the event with the
    log array, of length 3 then; after the fourth that array has length
    4. *)
Example autoSubmit_payload_scenario :
  let third := recordViolation "t3" "Right-click attempted" afterTwoViolations in
  let fourth := recordViolation "t4" "Exited fullscreen mode" third.1.2 in
  filter (λ e, isAutoSubmit e = true) third.2 =
    [dispatchTestAutoSubmit "Multiple violations detected"
       (violations (this afterTwoViolations))] ∧
  length (log third.1.2) = 3 ∧
  length (contents (arrays fourth.1.2) (violations (this afterTwoViolations))) = 4.
Proof. repeat split; vm_compute; reflexivity. Qed.

(** C5, as stated, fails in one point: what the event carries is not a
    snapshot.  After the next violation it no longer reads as the log at
    the instant of the event. *)
Lemma autoSubmit_payload_not_a_snapshot :
  ¬ (∀ (now type now' type' : string) (w w1 w2 : World) (effects effects' : list Effect)
       (reason : string) (payload : ref),
       recordViolation now type w = (normal tt, w1, effects) →
       dispatchTestAutoSubmit reason payload ∈ effects →
       recordViolation now' type' w1 = (normal tt, w2, effects') →
       contents (arrays w2) payload = log w1).
Proof.
  intros Hclaim.
  set (w := afterTwoViolations).
  set (w1 := recorded "t3" "Right-click attempted" w).
  set (w2 := recorded "t4" "Exited fullscreen mode" w1).
  assert (Hsnapshot : contents (arrays w2) (violations (this w)) = log w1).
  { apply (Hclaim "t3" "Right-click attempted" "t4" "Exited fullscreen mode" w w1 w2
             (recordingEffects "t3" "Right-click attempted" w)
             (recordingEffects "t4" "Exited fullscreen mode" w1)
             "Multiple violations detected").
    - apply recordViolation_run.
    - vm_compute. set_solver.
    - apply recordViolation_run. }
  apply (f_equal length) in Hsnapshot. revert Hsnapshot. subst w1 w2. clearbody w.
  destruct (recorded_twice_same_array "t3" "Right-click attempted"
              "t4" "Exited fullscreen mode" w) as [_ ->].
  rewrite log_recorded, !length_app. generalize (length (log w)). simpl. lia.
Qed.

(** ** Summary reporter *)

Lemma sumNat_increment (counts : gmap string nat) (k : string) :
  sumNat (<[k := default 0 (counts !! k) + 1]> counts) = S (sumNat counts).
Proof.
  unfold sumNat.
  assert (Hcomm : ∀ z1 z2 y : nat, z1 + (z2 + y) = z2 + (z1 + y))
    by (intros; lia).
  destruct (counts !! k) as [n|] eqn:Hk; simpl.
  - rewrite <- insert_delete_eq.
    rewrite map_fold_insert_L; [|intros; apply Hcomm|apply lookup_delete_eq].
    rewrite (map_fold_delete_L _ _ k n counts); [lia|intros; apply Hcomm|done].
  - rewrite map_fold_insert_L; [done|intros; apply Hcomm|done].
Qed.

Lemma sumNat_tally (keyOf : Violation → string) (l : list Violation) (acc : gmap string nat) :
  sumNat (tally keyOf acc l) = sumNat acc + length l.
Proof.
  unfold tally. revert acc. induction l as [|v l IH]; intros acc; simpl; [lia|].
  rewrite IH, sumNat_increment. lia.
Qed.

Lemma tally_lookup (keyOf : Violation → string) (l : list Violation)
    (acc : gmap string nat) (k : string) :
  tally keyOf acc l !! k =
  if decide (length (filter (λ v, keyOf v = k) l) = 0)
  then acc !! k
  else Some (default 0 (acc !! k) + length (filter (λ v, keyOf v = k) l)).
Proof.
  unfold tally. revert acc. induction l as [|v l IH]; intros acc; [done|].
  simpl. rewrite IH, filter_cons. destruct (decide (keyOf v = k)) as [->|Hne].
  - rewrite lookup_insert_eq. simpl.
    repeat case_decide; try lia; f_equal; lia.
  - by rewrite lookup_insert_ne.
Qed.

(** On an object whose properties are counts, a key that names nothing
    inherited is counted. *)
Lemma increment_plain (counts : gmap string nat) (k : string) :
  objectPrototype k = None →
  increment (numberValue <$> counts) k =
  numberValue <$> <[k := default 0 (counts !! k) + 1]> counts.
Proof.
  intros Hk. unfold increment. rewrite lookup_fmap, fmap_insert.
  destruct (counts !! k) as [n|]; simpl; [done|]. by rewrite Hk.
Qed.

Lemma countBy_plain (keyOf : Violation → string) (l : list Violation) :
  plainKeys keyOf l → countBy keyOf l = numberValue <$> tally keyOf ∅ l.
Proof.
  unfold countBy, tally. rewrite <- (fmap_empty numberValue) at 1.
  generalize (∅ : gmap string nat).
  induction l as [|v l IH]; intros acc Hplain; [done|].
  apply Forall_cons in Hplain as [Hv Hl]. simpl.
  rewrite increment_plain by done. by apply IH.
Qed.

Lemma sumCounts_numbers (counts : gmap string nat) :
  sumCounts (numberValue <$> counts) = sumNat counts.
Proof. unfold sumCounts, sumNat. by rewrite map_fold_fmap. Qed.

Lemma onlyCounts_numbers (counts : gmap string nat) : onlyCounts (numberValue <$> counts).
Proof.
  intros k v. rewrite lookup_fmap. destruct (counts !! k) as [n|]; [|done].
  intros [= <-]. by exists n.
Qed.

Lemma sumCounts_countBy (keyOf : Violation → string) (l : list Violation) :
  plainKeys keyOf l →
  onlyCounts (countBy keyOf l) ∧ sumCounts (countBy keyOf l) = length l.
Proof.
  intros Hplain. rewrite countBy_plain by done. split; [apply onlyCounts_numbers|].
  rewrite sumCounts_numbers, sumNat_tally. unfold sumNat. by rewrite map_fold_empty.
Qed.

(** The severities that [recordViolation] gives name nothing inherited. *)
Lemma getViolationSeverity_plain (type : string) :
  objectPrototype (getViolationSeverity type) = None.
Proof.
  unfold getViolationSeverity.
  destruct (existsb _ highSeverity); [done|]. by destruct (existsb _ mediumSeverity).
Qed.

(** C4, as the code has it: [getViolationSummary] leaves the world as it
    is and makes no call out of the monitor; its [total] is the length of
    the log and [violations] is the log.  When no type in the log names a
    property that objects inherit from [Object.prototype], every property
    of [byType] is a count and the counts add up to [total]; likewise for
    the severities and [bySeverity], and the severity that
    [recordViolation] gives a violation is never such a name. *)
Theorem getViolationSummary_totals (w : World) :
  ∃ summary,
    getViolationSummary w = (normal summary, w, []) ∧
    Summary.total summary = length (log w) ∧
    Summary.violations summary = violations (this w) ∧
    contents (arrays w) (Summary.violations summary) = log w ∧
    (plainKeys type (log w) →
       onlyCounts (Summary.byType summary) ∧
       sumCounts (Summary.byType summary) = Summary.total summary) ∧
    (plainKeys severity (log w) →
       onlyCounts (Summary.bySeverity summary) ∧
       sumCounts (Summary.bySeverity summary) = Summary.total summary) ∧
    (∀ type, objectPrototype (getViolationSeverity type) = None).
Proof.
  eexists. split; [reflexivity|]. simpl.
  repeat split; try done; try (by apply sumCounts_countBy).
  apply getViolationSeverity_plain.
Qed.

(** The witness: the summary of a log of two violations. *)
Lemma getViolationSummary_totals_witness :
  ∃ summary,
    getViolationSummary afterTwoViolations = (normal summary, afterTwoViolations, []) ∧
    Summary.total summary = 2 ∧
    sumCounts (Summary.byType summary) = 2 ∧
    sumCounts (Summary.bySeverity summary) = 2.
Proof.
  destruct (getViolationSummary_totals afterTwoViolations)
    as (summary & Hrun & Htotal & _ & _ & Htype & Hseverity & _).
  assert (Hlength : length (log afterTwoViolations) = 2) by (vm_compute; reflexivity).
  assert (Hplain : plainKeys type (log afterTwoViolations) ∧
                   plainKeys severity (log afterTwoViolations)).
  { unfold plainKeys. split; vm_compute; repeat constructor. }
  exists summary. split; [exact Hrun|].
  rewrite (proj2 (Htype (proj1 Hplain))), (proj2 (Hseverity (proj2 Hplain))), Htotal.
  by repeat split.
Defined.

(** C4, as stated, fails: a violation may have any type, [recordViolation]
    being a public method.  After the host page has recorded the types
    "constructor" and "__proto__", [total] is 2, but [byType] holds one
    property, a string, and no count. *)
Lemma getViolationSummary_inherited_type :
  let w := recordedByHost (construct defaultOptions withFaceDetector) in
  type <$> log w = ["constructor"; "__proto__"] ∧
  ∃ summary,
    getViolationSummary w = (normal summary, w, []) ∧
    Summary.total summary = 2 ∧
    Summary.byType summary =
      {[ "constructor" := stringValue "function Object() { [native code] }1" ]} ∧
    sumCounts (Summary.byType summary) ≠ Summary.total summary.
Proof.
  split; [vm_compute; reflexivity|].
  eexists. split; [reflexivity|].
  split; [vm_compute; reflexivity|].
  split; [vm_compute; reflexivity|].
  vm_compute. discriminate.
Qed.

(** The scenario of the specification: a tab switch and a missing face. *)
Example getViolationSummary_scenario :
  let l := [mkViolation "Tab switch detected" "t1" (getViolationSeverity "Tab switch detected");
            mkViolation "No face detected - looking away" "t2"
              (getViolationSeverity "No face detected - looking away")] in
  countBy type l =
    {[ "Tab switch detected" := numberValue 1;
       "No face detected - looking away" := numberValue 1 ]} ∧
  countBy severity l = {[ "high" := numberValue 1; "medium" := numberValue 1 ]}.
Proof.
  split; vm_compute; reflexivity.
Qed.

(** ** Lifecycle controller: [initialize] *)

Lemma setupCamera_rejected (error : string) (w : World) :
  setupCamera (throw error) w = (throw ("Camera access denied: " +:+ error), w, []).
Proof. reflexivity. Qed.

Lemma setupEventListeners_run (w : World) :
  setupEventListeners w =
  (normal tt,
   mkWorld (this w) (arrays w) (listeners w ++ enabledListeners (options (this w))) (browser w),
   []).
Proof.
  unfold setupEventListeners, enabledListeners, add_listener. run.
  destruct w as [m h ls b]; simpl.
  destruct (enableTabSwitchDetection (options m)), (enableFullscreenMonitoring (options m)),
    (enableKeyboardMonitoring (options m)); simpl; by rewrite <- ?app_assoc.
Qed.

(** When camera monitoring is disabled, [initialize] succeeds and registers
    the enabled listeners. *)
Lemma initialize_without_camera (getUserMedia : Completion MediaStream) (w : World) :
  enableCameraMonitoring (options (this w)) = false →
  initialize getUserMedia w =
  (normal true,
   mkWorld (this w) (arrays w) (listeners w ++ enabledListeners (options (this w))) (browser w),
   []).
Proof.
  intros Hcam. unfold initialize. run. rewrite Hcam. simpl.
  by rewrite setupEventListeners_run.
Qed.

(** When the capture is acquired, [initialize] owns the stream and the
    video element, whether it then succeeds or not; when it succeeds it has
    registered the enabled listeners. *)
Lemma initialize_with_camera (mediaStream : MediaStream) (w : World) :
  enableCameraMonitoring (options (this w)) = true →
  ∃ ok w' effects,
    initialize (normal mediaStream) w = (normal ok, w', effects) ∧
    stream (this w') = Some mediaStream ∧
    video (this w') = Some (mkVideo true) ∧
    isActive (this w') = isActive (this w) ∧
    (ok = true → listeners w' = listeners w ++ enabledListeners (options (this w))).
Proof.
  intros Hcam.
  unfold initialize, setupCamera, loadFaceDetection, newFaceDetector. run.
  rewrite Hcam. simpl.
  destruct (hasFaceDetector (browser w)); simpl;
    [destruct (faceDetectorError (browser w)); simpl|];
    rewrite ?setupEventListeners_run; simpl; eexists _, _, _; by repeat split.
Qed.

Lemma try_catch_normal {A} (c : M A) (handler : string → M A) (w : World) :
  (∀ error w1, ∃ a w2 effects, handler error w1 = (normal a, w2, effects)) →
  ∃ a w' effects, try_catch c handler w = (normal a, w', effects).
Proof.
  intros Hhandler. unfold try_catch.
  destruct (c w) as [[[a|error] w1] effects]; [eauto|].
  destruct (Hhandler error w1) as (a & w2 & effects2 & ->). eauto.
Qed.

(** [initialize] never raises: its promise always resolves. *)
Lemma initialize_normal (getUserMedia : Completion MediaStream) (w : World) :
  ∃ ok w' effects, initialize getUserMedia w = (normal ok, w', effects).
Proof.
  unfold initialize. apply try_catch_normal. intros error w1. by eexists _, _, _.
Qed.

(** C1, as the code has it: with camera monitoring enabled and a failed
    capture acquisition, [initialize] calls [onCameraError] once (with the
    wrapped error), completes normally with the failure result [false], and
    leaves the monitor and the page as they were: it registers no
    listener. *)
Theorem initialize_camera_failure (error : string) (w : World) :
  enableCameraMonitoring (options (this w)) = true →
  initialize (throw error) w =
  (normal false, w,
   [console_error "Failed to initialize test monitor:" ("Camera access denied: " +:+ error);
    onCameraError ("Camera access denied: " +:+ error)]).
Proof.
  intros Hcam. unfold initialize. run. rewrite Hcam. by rewrite setupCamera_rejected.
Qed.

Lemma initialize_camera_failure_witness :
  initialize (throw "Permission denied")
    (construct defaultOptions (mkBrowser true true false false false None)) =
  (normal false, construct defaultOptions (mkBrowser true true false false false None),
   [console_error "Failed to initialize test monitor:" "Camera access denied: Permission denied";
    onCameraError "Camera access denied: Permission denied"]).
Proof.
  apply (initialize_camera_failure "Permission denied"
           (construct defaultOptions (mkBrowser true true false false false None))).
  reflexivity.
Defined.

(** C1, as stated, fails: after a failed capture acquisition the enabled
    listeners are not registered. *)
Lemma initialize_camera_failure_skips_listeners :
  ¬ (∀ (error : string) (w : World),
       enableCameraMonitoring (options (this w)) = true →
       ∃ w' effects,
         initialize (throw error) w = (normal false, w', effects) ∧
         length (filter (λ e, isCameraError e = true) effects) = 1 ∧
         ∀ l, l ∈ enabledListeners (options (this w)) → l ∈ listeners w').
Proof.
  intros Hclaim.
  destruct (Hclaim "Permission denied"
              (construct defaultOptions (mkBrowser true true false false false None)) eq_refl)
    as (w' & effects & Hrun & _ & Hall).
  unfold initialize in Hrun. run. simpl in Hrun. injection Hrun as <- _.
  specialize (Hall contextmenuListener ltac:(set_solver)).
  simpl in Hall. by apply not_elem_of_nil in Hall.
Qed.

(** ** Signal listeners *)

Lemma runListener_inactive (now : string) (l : Listener) (e : DomEvent) (w : World) :
  isActive (this w) = false → runListener now l e w = (normal tt, w, []).
Proof.
  intros Hinactive. destruct l, e; try reflexivity; unfold runListener; run;
    rewrite Hinactive; simpl; by rewrite ?andb_false_r.
Qed.

Lemma runListeners_inactive (now : string) (ls : list Listener) (e : DomEvent) (w : World) :
  isActive (this w) = false → runListeners now ls e w = (normal tt, w, []).
Proof.
  intros Hinactive. induction ls as [|l ls IH]; [done|].
  simpl. run. by rewrite runListener_inactive, IH.
Qed.

Lemma deliver_inactive (now : string) (e : DomEvent) (w : World) :
  isActive (this w) = false → deliver now e w = (normal tt, w, []).
Proof.
  intros Hinactive. unfold deliver. run. by rewrite runListeners_inactive.
Qed.

(** C2: while the monitor is inactive, a sequence of events of any kind,
    delivered to any set of registered listeners, appends nothing to the
    violation log; it changes nothing at all and makes no call out of the
    monitor, so no default action is prevented either. *)
Theorem deliverAll_inactive (events : list (string * DomEvent)) (w : World) :
  isActive (this w) = false →
  ∃ w', deliverAll events w = (normal tt, w', []) ∧ log w' = log w ∧ w' = w.
Proof.
  intros Hinactive. exists w. split; [|done].
  induction events as [|[now e] events IH]; [done|].
  simpl. run. by rewrite deliver_inactive, IH.
Qed.

(** ** Lifecycle controller: [startMonitoring] and [stopMonitoring] *)

Lemma resetViolations_run (w : World) :
  resetViolations w = (normal tt, resetWorld w, []).
Proof. reflexivity. Qed.

Lemma log_resetWorld (w : World) : log (resetWorld w) = [].
Proof. unfold log, resetWorld, contents. simpl. by rewrite lookup_insert_eq. Qed.

(** The array of the earlier log is not touched by the reset: whoever
    holds it still reads the earlier violations. *)
Lemma resetWorld_keeps_old_array (w : World) :
  violations (this w) ∈ dom (arrays w) →
  contents (arrays (resetWorld w)) (violations (this w)) = log w.
Proof.
  intros Hdom. unfold log, resetWorld, contents. simpl.
  rewrite lookup_insert_ne; [done|].
  intros Heq. rewrite <- Heq in Hdom. by apply is_fresh in Hdom.
Qed.

Lemma enterFullscreen_run (w : World) :
  ∃ effects, enterFullscreen w = (normal tt, w, effects).
Proof.
  unfold enterFullscreen. run. simpl.
  destruct (hasRequestFullscreen (browser w)), (hasWebkitRequestFullscreen (browser w)),
    (hasMozRequestFullScreen (browser w)), (hasMsRequestFullscreen (browser w)); eauto.
Qed.

(** ** Presence analyzer: the fallback path *)

Lemma analyzeBrightness_run (now : string) (pixels : list byte) (w : World) :
  analyzeBrightness now pixels w =
  (normal tt, brightnessAnalyzed now pixels w,
   if brightnessChanged (lastBrightness (this w)) (meanBrightness pixels)
   then recordingEffects now "Significant movement detected" w
   else []).
Proof.
  unfold analyzeBrightness, brightnessAnalyzed. run.
  destruct (brightnessChanged _ _); [rewrite recordViolation_run|]; simpl;
    by rewrite ?app_nil_r.
Qed.

Lemma log_brightnessAnalyzed (now : string) (pixels : list byte) (w : World) :
  log (brightnessAnalyzed now pixels w) =
  log w ++
  if brightnessChanged (lastBrightness (this w)) (meanBrightness pixels)
  then [mkViolation "Significant movement detected" now "low"]
  else [].
Proof.
  unfold brightnessAnalyzed. destruct (brightnessChanged _ _).
  - change (log (with_this ?f ?w)) with (log w). by rewrite log_recorded.
  - by rewrite app_nil_r.
Qed.

Lemma isActive_brightnessAnalyzed (now : string) (pixels : list byte) (w : World) :
  isActive (this (brightnessAnalyzed now pixels w)) = isActive (this w).
Proof. unfold brightnessAnalyzed. by destruct (brightnessChanged _ _). Qed.

(** ** Camera sampler: the synchronous part of a cycle *)

Lemma startCameraAnalysis_idle (s : Sample) (w : World) :
  isActive (this w) = false ∨ video (this w) = None →
  startCameraAnalysis s w = (normal (returned false), w, []).
Proof.
  intros H. unfold startCameraAnalysis. run.
  destruct H as [-> | ->]; [done|]. by rewrite orb_true_r.
Qed.

Lemma startCameraAnalysis_fallback (s : Sample) (w : World) :
  isActive (this w) = true → is_Some (video (this w)) →
  faceDetectionModel (this w) = None →
  ∃ effects,
    startCameraAnalysis s w =
    (normal (awaiting (resumeCycle (returned tt))),
     brightnessAnalyzed (sampledAt s) (imageData s) w,
     drawImage :: effects).
Proof.
  intros Hactive Hvideo Hmodel. unfold startCameraAnalysis, analyzeFacePosition. run.
  rewrite Hactive, bool_decide_true by done. simpl. rewrite Hmodel.
  rewrite analyzeBrightness_run. simpl. eauto.
Qed.

Lemma startCameraAnalysis_native (s : Sample) (w : World) (d : FaceDetector) :
  isActive (this w) = true → is_Some (video (this w)) →
  faceDetectionModel (this w) = Some d →
  startCameraAnalysis s w =
  (normal (awaiting (resumeCycle (awaiting (nativeAnalysis s)))), w, [drawImage]).
Proof.
  intros Hactive Hvideo Hmodel. unfold startCameraAnalysis, analyzeFacePosition. run.
  rewrite Hactive, bool_decide_true by done. simpl. by rewrite Hmodel.
Qed.

(** The world a cycle leaves when it suspends (or returns at its guard). *)
Lemma startCameraAnalysis_begin (s : Sample) (w : World) :
  ∃ cycle effects,
    startCameraAnalysis s w =
    (normal cycle,
     if isActive (this w) && bool_decide (is_Some (video (this w)))
        && negb (bool_decide (is_Some (faceDetectionModel (this w))))
     then brightnessAnalyzed (sampledAt s) (imageData s) w
     else w,
     effects).
Proof.
  destruct (isActive (this w)) eqn:Hactive;
    [|rewrite startCameraAnalysis_idle by auto; eauto].
  destruct (video (this w)) as [v|] eqn:Hvideo;
    [|rewrite startCameraAnalysis_idle by auto; eauto].
  destruct (faceDetectionModel (this w)) as [d|] eqn:Hmodel.
  - rewrite (startCameraAnalysis_native s w d) by (rewrite ?Hvideo; eauto). eauto.
  - destruct (startCameraAnalysis_fallback s w) as [effects ->];
      rewrite ?Hvideo; eauto.
Qed.

(** ** Lifecycle controller: [startMonitoring] *)

(** C6, as the code has it: [startMonitoring] sets [isActive] and replaces
    the log by an empty one whatever the log was, so no earlier violation
    remains.  The first cycle of the sampler then starts inside the call;
    on the fallback path its analysis is synchronous, and when the stored
    brightness is truthy and differs from the brightness of the frame by
    more than 20, the log holds that one "Significant movement detected"
    violation when the call returns.  In every other case the log is
    empty. *)
Theorem startMonitoring_resets_log (s : Sample) (w : World) :
  let firstSampleRecords :=
    enableCameraMonitoring (options (this w))
    && bool_decide (is_Some (video (this w)))
    && negb (bool_decide (is_Some (faceDetectionModel (this w))))
    && brightnessChanged (lastBrightness (this w)) (meanBrightness (imageData s)) in
  ∃ cycle w' effects,
    startMonitoring s w = (normal cycle, w', effects) ∧
    isActive (this w') = true ∧
    log w' =
      if firstSampleRecords
      then [mkViolation "Significant movement detected" (sampledAt s) "low"]
      else [].
Proof.
  intros firstSampleRecords. subst firstSampleRecords.
  unfold startMonitoring. run. simpl.
  change (with_this (set_violations _) (set_arrays _ (with_this (set_isActive true) w)))
    with (resetWorld (with_this (set_isActive true) w)).
  set (w1 := resetWorld (with_this (set_isActive true) w)).
  assert (Hlog : log w1 = []) by apply log_resetWorld.
  assert (Hfullscreen : ∀ (cycle : Async bool) (w2 : World) (effects : list Effect),
    ∃ effects',
      (let (p, e2) :=
         let (p, e0) :=
           (if enableFullscreenMonitoring (options (this w))
            then enterFullscreen
            else λ w0 : World, (normal (), w0, [])) w2 in
         let (c1, w0) := p in
         match c1 with
         | normal _ => (normal cycle, w0, e0 ++ [console_log "Test monitoring started"])
         | throw error => (throw error, w0, e0)
         end in
       let (r, w3) := p in (r, w3, effects ++ e2)) = (normal cycle, w2, effects')).
  { intros cycle w2 effects. destruct (enableFullscreenMonitoring (options (this w))).
    - destruct (enterFullscreen_run w2) as [fs ->]. eauto.
    - eauto. }
  destruct (enableCameraMonitoring (options (this w))) eqn:Hcam;
    cbn beta iota delta [andb];
    [destruct (bool_decide (is_Some (video (this w)))) eqn:Hvideo;
     cbn beta iota delta [andb]|].
  - destruct (startCameraAnalysis_begin s w1) as (cycle & effects & ->).
    change (isActive (this w1)) with true.
    change (video (this w1)) with (video (this w)).
    change (faceDetectionModel (this w1)) with (faceDetectionModel (this w)).
    rewrite Hvideo. cbn beta iota delta [andb].
    set (w2 := if negb _ then _ else _).
    destruct (Hfullscreen cycle w2 effects) as [effects' ->].
    exists cycle, w2, effects'. split; [done|]. subst w2.
    destruct (negb _); cbn beta iota.
    + split; [by rewrite isActive_brightnessAnalyzed|].
      by rewrite log_brightnessAnalyzed, Hlog.
    + done.
  - destruct (Hfullscreen (returned false) w1 []) as [effects' ->]. eauto 10.
  - destruct (Hfullscreen (returned false) w1 []) as [effects' ->]. eauto 10.
Qed.

(** A second session that starts on a black frame after a first session
    that sampled a grey one: the log is not empty when [startMonitoring]
    returns. *)
Example startMonitoring_restart_log :
  lastBrightness (this afterFirstSession) = Some 100%float ∧
  log (worldAfter (startMonitoring (uniformFrame x00 "t2")) afterFirstSession) =
  [mkViolation "Significant movement detected" "t2" "low"].
Proof. split; vm_compute; reflexivity. Qed.

(** C6, as stated, fails: the log can be non-empty when [startMonitoring]
    returns. *)
Lemma startMonitoring_log_not_always_empty :
  ¬ (∀ (s : Sample) (w : World),
       ∃ cycle w' effects,
         startMonitoring s w = (normal cycle, w', effects) ∧
         isActive (this w') = true ∧
         log w' = []).
Proof.
  intros Hclaim.
  destruct (Hclaim (uniformFrame x00 "t2") afterFirstSession)
    as (cycle & w' & effects & Hrun & _ & Hlog).
  pose proof (proj2 startMonitoring_restart_log) as Hrestart.
  rewrite (worldAfter_eq _ _ _ _ _ Hrun) in Hrestart.
  congruence.
Qed.

(** ** Lifecycle controller: [stopMonitoring] *)

Lemma stopMonitoring_run (w : World) :
  stopMonitoring w = (normal tt, stopped w, [console_log "Test monitoring stopped"]).
Proof.
  unfold stopMonitoring, stopped. run. simpl.
  destruct (stream (this w)) eqn:Hstream, (video (this w)) eqn:Hvideo; simpl;
    rewrite ?Hstream, ?Hvideo; simpl;
    unfold with_this, set_video, set_stream, set_isActive; simpl;
    rewrite ?Hstream, ?Hvideo; done.
Qed.

Lemma stopped_released (w : World) : released (this (stopped w)).
Proof.
  split; simpl.
  - intros s Hs. destruct (stream (this w)) as [tracks|]; [|done].
    injection Hs as <-. apply Forall_fmap, Forall_true. done.
  - intros v Hv. destruct (video (this w)); [|done]. by injection Hv as <-.
Qed.

Lemma stopped_idempotent (w : World) : stopped (stopped w) = stopped w.
Proof.
  unfold stopped, with_this. simpl. f_equal. unfold set_video, set_stream, set_isActive. simpl.
  f_equal.
  - destruct (stream (this w)) as [tracks|]; [|done]. simpl. f_equal.
    rewrite <- list_fmap_compose. done.
  - by destruct (video (this w)).
Qed.

(** C8: [stopMonitoring] completes normally from every world, leaves
    [isActive] false, every track of the stream ended and the video element
    out of the document, and touches nothing else; a second call changes
    nothing.  In particular, called on what [initialize] leaves (camera
    acquired or not, monitoring never started) it ends every track that
    [getUserMedia] returned. *)
Theorem stopMonitoring_releases :
  (∀ w : World,
     ∃ w',
       stopMonitoring w = (normal tt, w', [console_log "Test monitoring stopped"]) ∧
       isActive (this w') = false ∧
       released (this w') ∧
       log w' = log w ∧ listeners w' = listeners w ∧
       stopMonitoring w' = (normal tt, w', [console_log "Test monitoring stopped"])) ∧
  (∀ (getUserMedia : Completion MediaStream) (w : World),
     ∃ w' effects,
       (initialize getUserMedia;; stopMonitoring) w = (normal tt, w', effects) ∧
       isActive (this w') = false ∧
       released (this w')) ∧
  (∀ (mediaStream : MediaStream) (opts : Options) (b : Browser),
     enableCameraMonitoring opts = true →
     let w' := worldAfter (initialize (normal mediaStream);; stopMonitoring) (construct opts b) in
     stream (this w') = Some (stopTrack <$> mediaStream) ∧
     video (this w') = Some (mkVideo false)).
Proof.
  split; [|split].
  - intros w. exists (stopped w). rewrite !stopMonitoring_run, stopped_idempotent.
    repeat split; try done; apply stopped_released.
  - intros getUserMedia w. run.
    destruct (initialize getUserMedia w) as [[[ok|error] w1] effects] eqn:Hinit.
    + rewrite stopMonitoring_run. eexists (stopped w1), _.
      repeat split; try done; apply stopped_released.
    + destruct (initialize_normal getUserMedia w) as (ok & w2 & effects2 & Hnormal).
      congruence.
  - intros mediaStream opts b Hcam w'. subst w'. unfold worldAfter. run.
    destruct (initialize_with_camera mediaStream (construct opts b) Hcam)
      as (ok & w1 & effects & -> & Hstream & Hvideo & _).
    rewrite stopMonitoring_run. simpl. by rewrite Hstream, Hvideo.
Qed.

Lemma stopMonitoring_releases_witness :
  let w' :=
    worldAfter (initialize (normal [mkTrack live; mkTrack live]);; stopMonitoring)
      (construct defaultOptions withFaceDetector) in
  stream (this w') = Some [mkTrack ended; mkTrack ended] ∧
  video (this w') = Some (mkVideo false).
Proof.
  apply (proj2 (proj2 stopMonitoring_releases) [mkTrack live; mkTrack live]
           defaultOptions withFaceDetector).
  reflexivity.
Defined.

(** ** Presence analyzer: the native path *)

Lemma analyzeFaces_run (now : string) (faces : list DetectedFace) (w : World) :
  ∃ effects,
    analyzeFaces now faces w = (normal tt, facesAnalyzed now faces w, effects) ∧
    filter (λ e, isSetTimeout e = true) effects = [].
Proof.
  unfold analyzeFaces, facesAnalyzed. destruct faces as [|face rest].
  - rewrite recordViolation_run. eexists. split; [done|].
    unfold recordingEffects. by destruct (_ <=? _)%nat.
  - run. destruct (lastFacePosition (this w)) as [last|]; simpl.
    + destruct (headMoved last (center (boundingBox face))); simpl.
      * rewrite recordViolation_run. simpl. eexists. split; [done|].
        rewrite app_nil_r. unfold recordingEffects. by destruct (_ <=? _)%nat.
      * by eexists.
    + by eexists.
Qed.

Lemma isActive_facesAnalyzed (now : string) (faces : list DetectedFace) (w : World) :
  isActive (this (facesAnalyzed now faces w)) = isActive (this w).
Proof.
  unfold facesAnalyzed. destruct faces as [|face rest]; [done|].
  by destruct (match lastFacePosition (this w) with Some _ => _ | None => _ end).
Qed.

Lemma log_facesAnalyzed_none (now : string) (w : World) :
  log (facesAnalyzed now [] w) =
  log w ++ [mkViolation "No face detected - looking away" now "medium"].
Proof. unfold facesAnalyzed. by rewrite log_recorded. Qed.

Lemma log_facesAnalyzed_face (now : string) (face : DetectedFace)
    (rest : list DetectedFace) (w : World) :
  log (facesAnalyzed now (face :: rest) w) =
  log w ++
  if match lastFacePosition (this w) with
     | Some last => headMoved last (center (boundingBox face))
     | None => false
     end
  then [mkViolation "Suspicious head movement detected" now "medium"]
  else [].
Proof.
  unfold facesAnalyzed.
  destruct (match lastFacePosition (this w) with Some _ => _ | None => _ end).
  - change (log (with_this ?f ?w)) with (log w). by rewrite log_recorded.
  - by rewrite app_nil_r.
Qed.

(** What is left of the native analysis once [detect] has settled. *)
Lemma nativeAnalysis_run (s : Sample) (w : World) :
  ∃ effects,
    nativeAnalysis s w =
    (normal tt,
     match detection s with
     | detected fs => facesAnalyzed (sampledAt s) fs w
     | detectRejected _ => w
     end,
     effects) ∧
    filter (λ e, isSetTimeout e = true) effects = [] ∧
    (∀ error, detection s = detectRejected error →
       effects = [console_error "Face detection failed:" error]).
Proof.
  unfold nativeAnalysis. destruct (detection s) as [fs|error]; run.
  - destruct (analyzeFaces_run (sampledAt s) fs w) as (effects & -> & Hfilter).
    exists effects. by repeat split.
  - simpl. eexists. repeat split. by intros error' [= ->].
Qed.

(** C7: on the native path the analysis suspends at [detect] and, once the
    detector has answered, an answer without a face appends "No face
    detected - looking away"; an answer with a face takes the centre of the
    bounding box of the first face, ([x + width / 2], [y + height / 2]),
    appends "Suspicious head movement detected" exactly when a previous
    centre is stored and the centres differ by more than 100 horizontally
    or by more than 50 vertically, and in both cases stores the centre as
    the last position.  From (100, 100) the centre (250, 100) counts as
    movement and (140, 100) does not. *)
Theorem analyzeFacePosition_native (s : Sample) (w : World) (d : FaceDetector) :
  faceDetectionModel (this w) = Some d →
  ∃ k,
    analyzeFacePosition s w = (normal (awaiting k), w, []) ∧
    (∀ w1, detection s = detected [] →
       ∃ w2 effects,
         k w1 = (normal tt, w2, effects) ∧
         lastFacePosition (this w2) = lastFacePosition (this w1) ∧
         log w2 =
           log w1 ++ [mkViolation "No face detected - looking away" (sampledAt s) "medium"]) ∧
    (∀ w1 face rest, detection s = detected (face :: rest) →
       let box := boundingBox face in
       let current :=
         mkPoint (x box + boxWidth box / 2)%float (y box + boxHeight box / 2)%float in
       ∃ w2 effects,
         k w1 = (normal tt, w2, effects) ∧
         lastFacePosition (this w2) = Some current ∧
         log w2 =
           log w1 ++
           match lastFacePosition (this w1) with
           | Some last =>
               if PrimFloat.ltb 100 (PrimFloat.abs (px current - px last))
                  || PrimFloat.ltb 50 (PrimFloat.abs (py current - py last))
               then [mkViolation "Suspicious head movement detected" (sampledAt s) "medium"]
               else []
           | None => []
           end) ∧
    (∀ box, center box = mkPoint (x box + boxWidth box / 2) (y box + boxHeight box / 2)) ∧
    center (boundingBox (faceAt 250 100)) = mkPoint 250 100 ∧
    center (mkBox 210 60 80 80) = mkPoint 250 100 ∧
    headMoved (mkPoint 100 100) (mkPoint 250 100) = true ∧
    headMoved (mkPoint 100 100) (mkPoint 140 100) = false.
Proof.
  intros Hmodel. exists (nativeAnalysis s). split; [|split; [|split; [|split]]].
  - unfold analyzeFacePosition. run. by rewrite Hmodel.
  - intros w1 Hdetected.
    destruct (nativeAnalysis_run s w1) as (effects & -> & _).
    rewrite Hdetected. eexists _, _. split; [done|]. split; [done|].
    apply log_facesAnalyzed_none.
  - intros w1 face rest Hdetected box current.
    destruct (nativeAnalysis_run s w1) as (effects & -> & _).
    rewrite Hdetected. eexists _, _. split; [done|]. split; [done|].
    rewrite log_facesAnalyzed_face. by destruct (lastFacePosition (this w1)).
  - done.
  - by vm_compute.
Qed.

(** The witness: after a face centred at (100, 100), a face whose bounding
    box has its corner at (210, 60) and is 80 wide and 80 high. *)
Lemma analyzeFacePosition_native_witness :
  ∃ k,
    analyzeFacePosition (mkSample [] (detected [mkFace (mkBox 210 60 80 80)]) "t2")
        afterFaceAt100 =
      (normal (awaiting k), afterFaceAt100, []) ∧
    log (worldAfter k afterFaceAt100) =
      [mkViolation "Suspicious head movement detected" "t2" "medium"] ∧
    lastFacePosition (this (worldAfter k afterFaceAt100)) = Some (mkPoint 250 100).
Proof.
  destruct (analyzeFacePosition_native
              (mkSample [] (detected [mkFace (mkBox 210 60 80 80)]) "t2") afterFaceAt100
              (mkFaceDetector true 1) eq_refl)
    as (k & Hrun & _ & Hface & _).
  exists k. split; [exact Hrun|].
  destruct (Hface afterFaceAt100 (mkFace (mkBox 210 60 80 80)) [] eq_refl)
    as (w2 & effects & Hk & Hlast & Hlog).
  rewrite (worldAfter_eq _ _ _ _ _ Hk). split; [exact Hlog | exact Hlast].
Defined.

(** The scenario of the specification run through the code: after a face
    at (100, 100), a face at (250, 100) is recorded and a face at
    (140, 100) is not. *)
Example analyzeFacePosition_scenario :
  lastFacePosition (this afterFaceAt100) = Some (mkPoint 100 100) ∧
  log afterFaceAt100 = [] ∧
  log (worldAfter
         (analysis ← analyzeFacePosition (mkSample [] (detected [faceAt 250 100]) "t2");
          settle analysis) afterFaceAt100) =
    [mkViolation "Suspicious head movement detected" "t2" "medium"] ∧
  log (worldAfter
         (analysis ← analyzeFacePosition (mkSample [] (detected [faceAt 140 100]) "t2");
          settle analysis) afterFaceAt100) = [].
Proof. repeat split; vm_compute; reflexivity. Qed.

(** ** Presence analyzer: a stored brightness of zero *)

(** C10: on the fallback path, when the stored brightness is exactly 0 the
    analysis of a frame, whatever its pixels, records nothing and makes no
    call out of the monitor; it only stores the mean luminance of the frame
    as the last brightness. *)
Theorem analyzeFacePosition_zero_brightness (s : Sample) (w : World) :
  faceDetectionModel (this w) = None →
  lastBrightness (this w) = Some 0%float →
  analyzeFacePosition s w =
  (normal (returned tt),
   with_this (set_lastBrightness (Some (meanBrightness (imageData s)))) w,
   []).
Proof.
  intros Hmodel Hlast. unfold analyzeFacePosition. run. rewrite Hmodel.
  rewrite analyzeBrightness_run. unfold brightnessAnalyzed. by rewrite Hlast.
Qed.

(** After a black frame a white frame, 255 units brighter, records
    nothing. *)
Lemma analyzeFacePosition_zero_brightness_witness :
  lastBrightness (this afterBlackFrame) = Some 0%float ∧
  meanBrightness (imageData (uniformFrame xff "t2")) = 255%float ∧
  analyzeFacePosition (uniformFrame xff "t2") afterBlackFrame =
  (normal (returned tt),
   with_this (set_lastBrightness (Some (meanBrightness (imageData (uniformFrame xff "t2")))))
     afterBlackFrame,
   []).
Proof.
  split; [reflexivity|]. split; [reflexivity|].
  apply (analyzeFacePosition_zero_brightness (uniformFrame xff "t2") afterBlackFrame);
    reflexivity.
Defined.

(** The same white frame after a grey one is recorded: the difference to a
    stored brightness of 100 is 155. *)
Example analyzeFacePosition_nonzero_brightness :
  lastBrightness (this afterFirstSession) = Some 100%float ∧
  log (worldAfter (analyzeFacePosition (uniformFrame xff "t2")) afterFirstSession) =
  [mkViolation "Significant movement detected" "t2" "low"].
Proof. split; vm_compute; reflexivity. Qed.

(** ** Camera sampler *)

Lemma scheduleNext_run (w : World) :
  scheduleNext w =
  (normal (isActive (this w)), w, if isActive (this w) then [setTimeout 1000] else []).
Proof. unfold scheduleNext. run. by destruct (isActive (this w)). Qed.

Lemma settle_quiet (s : Sample) (w : World) :
  ∃ analysis w' effects,
    analyzeFacePosition s w = (normal analysis, w', effects) ∧
    isActive (this w') = isActive (this w) ∧
    quietAnalysis (settle analysis).
Proof.
  unfold analyzeFacePosition. run.
  destruct (faceDetectionModel (this w)) as [d|].
  - eexists _, _, _. split; [done|]. split; [done|]. intros w1.
    destruct (nativeAnalysis_run s w1) as (effects & Hrun & Hfilter & _).
    eexists _, _. split; [exact Hrun|]. split; [|done].
    destruct (detection s); [apply isActive_facesAnalyzed | done].
  - rewrite analyzeBrightness_run. simpl. eexists _, _, _. split; [done|].
    split; [apply isActive_brightnessAnalyzed|]. intros w1. by eexists _, _.
Qed.

Lemma resumeCycle_run (analysis : Async unit) (w1 : World) :
  quietAnalysis (settle analysis) →
  ∃ w2 effects,
    resumeCycle analysis w1 = (normal (isActive (this w1)), w2, effects) ∧
    isActive (this w2) = isActive (this w1) ∧
    filter (λ e, isSetTimeout e = true) effects =
      if isActive (this w1) then [setTimeout 1000] else [].
Proof.
  intros Hquiet. destruct (Hquiet w1) as (w2 & effects & Hrun & Hactive & Hfilter).
  unfold resumeCycle. run. rewrite Hrun, scheduleNext_run, Hactive.
  eexists _, _. split; [done|]. split; [done|].
  rewrite filter_app, Hfilter. by destruct (isActive (this w1)).
Qed.

(** Listeners and [stopMonitoring] complete normally and never set
    [isActive]. *)
Lemma runListener_run (now : string) (l : Listener) (e : DomEvent) (w : World) :
  ∃ w' effects, runListener now l e w = (normal tt, w', effects) ∧ this w' = this w.
Proof.
  destruct l, e; try (by eexists _, _); unfold runListener; run;
    repeat match goal with
           | |- context [if ?b then _ else _] => destruct b
           end;
    rewrite ?recordViolation_run; simpl; by eexists _, _.
Qed.

Lemma runListeners_run (now : string) (ls : list Listener) (e : DomEvent) (w : World) :
  ∃ w' effects, runListeners now ls e w = (normal tt, w', effects) ∧ this w' = this w.
Proof.
  revert w. induction ls as [|l ls IH]; intros w; [by eexists _, _|].
  simpl. run. destruct (runListener_run now l e w) as (w1 & e1 & -> & Hthis).
  destruct (IH w1) as (w2 & e2 & -> & Hthis2). eexists _, _. split; [done|]. congruence.
Qed.

Lemma host_run (a : HostAction) (w : World) :
  ∃ w' effects,
    host a w = (normal tt, w', effects) ∧
    (isActive (this w) = false ∨ a = hostStop → isActive (this w') = false).
Proof.
  destruct a as [|now e]; simpl.
  - rewrite stopMonitoring_run. by eexists _, _.
  - unfold deliver. run.
    destruct (runListeners_run now (listeners w) e w) as (w' & effects & -> & Hthis).
    eexists _, _. split; [done|]. rewrite Hthis. by intros [?|?].
Qed.

Lemma hostAll_run (actions : list HostAction) (w : World) :
  ∃ w' effects,
    hostAll actions w = (normal tt, w', effects) ∧
    (isActive (this w) = false ∨ hostStop ∈ actions → isActive (this w') = false).
Proof.
  revert w. induction actions as [|a actions IH]; intros w.
  - eexists _, _. split; [done|]. intros [?|Hin]; [done|]. by apply not_elem_of_nil in Hin.
  - simpl. run. destruct (host_run a w) as (w1 & e1 & -> & Hhost).
    destruct (IH w1) as (w2 & e2 & -> & Hrest). eexists _, _. split; [done|].
    intros [Hinactive|Hin]; apply Hrest.
    + left. apply Hhost. by left.
    + apply elem_of_cons in Hin as [<-|Hin]; [left; apply Hhost; by right | by right].
Qed.

Lemma samplerLoop_inactive (ticks : list (Sample * list HostAction * list HostAction))
    (w : World) :
  isActive (this w) = false → samplerLoop ticks w = (normal 0, w, []).
Proof.
  intros Hinactive. destruct ticks as [|[[s duringAwait] duringTimer] rest]; [done|].
  simpl. run. by rewrite startCameraAnalysis_idle by auto.
Qed.

Lemma startCameraAnalysis_active (s : Sample) (w : World) :
  isActive (this w) = true → is_Some (video (this w)) →
  ∃ analysis w' effects,
    analyzeFacePosition s w = (normal analysis, w', effects) ∧
    startCameraAnalysis s w =
      (normal (awaiting (resumeCycle analysis)), w', drawImage :: effects) ∧
    quietAnalysis (settle analysis).
Proof.
  intros Hactive Hvideo.
  destruct (settle_quiet s w) as (analysis & w' & effects & Hrun & _ & Hquiet).
  exists analysis, w', effects. split; [done|]. split; [|done].
  unfold startCameraAnalysis. run. rewrite Hactive, bool_decide_true by done.
  cbn beta iota delta [negb orb]. rewrite Hrun. simpl. by rewrite app_nil_r.
Qed.

Lemma samplerLoop_stopped (s : Sample) (duringAwait duringTimer : list HostAction)
    (rest : list (Sample * list HostAction * list HostAction)) (w : World) :
  hostStop ∈ duringAwait ∨ hostStop ∈ duringTimer →
  ∃ n w' effects,
    samplerLoop ((s, duringAwait, duringTimer) :: rest) w = (normal n, w', effects) ∧
    (n ≤ 1)%nat.
Proof.
  intros Hstop. simpl. run.
  destruct (isActive (this w)) eqn:Hactive;
    [|rewrite startCameraAnalysis_idle by auto; eexists _, _, _; split; [done|lia]].
  destruct (video (this w)) as [v|] eqn:Hvideo;
    [|rewrite startCameraAnalysis_idle by auto; eexists _, _, _; split; [done|lia]].
  destruct (startCameraAnalysis_active s w) as (analysis & w1 & e1 & _ & -> & Hquiet);
    [done|by rewrite Hvideo|].
  destruct (hostAll_run duringAwait w1) as (w2 & e2 & -> & Hawait).
  destruct (resumeCycle_run analysis w2 Hquiet) as (w3 & e3 & -> & Hactive3 & _).
  destruct (isActive (this w2)) eqn:Hactive2; [|eexists _, _, _; split; [done|lia]].
  destruct (hostAll_run duringTimer w3) as (w4 & e4 & -> & Htimer).
  rewrite samplerLoop_inactive.
  - eexists _, _, _. split; [done|lia].
  - apply Htimer. right. destruct Hstop as [Hin|Hin]; [|done].
    exfalso. by discriminate Hawait; right.
Qed.

(** C9: a cycle entered while the monitor is inactive captures nothing and
    schedules nothing.  A cycle entered while it is active (with a video
    element) draws the frame, hands the sample to [analyzeFacePosition] and
    suspends; when it is resumed, in whatever world, it completes normally
    and sets the timer, for 1000 ms and once, exactly when [isActive] holds
    then, and no timer otherwise.  A rejected detection is logged, changes
    nothing in the world, and the cycle still schedules the next one if the
    monitor is active.  So a chain of cycles started while inactive runs no
    cycle, and a chain in which the host stops the monitor during the first
    cycle or during its timer runs at most that one cycle. *)
Theorem startCameraAnalysis_cycle :
  (∀ (s : Sample) (w : World),
     isActive (this w) = false →
     startCameraAnalysis s w = (normal (returned false), w, [])) ∧
  (∀ (s : Sample) (w : World),
     isActive (this w) = true → is_Some (video (this w)) →
     ∃ analysis w' effects,
       analyzeFacePosition s w = (normal analysis, w', effects) ∧
       startCameraAnalysis s w =
         (normal (awaiting (resumeCycle analysis)), w', drawImage :: effects) ∧
       ∀ w1, ∃ w2 effects2,
         resumeCycle analysis w1 = (normal (isActive (this w1)), w2, effects2) ∧
         isActive (this w2) = isActive (this w1) ∧
         filter (λ e, isSetTimeout e = true) effects2 =
           if isActive (this w1) then [setTimeout 1000] else []) ∧
  (∀ (s : Sample) (error : string) (w1 : World),
     detection s = detectRejected error →
     resumeCycle (awaiting (nativeAnalysis s)) w1 =
     (normal (isActive (this w1)), w1,
      console_error "Face detection failed:" error
        :: if isActive (this w1) then [setTimeout 1000] else [])) ∧
  (∀ (ticks : list (Sample * list HostAction * list HostAction)) (w : World),
     isActive (this w) = false → samplerLoop ticks w = (normal 0, w, [])) ∧
  (∀ (s : Sample) (duringAwait duringTimer : list HostAction)
     (rest : list (Sample * list HostAction * list HostAction)) (w : World),
     hostStop ∈ duringAwait ∨ hostStop ∈ duringTimer →
     ∃ n w' effects,
       samplerLoop ((s, duringAwait, duringTimer) :: rest) w = (normal n, w', effects) ∧
       (n ≤ 1)%nat).
Proof.
  split; [|split; [|split; [|split]]].
  - intros s w Hinactive. apply startCameraAnalysis_idle. by left.
  - intros s w Hactive Hvideo.
    destruct (startCameraAnalysis_active s w Hactive Hvideo)
      as (analysis & w' & effects & Hanalysis & Hrun & Hquiet).
    exists analysis, w', effects. split; [done|]. split; [done|].
    intros w1. by apply resumeCycle_run.
  - intros s error w1 Hrejected.
    destruct (nativeAnalysis_run s w1) as (effects & Hrun & _ & Heffects).
    rewrite Hrejected in Hrun. rewrite (Heffects error Hrejected) in Hrun.
    unfold resumeCycle. run. simpl. rewrite Hrun, scheduleNext_run.
    by destruct (isActive (this w1)).
  - apply samplerLoop_inactive.
  - apply samplerLoop_stopped.
Qed.

(** A session on the native path with three samples queued: the detector
    fails on the first, and the host stops the monitor while the first
    timer runs.  One cycle runs, and the failure records nothing. *)
Lemma startCameraAnalysis_cycle_witness :
  ∃ n w' effects,
    samplerLoop
      [(mkSample [] (detectRejected "NotSupportedError") "t2", [], [hostStop]);
       (mkSample [] (detected []) "t3", [], []);
       (mkSample [] (detected []) "t4", [], [])]
      afterFaceAt100 = (normal n, w', effects) ∧
    (n ≤ 1)%nat.
Proof.
  apply (proj2 (proj2 (proj2 (proj2 startCameraAnalysis_cycle)))).
  right. apply list_elem_of_here.
Defined.

Example samplerLoop_scenario :
  let run :=
    samplerLoop
      [(mkSample [] (detectRejected "NotSupportedError") "t2", [], [hostStop]);
       (mkSample [] (detected []) "t3", [], []);
       (mkSample [] (detected []) "t4", [], [])]
      afterFaceAt100 in
  run.1.1 = normal 1 ∧
  log run.1.2 = [] ∧
  filter (λ e, isSetTimeout e = true) run.2 = [setTimeout 1000].
Proof. repeat split; vm_compute; reflexivity. Qed.

(** ** Signal listeners: a witness *)

(** An initialized monitor that was never started receives one event of
    every kind, the blocked combination Ctrl+Shift+I among them. *)
Lemma deliverAll_inactive_witness :
  ∃ w',
    deliverAll
      [("t1", visibilitychange true); ("t2", blur); ("t3", fullscreenchange false);
       ("t4", keydown (mkKey "I" true true false)); ("t5", contextmenu);
       ("t6", selectstart)]
      (initialized withFaceDetector) = (normal tt, w', []) ∧
    log w' = log (initialized withFaceDetector) ∧
    w' = initialized withFaceDetector.
Proof.
  apply (deliverAll_inactive
           [("t1", visibilitychange true); ("t2", blur); ("t3", fullscreenchange false);
            ("t4", keydown (mkKey "I" true true false)); ("t5", contextmenu);
            ("t6", selectstart)]
           (initialized withFaceDetector)).
  reflexivity.
Defined.

(** The same events delivered to the monitor once it is active are
    recorded; the key combination is prevented and resolves to "low". *)
Example deliverAll_active_scenario :
  let w := worldAfter (startMonitoring (mkSample [] (detected []) "t0"))
             (initialized withFaceDetector) in
  listeners w = enabledListeners defaultOptions ∧
  log (worldAfter
         (deliverAll [("t1", visibilitychange true);
                      ("t4", keydown (mkKey "I" true true false))]) w) =
  [mkViolation "Tab switch detected" "t1" "high";
   mkViolation "Blocked key pressed: I" "t4" "low"].
Proof. split; vm_compute; reflexivity. Qed.

(** * Further properties *)

(** ** What each operation leaves *)

Lemma initialize_run (getUserMedia : Completion MediaStream) (w : World) :
  ∃ effects,
    initialize getUserMedia w =
      (normal (initializeSucceeds getUserMedia w), initializedFrom getUserMedia w, effects) ∧
    length (filter (λ e, isCameraError e = true) effects) =
      if initializeSucceeds getUserMedia w then 0 else 1.
Proof.
  unfold initializeSucceeds, initializedFrom.
  destruct (enableCameraMonitoring (options (this w))) eqn:Hcam.
  - destruct getUserMedia as [mediaStream|error].
    + unfold initialize, setupCamera, loadFaceDetection, newFaceDetector, detectorFailure.
      run. rewrite Hcam. simpl.
      destruct (hasFaceDetector (browser w)) eqn:Hdetector; simpl;
        [destruct (faceDetectorError (browser w)) eqn:Herror; simpl|];
        rewrite ?setupEventListeners_run; simpl; eexists; split;
        unfold listenersAdded, cameraReady; simpl; rewrite ?Hdetector, ?Herror; done.
    + unfold initialize. run. rewrite Hcam, setupCamera_rejected. simpl.
      by eexists.
  - rewrite initialize_without_camera by done. by eexists.
Qed.

Lemma enterFullscreen_eq (w : World) :
  enterFullscreen w = (normal tt, w, fullscreenRequest (browser w)).
Proof.
  unfold enterFullscreen, fullscreenRequest, fullscreenEntryPoints. run. simpl.
  destruct (hasRequestFullscreen (browser w)), (hasWebkitRequestFullscreen (browser w)),
    (hasMozRequestFullScreen (browser w)), (hasMsRequestFullscreen (browser w)); done.
Qed.

Lemma startCameraAnalysis_run (s : Sample) (w : World) :
  ∃ cycle,
    startCameraAnalysis s w = (normal cycle, sampledWorld s w, cycleEffects s w) ∧
    (isActive (this w) && bool_decide (is_Some (video (this w))) = false →
       cycle = returned false) ∧
    (isActive (this w) && bool_decide (is_Some (video (this w))) = true →
       cycle = awaiting (resumeCycle (analysisOf s w))).
Proof.
  unfold sampledWorld, cycleEffects, analysisOf.
  destruct (isActive (this w)) eqn:Hactive; simpl;
    [|rewrite startCameraAnalysis_idle by auto; eexists; split; [done|]; split; [done|];
      intros; discriminate].
  destruct (video (this w)) as [v|] eqn:Hvideo; simpl;
    [|rewrite startCameraAnalysis_idle by auto; eexists; split; [done|]; split; [done|];
      intros; discriminate].
  unfold startCameraAnalysis, analyzeFacePosition. run.
  rewrite Hactive, Hvideo. simpl.
  destruct (faceDetectionModel (this w)) as [d|] eqn:Hmodel; simpl.
  - eexists. split; [done|]. split; [intros; discriminate|]. done.
  - rewrite analyzeBrightness_run. simpl. rewrite !app_nil_r.
    eexists. split; [done|]. split; [intros; discriminate|]. done.
Qed.

Lemma startMonitoring_run (s : Sample) (w : World) :
  ∃ cycle,
    startMonitoring s w = (normal cycle, startedWorld s w, startEffects s w) ∧
    (enableCameraMonitoring (options (this w)) && bool_decide (is_Some (video (this w)))
       = false → cycle = returned false) ∧
    (enableCameraMonitoring (options (this w)) && bool_decide (is_Some (video (this w)))
       = true → cycle = awaiting (resumeCycle (analysisOf s w))).
Proof.
  unfold startMonitoring, startedWorld, startEffects, samplesAtStart. run. simpl.
  change (with_this (set_violations _) (set_arrays _ (with_this (set_isActive true) w)))
    with (resetWorld (with_this (set_isActive true) w)).
  set (w1 := resetWorld (with_this (set_isActive true) w)).
  assert (Hrest : ∀ (cycle : Async bool) (w2 : World) (effects : list Effect),
    browser w2 = browser w →
    (let (p, e2) :=
       let (p, e0) :=
         (if enableFullscreenMonitoring (options (this w))
          then enterFullscreen
          else λ w0 : World, (normal (), w0, [])) w2 in
       let (c1, w0) := p in
       match c1 with
       | normal _ => (normal cycle, w0, e0 ++ [console_log "Test monitoring started"])
       | throw error => (throw error, w0, e0)
       end in
     let (r, w3) := p in (r, w3, effects ++ e2)) =
    (normal cycle, w2,
     effects ++
     (if enableFullscreenMonitoring (options (this w))
      then fullscreenRequest (browser w) else []) ++
     [console_log "Test monitoring started"])).
  { intros cycle w2 effects Hbrowser.
    destruct (enableFullscreenMonitoring (options (this w))).
    - by rewrite enterFullscreen_eq, Hbrowser.
    - done. }
  destruct (enableCameraMonitoring (options (this w))) eqn:Hcam;
    cbn beta iota delta [andb].
  - destruct (startCameraAnalysis_run s w1) as (cycle & Hrun & Hidle & Hbusy).
    change (isActive (this w1)) with true in Hidle, Hbusy.
    change (video (this w1)) with (video (this w)) in Hidle, Hbusy.
    cbn beta iota delta [andb] in Hidle, Hbusy.
    destruct (bool_decide (is_Some (video (this w)))) eqn:Hvideo;
      cbn beta iota delta [andb].
    + rewrite Hrun. cbn beta iota.
      rewrite Hrest.
      * exists cycle. split; [|split; [intros; discriminate|done]].
        unfold sampledWorld.
        change (isActive (this w1)) with true.
        change (video (this w1)) with (video (this w)).
        change (faceDetectionModel (this w1)) with (faceDetectionModel (this w)).
        by rewrite Hvideo.
      * unfold sampledWorld, brightnessAnalyzed. repeat case_match; reflexivity.
    + specialize (Hrest (returned false) w1 []). cbn beta iota in Hrest.
      rewrite Hrest by done. exists (returned false).
      split; [|split; [done|intros; discriminate]].
      unfold cycleEffects. change (video (this w1)) with (video (this w)).
      by rewrite Hvideo, andb_false_r.
  - specialize (Hrest (returned false) w1 []). cbn beta iota in Hrest.
    rewrite Hrest by done. exists (returned false).
    split; [done|]. split; [done|intros; discriminate].
Qed.

Lemma this_recordedAll (now : string) (types : list string) (w : World) :
  this (recordedAll now types w) = this w.
Proof.
  revert w. induction types as [|type types IH]; intros w; [done|].
  simpl. by rewrite IH.
Qed.

Lemma log_recordedAll (now : string) (types : list string) (w : World) :
  log (recordedAll now types w) = log w ++ (violationOf now <$> types).
Proof.
  revert w. induction types as [|type types IH]; intros w; simpl.
  - by rewrite app_nil_r.
  - by rewrite IH, log_recorded, <- app_assoc.
Qed.

Lemma runListener_active (now : string) (l : Listener) (e : DomEvent) (w : World) :
  isActive (this w) = true →
  runListener now l e w =
  (normal tt,
   recordedAll now (option_list (listenerRecords l e)) w,
   (if listenerPrevents l e then [preventDefault e] else []) ++
   match listenerRecords l e with
   | Some type => recordingEffects now type w
   | None => []
   end).
Proof.
  intros Hactive. destruct l, e as [[]| |[]|event| |]; try reflexivity;
    unfold runListener, listenerRecords, listenerPrevents; run;
    rewrite Hactive; cbn beta iota delta [negb andb];
    try (fold (isBlocked event); destruct (isBlocked event));
    rewrite ?recordViolation_run; simpl; by rewrite ?app_nil_r.
Qed.

Lemma runListeners_active (now : string) (ls : list Listener) (e : DomEvent) (w : World) :
  isActive (this w) = true →
  ∃ effects,
    runListeners now ls e w =
      (normal tt, recordedAll now (omap (λ l, listenerRecords l e) ls) w, effects) ∧
    length (filter (λ x, isPreventDefault x = true) effects) =
      length (filter (λ l, listenerPrevents l e = true) ls) ∧
    filter (λ x, isSetTimeout x = true) effects = [].
Proof.
  revert w. induction ls as [|l ls IH]; intros w Hactive; [by eexists|].
  simpl. run. rewrite runListener_active by done.
  set (w1 := recordedAll now (option_list (listenerRecords l e)) w).
  destruct (IH w1) as (effects & -> & Hprevent & Htimer).
  { subst w1. by rewrite this_recordedAll. }
  eexists. split.
  - f_equal. f_equal. subst w1. unfold recordedAll.
    destruct (listenerRecords l e); done.
  - rewrite !filter_app, !length_app, Hprevent, Htimer.
    assert (Hrec : ∀ type w0,
      filter (λ x, isPreventDefault x = true) (recordingEffects now type w0) = [] ∧
      filter (λ x, isSetTimeout x = true) (recordingEffects now type w0) = []).
    { intros type w0. unfold recordingEffects. by destruct (_ <=? _)%nat. }
    rewrite filter_cons.
    destruct (listenerPrevents l e), (listenerRecords l e) as [type|]; simpl;
      try destruct (Hrec type w) as [-> ->]; try case_decide; simpl; try done.
Qed.

(** The types the registered listeners record for an event. *)
Lemma deliver_run (now : string) (e : DomEvent) (w : World) :
  ∃ effects,
    deliver now e w =
      (normal tt,
       if isActive (this w)
       then recordedAll now (omap (λ l, listenerRecords l e) (listeners w)) w
       else w,
       effects) ∧
    length (filter (λ x, isPreventDefault x = true) effects) =
      (if isActive (this w)
       then length (filter (λ l, listenerPrevents l e = true) (listeners w))
       else 0) ∧
    filter (λ x, isSetTimeout x = true) effects = [].
Proof.
  destruct (isActive (this w)) eqn:Hactive.
  - unfold deliver. run.
    destruct (runListeners_active now (listeners w) e w Hactive)
      as (effects & -> & Hprevent & Htimer).
    by eexists.
  - rewrite deliver_inactive by done. by eexists.
Qed.

Lemma resumeNative_run (s : Sample) (w : World) :
  ∃ effects,
    resumeCycle (awaiting (nativeAnalysis s)) w =
      (normal (isActive (this w)), detectedWorld s w, effects) ∧
    filter (λ e, isSetTimeout e = true) effects =
      if isActive (this w) then [setTimeout 1000] else [].
Proof.
  destruct (nativeAnalysis_run s w) as (effects & Hrun & Hfilter & _).
  unfold resumeCycle. run. simpl. rewrite Hrun, scheduleNext_run.
  assert (Hactive : isActive (this (detectedWorld s w)) = isActive (this w)).
  { unfold detectedWorld. destruct (detection s); [apply isActive_facesAnalyzed|done]. }
  fold (detectedWorld s w). rewrite Hactive. eexists. split; [done|].
  rewrite filter_app, Hfilter. by destruct (isActive (this w)).
Qed.

Lemma resumeFallback_run (w : World) :
  resumeCycle (returned tt) w =
  (normal (isActive (this w)), w, if isActive (this w) then [setTimeout 1000] else []).
Proof. unfold resumeCycle. run. simpl. by rewrite scheduleNext_run. Qed.

Lemma perform_eq (a : Action) (w : World) :
  perform a w =
  match a with
  | actInitialize getUserMedia => initializedFrom getUserMedia w
  | actStart s => startedWorld s w
  | actStop => stopped w
  | actDeliver now e =>
      if isActive (this w)
      then recordedAll now (omap (λ l, listenerRecords l e) (listeners w)) w
      else w
  | actTimer s => sampledWorld s w
  | actResumeNative s => detectedWorld s w
  | actResumeFallback => w
  | actSummary => w
  end.
Proof.
  destruct a as [g|s| |now e|s|s| |]; simpl.
  - destruct (initialize_run g w) as (effects & Hrun & _). by apply worldAfter_eq in Hrun.
  - destruct (startMonitoring_run s w) as (cycle & Hrun & _). by apply worldAfter_eq in Hrun.
  - eapply worldAfter_eq, stopMonitoring_run.
  - destruct (deliver_run now e w) as (effects & Hrun & _). by apply worldAfter_eq in Hrun.
  - destruct (startCameraAnalysis_run s w) as (cycle & Hrun & _).
    by apply worldAfter_eq in Hrun.
  - destruct (resumeNative_run s w) as (effects & Hrun & _). by apply worldAfter_eq in Hrun.
  - eapply worldAfter_eq, resumeFallback_run.
  - reflexivity.
Qed.

Lemma runSession_app (actions more : list Action) (w : World) :
  runSession (actions ++ more) w = runSession more (runSession actions w).
Proof. unfold runSession. apply foldl_app. Qed.

(** ** The vocabulary of the monitor *)

Ltac in_list := repeat first [apply list_elem_of_here | apply list_elem_of_further].

Lemma vocabulary_severity (type sev : string) :
  (type, sev) ∈ vocabulary → getViolationSeverity type = sev.
Proof.
  unfold vocabulary. simpl. intros H.
  repeat (apply elem_of_cons in H as [H|H]; [by simplify_eq|]).
  by apply elem_of_nil in H.
Qed.

Lemma isBlocked_blockable (event : KeyboardEvent) :
  isBlocked event = true → key event ∈ blockableKeys.
Proof.
  unfold isBlocked, blockedCombos, blockedKeys, blockableKeys. simpl.
  rewrite !orb_true_iff, !andb_true_iff, !String.eqb_eq.
  intros H. decompose [and or] H; try discriminate;
    match goal with Heq : key event = _ |- _ => rewrite Heq end; in_list.
Qed.

Lemma blockable_vocabulary (k : string) :
  k ∈ blockableKeys → ("Blocked key pressed: " +:+ k, "low") ∈ vocabulary.
Proof.
  intros H. unfold vocabulary. apply elem_of_app. right.
  apply list_elem_of_fmap. by exists k.
Qed.

Lemma listenerRecords_vocabulary (now : string) (l : Listener) (e : DomEvent) (type : string) :
  listenerRecords l e = Some type → monitorViolation (violationOf now type).
Proof.
  unfold monitorViolation, violationOf. simpl.
  destruct l, e as [[]| |[]|event| |]; simpl; try discriminate;
    try (intros [= <-]; vm_compute; in_list).
  destruct (isBlocked event) eqn:Hblocked; [|discriminate]. intros [= <-].
  pose proof (blockable_vocabulary _ (isBlocked_blockable _ Hblocked)) as Hin.
  by rewrite (vocabulary_severity _ _ Hin).
Qed.

(** ** The log along a step *)

Lemma log_with_this (f : TestMonitor → TestMonitor) (w : World) :
  violations (f (this w)) = violations (this w) → log (with_this f w) = log w.
Proof. intros H. unfold log. simpl. by rewrite H. Qed.

(** Every step appends violations of the vocabulary to the log, or, for
    [startMonitoring], to an empty log; no step but [startMonitoring]
    changes which array is the log. *)
Lemma perform_log (a : Action) (w : World) :
  ∃ appended,
    log (perform a w) = (if isStart a then [] else log w) ++ appended ∧
    Forall monitorViolation appended ∧
    (isStart a = false → violations (this (perform a w)) = violations (this w)).
Proof.
  rewrite perform_eq. destruct a as [g|s| |now e|s|s| |]; simpl.
  - exists []. rewrite app_nil_r.
    unfold initializedFrom, listenersAdded, cameraReady, log.
    repeat case_match; by repeat split.
  - unfold startedWorld. destruct (samplesAtStart w).
    + rewrite log_brightnessAnalyzed, log_resetWorld. eexists. split; [done|].
      split; [|done]. case_match; [|done]. apply Forall_singleton. vm_compute. in_list.
    + rewrite log_resetWorld. by exists [].
  - exists []. by rewrite app_nil_r.
  - destruct (isActive (this w)).
    + rewrite log_recordedAll, this_recordedAll. eexists. split; [done|]. split; [|done].
      apply Forall_fmap, Forall_forall. intros type Htype.
      apply list_elem_of_omap in Htype as (l & _ & Hl).
      by apply (listenerRecords_vocabulary now l e).
    + exists []. by rewrite app_nil_r.
  - unfold sampledWorld. case_match.
    + rewrite log_brightnessAnalyzed. eexists. split; [done|]. split.
      * case_match; [|done]. apply Forall_singleton. vm_compute. in_list.
      * intros _. unfold brightnessAnalyzed. by case_match.
    + exists []. by rewrite app_nil_r.
  - unfold detectedWorld. destruct (detection s) as [[|face rest]|error].
    + rewrite log_facesAnalyzed_none. eexists. split; [done|]. split; [|done].
      apply Forall_singleton. vm_compute. in_list.
    + rewrite log_facesAnalyzed_face. eexists. split; [done|]. split.
      * case_match; [|done]. apply Forall_singleton. vm_compute. in_list.
      * intros _. unfold facesAnalyzed. by case_match.
    + exists []. by rewrite app_nil_r.
  - exists []. by rewrite app_nil_r.
  - exists []. by rewrite app_nil_r.
Qed.

(** ** The monitor along a step *)

Lemma this_brightnessAnalyzed (now : string) (pixels : list byte) (w : World) :
  this (brightnessAnalyzed now pixels w) =
  set_lastBrightness (Some (meanBrightness pixels)) (this w).
Proof. unfold brightnessAnalyzed. by case_match. Qed.

Lemma this_facesAnalyzed (now : string) (faces : list DetectedFace) (w : World) :
  this (facesAnalyzed now faces w) =
  match faces with
  | [] => this w
  | face :: _ => set_lastFacePosition (Some (center (boundingBox face))) (this w)
  end.
Proof. unfold facesAnalyzed. destruct faces; [done|]. by case_match. Qed.

Lemma this_sampledWorld (s : Sample) (w : World) :
  this (sampledWorld s w) = this w ∨
  this (sampledWorld s w) =
    set_lastBrightness (Some (meanBrightness (imageData s))) (this w).
Proof.
  unfold sampledWorld. case_match; [right; apply this_brightnessAnalyzed | by left].
Qed.

Lemma browser_recordedAll (now : string) (types : list string) (w : World) :
  browser (recordedAll now types w) = browser w.
Proof.
  revert w. induction types as [|type types IH]; intros w; [done|]. simpl. by rewrite IH.
Qed.

Lemma listeners_recordedAll (now : string) (types : list string) (w : World) :
  listeners (recordedAll now types w) = listeners w.
Proof.
  revert w. induction types as [|type types IH]; intros w; [done|]. simpl. by rewrite IH.
Qed.

(** No step changes the options, the threshold or the browser. *)
Lemma perform_config (a : Action) (w : World) :
  options (this (perform a w)) = options (this w) ∧
  alertThreshold (this (perform a w)) = alertThreshold (this w) ∧
  browser (perform a w) = browser w.
Proof.
  rewrite perform_eq. destruct a as [g|s| |now e|s|s| |]; simpl; try done.
  - unfold initializedFrom, listenersAdded, cameraReady. repeat case_match; done.
  - unfold startedWorld. case_match; [|done].
    rewrite this_brightnessAnalyzed. unfold brightnessAnalyzed. by case_match.
  - case_match; [|done]. by rewrite this_recordedAll, browser_recordedAll.
  - unfold sampledWorld. case_match; [|done].
    rewrite this_brightnessAnalyzed. unfold brightnessAnalyzed. by case_match.
  - unfold detectedWorld. destruct (detection s) as [faces|error]; [|done].
    rewrite this_facesAnalyzed. unfold facesAnalyzed.
    destruct faces; [done|]. by case_match.
Qed.

(** Only [startMonitoring] and [stopMonitoring] write [isActive]. *)
Lemma perform_isActive (a : Action) (w : World) :
  isActive (this (perform a w)) =
  match a with
  | actStart _ => true
  | actStop => false
  | _ => isActive (this w)
  end.
Proof.
  rewrite perform_eq. destruct a as [g|s| |now e|s|s| |]; simpl; try done.
  - unfold initializedFrom, listenersAdded, cameraReady. repeat case_match; done.
  - unfold startedWorld. case_match; [|done]. by rewrite this_brightnessAnalyzed.
  - case_match; [|done]. by rewrite this_recordedAll.
  - by destruct (this_sampledWorld s w) as [-> | ->].
  - unfold detectedWorld. destruct (detection s) as [faces|error]; [|done].
    rewrite this_facesAnalyzed. by destruct faces.
Qed.

(** Only [initialize] and [stopMonitoring] write the capture fields, and
    only [initialize] registers listeners. *)
Lemma perform_capture (a : Action) (w : World) :
  isInitialize a = false →
  listeners (perform a w) = listeners w ∧
  match a with
  | actStop => this (perform a w) = this (stopped w)
  | _ => sameCapture (this w) (this (perform a w))
  end.
Proof.
  intros Ha. rewrite perform_eq.
  destruct a as [g|s| |now e|s|s| |]; simpl; try done.
  - unfold startedWorld. case_match; [|done].
    rewrite this_brightnessAnalyzed. unfold brightnessAnalyzed. by case_match.
  - case_match; [|done]. by rewrite this_recordedAll, listeners_recordedAll.
  - unfold sampledWorld. case_match; [|done].
    rewrite this_brightnessAnalyzed. unfold brightnessAnalyzed. by case_match.
  - unfold detectedWorld. destruct (detection s) as [faces|error]; [|done].
    rewrite this_facesAnalyzed. unfold facesAnalyzed.
    destruct faces; [done|]. by case_match.
Qed.

(** ** The store of arrays along a step *)

Lemma heapStep_refl (w : World) : heapStep w w.
Proof. by repeat split. Qed.

Lemma heapStep_trans (w1 w2 w3 : World) :
  heapStep w1 w2 → heapStep w2 w3 → heapStep w1 w3.
Proof.
  intros (Hdom12 & Hlog12 & H12) (Hdom23 & Hlog23 & H23).
  split; [intros r Hr; by apply Hdom23, Hdom12|].
  split; [auto|]. intros r Hr Hne.
  destruct (H12 r Hr Hne) as [Heq12 Hne2].
  destruct (H23 r (Hdom12 r Hr) Hne2) as [Heq23 Hne3].
  split; [congruence|done].
Qed.

Lemma heapStep_with_this (f : TestMonitor → TestMonitor) (w : World) :
  violations (f (this w)) = violations (this w) → heapStep w (with_this f w).
Proof. intros Hf. unfold heapStep. simpl. rewrite Hf. by repeat split. Qed.

Lemma heapStep_recorded (now type : string) (w : World) :
  heapStep w (recorded now type w).
Proof.
  unfold heapStep, recorded, push. simpl. split; [|split].
  - rewrite dom_insert. set_solver.
  - intros _. rewrite dom_insert. set_solver.
  - intros r Hr Hne. by rewrite lookup_insert_ne.
Qed.

Lemma heapStep_recordedAll (now : string) (types : list string) (w : World) :
  heapStep w (recordedAll now types w).
Proof.
  revert w. induction types as [|type types IH]; intros w; [apply heapStep_refl|].
  simpl. eapply heapStep_trans; [apply heapStep_recorded|apply IH].
Qed.

Lemma heapStep_resetWorld (w : World) : heapStep w (resetWorld w).
Proof.
  unfold heapStep, resetWorld. simpl. split; [|split].
  - rewrite dom_insert. set_solver.
  - intros _. rewrite dom_insert. set_solver.
  - intros r Hr Hne.
    assert (r ≠ fresh (dom (arrays w))) by (intros ->; by apply is_fresh in Hr).
    by rewrite lookup_insert_ne.
Qed.

Lemma heapStep_brightnessAnalyzed (now : string) (pixels : list byte) (w : World) :
  heapStep w (brightnessAnalyzed now pixels w).
Proof.
  unfold brightnessAnalyzed. case_match.
  - eapply heapStep_trans; [apply heapStep_recorded|by apply heapStep_with_this].
  - by apply heapStep_with_this.
Qed.

Lemma heapStep_facesAnalyzed (now : string) (faces : list DetectedFace) (w : World) :
  heapStep w (facesAnalyzed now faces w).
Proof.
  unfold facesAnalyzed. destruct faces as [|face rest]; [apply heapStep_recorded|].
  case_match.
  - eapply heapStep_trans; [apply heapStep_recorded|by apply heapStep_with_this].
  - by apply heapStep_with_this.
Qed.

Lemma perform_heapStep (a : Action) (w : World) : heapStep w (perform a w).
Proof.
  rewrite perform_eq. destruct a as [g|s| |now e|s|s| |]; simpl;
    try apply heapStep_refl.
  - unfold initializedFrom, listenersAdded, cameraReady, heapStep.
    repeat case_match; by repeat split.
  - unfold startedWorld.
    assert (Hreset : heapStep w (resetWorld (with_this (set_isActive true) w))).
    { eapply heapStep_trans; [|apply heapStep_resetWorld]. by apply heapStep_with_this. }
    case_match; [|done].
    eapply heapStep_trans; [exact Hreset|apply heapStep_brightnessAnalyzed].
  - by apply heapStep_with_this.
  - case_match; [apply heapStep_recordedAll|apply heapStep_refl].
  - unfold sampledWorld. case_match; [apply heapStep_brightnessAnalyzed|apply heapStep_refl].
  - unfold detectedWorld. destruct (detection s);
      [apply heapStep_facesAnalyzed|apply heapStep_refl].
Qed.

Lemma runSession_heapStep (actions : list Action) (w : World) :
  heapStep w (runSession actions w).
Proof.
  revert w. induction actions as [|a actions IH]; intros w; [apply heapStep_refl|].
  simpl. eapply heapStep_trans; [apply perform_heapStep|apply IH].
Qed.

(** ** Sessions: what no step changes *)

(** X1: along any session the options, the alert threshold and the
    browser capabilities stay as they were; for a monitor made by the
    constructor the threshold is 3 for good. *)
Theorem session_configuration_fixed :
  (∀ (actions : list Action) (w : World),
     options (this (runSession actions w)) = options (this w) ∧
     alertThreshold (this (runSession actions w)) = alertThreshold (this w) ∧
     browser (runSession actions w) = browser w) ∧
  (∀ (actions : list Action) (opts : Options) (b : Browser),
     alertThreshold (this (runSession actions (construct opts b))) = 3 ∧
     options (this (runSession actions (construct opts b))) = opts).
Proof.
  assert (Hall : ∀ (actions : list Action) (w : World),
     options (this (runSession actions w)) = options (this w) ∧
     alertThreshold (this (runSession actions w)) = alertThreshold (this w) ∧
     browser (runSession actions w) = browser w).
  { induction actions as [|a actions IH]; intros w; [done|]. simpl.
    destruct (IH (perform a w)) as (-> & -> & ->). apply perform_config. }
  split; [exact Hall|]. intros actions opts b.
  destruct (Hall actions (construct opts b)) as (-> & -> & _). done.
Qed.

(** X2: the monitor is active exactly when the last [startMonitoring] or
    [stopMonitoring] of the session was a [startMonitoring]; no event,
    timer, resumed analysis, [initialize] or summary changes that. *)
Theorem session_isActive (actions : list Action) (w : World) :
  isActive (this (runSession actions w)) = activeAfter (isActive (this w)) actions.
Proof.
  revert w. induction actions as [|a actions IH]; intros w; [done|].
  simpl. rewrite IH, perform_isActive. unfold activeAfter. simpl. by destruct a.
Qed.

(** ** Sessions: what the log and the summary can hold *)

Lemma perform_vocabulary (a : Action) (w : World) :
  Forall monitorViolation (log w) → Forall monitorViolation (log (perform a w)).
Proof.
  intros Hlog. destruct (perform_log a w) as (appended & -> & Happended & _).
  apply Forall_app. split; [by destruct (isStart a)|done].
Qed.

Lemma runSession_vocabulary (actions : list Action) (w : World) :
  Forall monitorViolation (log w) → Forall monitorViolation (log (runSession actions w)).
Proof.
  revert w. induction actions as [|a actions IH]; intros w Hlog; [done|].
  simpl. by apply IH, perform_vocabulary.
Qed.

Lemma countBy_lookup_exact (keyOf : Violation → string) (l : list Violation) (k : string) :
  plainKeys keyOf l →
  countBy keyOf l !! k =
  if decide (length (filter (λ v, keyOf v = k) l) = 0)
  then None
  else Some (numberValue (length (filter (λ v, keyOf v = k) l))).
Proof.
  intros Hplain. rewrite countBy_plain, lookup_fmap, tally_lookup, lookup_empty by done.
  by case_decide.
Qed.

(** Whatever the keys, an object gets a property only for a key that is
    counted. *)
Lemma increment_lookup (acc : gmap string Value) (k k' : string) :
  is_Some (increment acc k' !! k) → is_Some (acc !! k) ∨ k = k'.
Proof.
  destruct (decide (k = k')) as [->|Hne]; [by right|]. left. revert H.
  unfold increment. repeat case_match; by rewrite ?lookup_insert_ne.
Qed.

Lemma countBy_key (keyOf : Violation → string) (l : list Violation) (k : string) :
  is_Some (countBy keyOf l !! k) → ∃ v, v ∈ l ∧ keyOf v = k.
Proof.
  unfold countBy.
  enough (H : ∀ acc,
    is_Some (foldl (λ acc violation, increment acc (keyOf violation)) acc l !! k) →
    is_Some (acc !! k) ∨ ∃ v, v ∈ l ∧ keyOf v = k).
  { intros Hk. destruct (H _ Hk) as [Hempty|Hv]; [|done].
    rewrite lookup_empty in Hempty. by destruct Hempty. }
  induction l as [|v l IH]; intros acc Hk; [by left|].
  simpl in Hk. destruct (IH _ Hk) as [Hacc|(v' & Hv' & Hkey)].
  - apply increment_lookup in Hacc as [Hacc| ->]; [by left|].
    right. exists v. split; [left|done].
  - right. exists v'. split; [by right|done].
Qed.

Lemma vocabulary_severities (type sev : string) :
  (type, sev) ∈ vocabulary → sev ∈ ["high"; "medium"; "low"].
Proof.
  unfold vocabulary. simpl. intros H.
  repeat (apply elem_of_cons in H as [H|H]; [simplify_eq; in_list|]).
  by apply elem_of_nil in H.
Qed.

(** X3: whatever the session of a monitor made by the constructor, every
    violation in its log has one of the fifteen types that the code
    records, with the severity the classifier gives that type.  So the
    keys of [byType] in the summary are among those types, and the keys of
    [bySeverity] are among "high", "medium" and "low". *)
Theorem session_log_vocabulary (actions : list Action) (opts : Options) (b : Browser) :
  let w := runSession actions (construct opts b) in
  length vocabulary = 15 ∧
  (∀ v, v ∈ log w →
        (type v, severity v) ∈ vocabulary ∧ severity v = getViolationSeverity (type v)) ∧
  (∀ k, is_Some (countBy type (log w) !! k) → k ∈ vocabulary.*1) ∧
  (∀ k, is_Some (countBy severity (log w) !! k) → k ∈ ["high"; "medium"; "low"]).
Proof.
  intros w.
  assert (Hlog : Forall monitorViolation (log w)).
  { apply runSession_vocabulary. unfold log, contents. simpl.
    rewrite lookup_singleton_eq. constructor. }
  rewrite Forall_forall in Hlog. split; [done|]. split; [|split].
  - intros v Hv. split; [by apply Hlog|].
    symmetry. apply vocabulary_severity. by apply Hlog.
  - intros k Hk. apply countBy_key in Hk as (v & Hv & <-).
    apply list_elem_of_fmap. exists (type v, severity v). split; [done|by apply Hlog].
  - intros k Hk. apply countBy_key in Hk as (v & Hv & <-).
    eapply vocabulary_severities. by apply Hlog.
Qed.

Lemma vocabulary_plain (type sev : string) :
  (type, sev) ∈ vocabulary → objectPrototype type = None ∧ objectPrototype sev = None.
Proof.
  unfold vocabulary. simpl. intros H.
  repeat (apply elem_of_cons in H as [H|H]; [by simplify_eq|]).
  by apply elem_of_nil in H.
Qed.

Lemma session_plainKeys (actions : list Action) (opts : Options) (b : Browser) :
  plainKeys type (log (runSession actions (construct opts b))) ∧
  plainKeys severity (log (runSession actions (construct opts b))).
Proof.
  assert (Hlog : Forall monitorViolation (log (runSession actions (construct opts b)))).
  { apply runSession_vocabulary. unfold log, contents. simpl.
    rewrite lookup_singleton_eq. constructor. }
  unfold plainKeys. split; eapply Forall_impl; try exact Hlog;
    intros v Hv; by apply vocabulary_plain in Hv as [? ?].
Qed.

(** X4: when no type and no severity in the log names a property that
    objects inherit from [Object.prototype], the property of [byType]
    (of [bySeverity]) for a type (a severity) is the number of violations
    of the log that have it, and a type (a severity) that does not occur
    has no property.  That is so in every session of a monitor made by the
    constructor. *)
Theorem getViolationSummary_counts :
  (∀ w : World,
     plainKeys type (log w) → plainKeys severity (log w) →
     ∃ summary,
       getViolationSummary w = (normal summary, w, []) ∧
       (∀ k, Summary.byType summary !! k =
             if decide (length (filter (λ v, type v = k) (log w)) = 0)
             then None
             else Some (numberValue (length (filter (λ v, type v = k) (log w))))) ∧
       (∀ k, Summary.bySeverity summary !! k =
             if decide (length (filter (λ v, severity v = k) (log w)) = 0)
             then None
             else Some (numberValue (length (filter (λ v, severity v = k) (log w)))))) ∧
  (∀ (actions : list Action) (opts : Options) (b : Browser) (k : string),
     let l := log (runSession actions (construct opts b)) in
     countBy type l !! k =
       (if decide (length (filter (λ v, type v = k) l) = 0)
        then None
        else Some (numberValue (length (filter (λ v, type v = k) l)))) ∧
     countBy severity l !! k =
       (if decide (length (filter (λ v, severity v = k) l) = 0)
        then None
        else Some (numberValue (length (filter (λ v, severity v = k) l))))).
Proof.
  split.
  - intros w Htype Hseverity. eexists. split; [reflexivity|]. simpl.
    split; intros k; by apply countBy_lookup_exact.
  - intros actions opts b k l.
    destruct (session_plainKeys actions opts b) as [Htype Hseverity].
    split; by apply countBy_lookup_exact.
Qed.

(** The witness: of the two violations of the log, one is a loss of
    focus. *)
Lemma getViolationSummary_counts_witness :
  ∃ summary,
    getViolationSummary afterTwoViolations = (normal summary, afterTwoViolations, []) ∧
    Summary.byType summary !! "Window lost focus" = Some (numberValue 1) ∧
    Summary.byType summary !! "Right-click attempted" = None ∧
    Summary.bySeverity summary !! "high" = Some (numberValue 2).
Proof.
  assert (Hplain : plainKeys type (log afterTwoViolations) ∧
                   plainKeys severity (log afterTwoViolations)).
  { unfold plainKeys. split; vm_compute; repeat constructor. }
  destruct (proj1 getViolationSummary_counts afterTwoViolations (proj1 Hplain) (proj2 Hplain))
    as (summary & Hrun & Htype & Hseverity).
  exists summary. split; [exact Hrun|].
  rewrite !Htype, Hseverity. by vm_compute.
Defined.

(** ** Sessions: the log array *)

(** X5: in a session without [startMonitoring] the log is only appended
    to: it stays the same array, and the log before the session is a
    prefix of the log after it. *)
Theorem session_append_only (actions : list Action) (w : World) :
  forallb (λ a, negb (isStart a)) actions = true →
  violations (this (runSession actions w)) = violations (this w) ∧
  log w `prefix_of` log (runSession actions w).
Proof.
  revert w. induction actions as [|a actions IH]; intros w Hnostart; [done|].
  simpl in Hnostart. apply andb_true_iff in Hnostart as [Ha Hrest].
  apply negb_true_iff in Ha. simpl.
  destruct (IH (perform a w) Hrest) as [-> Hprefix].
  destruct (perform_log a w) as (appended & Hlog & _ & Hsame).
  rewrite Ha in Hlog. split; [by apply Hsame|].
  etrans; [|exact Hprefix]. rewrite Hlog. by apply prefix_app_r.
Qed.

Lemma session_append_only_witness :
  let actions := [actDeliver "t3" blur; actStop; actDeliver "t4" blur; actSummary] in
  violations (this (runSession actions afterTwoViolations)) =
    violations (this afterTwoViolations) ∧
  log afterTwoViolations `prefix_of` log (runSession actions afterTwoViolations).
Proof.
  apply (session_append_only
           [actDeliver "t3" blur; actStop; actDeliver "t4" blur; actSummary]
           afterTwoViolations).
  reflexivity.
Defined.

Lemma startedWorld_keeps_old_array (s : Sample) (w : World) :
  violations (this w) ∈ dom (arrays w) →
  contents (arrays (startedWorld s w)) (violations (this w)) = log w ∧
  violations (this w) ∈ dom (arrays (startedWorld s w)) ∧
  violations (this w) ≠ violations (this (startedWorld s w)).
Proof.
  intros Hdom. set (w0 := with_this (set_isActive true) w).
  assert (Hfresh : violations (this w) ≠ fresh (dom (arrays w)))
    by (intros Heq; rewrite Heq in Hdom; by apply is_fresh in Hdom).
  assert (Hreset : contents (arrays (resetWorld w0)) (violations (this w)) = log w ∧
                   violations (this w) ∈ dom (arrays (resetWorld w0)) ∧
                   violations (this w) ≠ violations (this (resetWorld w0))).
  { unfold resetWorld, contents, log, contents. simpl.
    rewrite lookup_insert_ne by done. rewrite dom_insert. set_solver. }
  unfold startedWorld. fold w0. case_match; [|done].
  destruct Hreset as (Hcontents & Hin & Hne).
  destruct (heapStep_brightnessAnalyzed (sampledAt s) (imageData s) (resetWorld w0))
    as (Hsub & _ & Hframe).
  destruct (Hframe _ Hin Hne) as [Heq Hne'].
  split; [|split; [by apply Hsub|done]].
  unfold contents in *. by rewrite Heq.
Qed.

(** X6: the array that was the log when [startMonitoring] is called is
    never written again, whatever follows: whoever holds it (from a
    summary, a callback or an event) keeps reading the log of the session
    that ended.  The log array of a monitor made by the constructor is
    always allocated, so this applies to each of its sessions. *)
Theorem session_earlier_log_frozen :
  (∀ (s : Sample) (actions : list Action) (w : World),
     violations (this w) ∈ dom (arrays w) →
     contents (arrays (runSession (actStart s :: actions) w)) (violations (this w)) = log w ∧
     violations (this (runSession (actStart s :: actions) w)) ≠ violations (this w)) ∧
  (∀ (actions : list Action) (opts : Options) (b : Browser),
     violations (this (runSession actions (construct opts b)))
       ∈ dom (arrays (runSession actions (construct opts b)))).
Proof.
  split.
  - intros s actions w Hdom.
    change (runSession (actStart s :: actions) w)
      with (runSession actions (perform (actStart s) w)).
    rewrite (perform_eq (actStart s)).
    destruct (startedWorld_keeps_old_array s w Hdom) as (Hcontents & Hin & Hne).
    destruct (runSession_heapStep actions (startedWorld s w)) as (_ & _ & Hframe).
    destruct (Hframe _ Hin Hne) as [Heq Hne'].
    split; [|done]. unfold contents in *. by rewrite Heq.
  - intros actions opts b.
    destruct (runSession_heapStep actions (construct opts b)) as (_ & Hlog & _).
    apply Hlog. simpl. rewrite dom_singleton. set_solver.
Qed.

Lemma session_earlier_log_frozen_witness :
  contents
    (arrays (runSession [actStart (mkSample [] (detected []) "t5");
                         actDeliver "t6" blur; actDeliver "t7" contextmenu]
               afterTwoViolations))
    (violations (this afterTwoViolations)) = log afterTwoViolations ∧
  violations (this (runSession [actStart (mkSample [] (detected []) "t5");
                                actDeliver "t6" blur; actDeliver "t7" contextmenu]
                      afterTwoViolations)) ≠ violations (this afterTwoViolations).
Proof.
  apply (proj1 session_earlier_log_frozen (mkSample [] (detected []) "t5")
           [actDeliver "t6" blur; actDeliver "t7" contextmenu] afterTwoViolations).
  vm_compute. set_solver.
Defined.

(** ** Sessions: the capture resource *)

Lemma perform_released (a : Action) (w : World) :
  isInitialize a = false →
  listeners (perform a w) = listeners w ∧
  faceDetectionModel (this (perform a w)) = faceDetectionModel (this w) ∧
  (is_Some (stream (this (perform a w))) ↔ is_Some (stream (this w))) ∧
  (is_Some (video (this (perform a w))) ↔ is_Some (video (this w))) ∧
  (released (this w) → released (this (perform a w))).
Proof.
  intros Ha. destruct (perform_capture a w Ha) as [Hlisteners Hcapture].
  split; [done|]. destruct a; try discriminate;
    try (destruct Hcapture as (Hstream & Hvideo & _ & Hmodel);
         unfold released; rewrite Hstream, Hvideo, Hmodel; done).
  rewrite Hcapture. split; [done|]. split; [|split].
  - simpl. destruct (stream (this w)); split; intros [? ?]; eauto; discriminate.
  - simpl. destruct (video (this w)); split; intros [? ?]; eauto; discriminate.
  - intros _. apply stopped_released.
Qed.

(** X7: only [initialize] acquires the capture and registers listeners.
    In a session without [initialize] the listeners and the detection
    path stay as they are, a stream or a video element neither appears nor
    disappears, and a released capture stays released: [startMonitoring]
    after [stopMonitoring] samples tracks that have ended. *)
Theorem session_capture_only_by_initialize (actions : list Action) (w : World) :
  forallb (λ a, negb (isInitialize a)) actions = true →
  listeners (runSession actions w) = listeners w ∧
  faceDetectionModel (this (runSession actions w)) = faceDetectionModel (this w) ∧
  (is_Some (stream (this (runSession actions w))) ↔ is_Some (stream (this w))) ∧
  (is_Some (video (this (runSession actions w))) ↔ is_Some (video (this w))) ∧
  (released (this w) → released (this (runSession actions w))).
Proof.
  revert w. induction actions as [|a actions IH]; intros w Hnoinit; [done|].
  simpl in Hnoinit. apply andb_true_iff in Hnoinit as [Ha Hrest].
  apply negb_true_iff in Ha. simpl.
  destruct (IH (perform a w) Hrest) as (-> & -> & Hstream & Hvideo & Hreleased).
  destruct (perform_released a w Ha) as (-> & -> & Hstream1 & Hvideo1 & Hstep).
  split; [done|]. split; [done|]. split; [by etrans|]. split; [by etrans|]. auto.
Qed.

(** After a stop and a restart the monitor is active, its sampler draws
    frames, and its only track is still ended. *)
Lemma session_capture_only_by_initialize_witness :
  let actions := [actStart (uniformFrame x64 "t3"); actTimer (uniformFrame x64 "t4")] in
  let w := runSession [actInitialize (normal [mkTrack live]);
                       actStart (uniformFrame x64 "t1"); actStop]
             (construct defaultOptions withoutFaceDetector) in
  listeners (runSession actions w) = listeners w ∧
  faceDetectionModel (this (runSession actions w)) = faceDetectionModel (this w) ∧
  (is_Some (stream (this (runSession actions w))) ↔ is_Some (stream (this w))) ∧
  (is_Some (video (this (runSession actions w))) ↔ is_Some (video (this w))) ∧
  (released (this w) → released (this (runSession actions w))).
Proof.
  apply (session_capture_only_by_initialize
           [actStart (uniformFrame x64 "t3"); actTimer (uniformFrame x64 "t4")]).
  reflexivity.
Defined.

Example restarted_samples_ended_tracks :
  isActive (this restarted) = true ∧
  stream (this restarted) = Some [mkTrack ended] ∧
  video (this restarted) = Some (mkVideo false) ∧
  (startCameraAnalysis (uniformFrame x64 "t3") restarted).2 = [drawImage].
Proof. repeat split; vm_compute; reflexivity. Qed.

(** ** Signal listeners while the monitor is active *)

(** X8: while the monitor is active, an event is handled by every
    registered listener in registration order and each one records by
    itself: the log grows by one violation, stamped with the instant of the
    event, for each listener that records this event, so a listener
    registered twice records twice.  The default action is prevented once
    per listener that prevents it; the fields of the monitor stay as they
    are and no timer is set. *)
Theorem deliver_active_records (now : string) (e : DomEvent) (w : World) :
  isActive (this w) = true →
  ∃ w' effects,
    deliver now e w = (normal tt, w', effects) ∧
    log w' = log w ++ (violationOf now <$> omap (λ l, listenerRecords l e) (listeners w)) ∧
    this w' = this w ∧
    listeners w' = listeners w ∧
    length (filter (λ x, isPreventDefault x = true) effects) =
      length (filter (λ l, listenerPrevents l e = true) (listeners w)) ∧
    filter (λ x, isSetTimeout x = true) effects = [].
Proof.
  intros Hactive. destruct (deliver_run now e w) as (effects & Hrun & Hprevent & Htimer).
  rewrite Hactive in Hrun, Hprevent. eexists _, effects. split; [exact Hrun|].
  by rewrite log_recordedAll, this_recordedAll, listeners_recordedAll.
Qed.

(** After two calls of [initialize], one loss of focus is recorded
    twice. *)
Lemma deliver_active_records_witness :
  ∃ w' effects,
    deliver "t1" blur initializedTwice = (normal tt, w', effects) ∧
    log w' = log initializedTwice ++
             (violationOf "t1" <$> omap (λ l, listenerRecords l blur)
                                     (listeners initializedTwice)) ∧
    this w' = this initializedTwice ∧
    listeners w' = listeners initializedTwice ∧
    length (filter (λ x, isPreventDefault x = true) effects) =
      length (filter (λ l, listenerPrevents l blur = true) (listeners initializedTwice)) ∧
    filter (λ x, isSetTimeout x = true) effects = [].
Proof.
  apply (deliver_active_records "t1" blur initializedTwice). reflexivity.
Defined.

Example deliver_twice_registered :
  log (perform (actDeliver "t1" blur) initializedTwice) =
  [mkViolation "Window lost focus" "t1" "high"; mkViolation "Window lost focus" "t1" "high"].
Proof. vm_compute. reflexivity. Qed.

(** ** Lifecycle controller: the outcome of [initialize] *)

Lemma enabledListeners_always (o : Options) (ls : list Listener) :
  contextmenuListener ∈ ls ++ enabledListeners o ∧
  selectstartListener ∈ ls ++ enabledListeners o.
Proof.
  unfold enabledListeners.
  split; apply elem_of_app; right; repeat (apply elem_of_app; right); in_list.
Qed.

(** X9: [initialize] never raises.  It returns [true] exactly when camera
    monitoring is disabled, or the capture was acquired and the detector,
    where the browser has one, could be constructed.  Then it appends the
    enabled listeners, the context-menu and selection listeners among them
    whatever the options, to those already registered (a second call
    registers them again); otherwise it registers none and reports the
    error once, to the console and to [onCameraError].  With camera
    monitoring disabled it leaves the monitor as it was.  With the capture
    acquired it owns the stream and a video element in the document, also
    when it returns [false] because the detector could not be constructed,
    and it has a detector exactly when the browser offers one that could be
    constructed.  With the capture refused it changes nothing.  [isActive]
    and the log stay as they are. *)
Theorem initialize_outcome (getUserMedia : Completion MediaStream) (w : World) :
  ∃ ok w' effects,
    initialize getUserMedia w = (normal ok, w', effects) ∧
    (ok = true ↔
       enableCameraMonitoring (options (this w)) = false ∨
       (∃ mediaStream, getUserMedia = normal mediaStream) ∧
       (hasFaceDetector (browser w) = true → faceDetectorError (browser w) = None)) ∧
    isActive (this w') = isActive (this w) ∧
    log w' = log w ∧
    (ok = true →
       listeners w' = listeners w ++ enabledListeners (options (this w)) ∧
       contextmenuListener ∈ listeners w' ∧ selectstartListener ∈ listeners w' ∧
       filter (λ e, isCameraError e = true) effects = []) ∧
    (ok = false →
       listeners w' = listeners w ∧
       ∃ error,
         effects = [console_error "Failed to initialize test monitor:" error;
                    onCameraError error] ∧
         match getUserMedia with
         | normal _ => faceDetectorError (browser w) = Some error
         | throw refused => error = "Camera access denied: " +:+ refused
         end) ∧
    (enableCameraMonitoring (options (this w)) = false → this w' = this w) ∧
    (∀ mediaStream,
       enableCameraMonitoring (options (this w)) = true →
       getUserMedia = normal mediaStream →
       stream (this w') = Some mediaStream ∧
       video (this w') = Some (mkVideo true) ∧
       faceDetectionModel (this w') =
         if hasFaceDetector (browser w)
         then match faceDetectorError (browser w) with
              | None => Some (mkFaceDetector true 1)
              | Some _ => faceDetectionModel (this w)
              end
         else faceDetectionModel (this w)) ∧
    (∀ refused,
       enableCameraMonitoring (options (this w)) = true →
       getUserMedia = throw refused → w' = w).
Proof.
  pose proof (enabledListeners_always (options (this w)) (listeners w)) as [Hmenu Hselect].
  destruct (enableCameraMonitoring (options (this w))) eqn:Hcam.
  - destruct getUserMedia as [mediaStream|refused].
    + unfold initialize, setupCamera, loadFaceDetection, newFaceDetector. run.
      rewrite Hcam. simpl.
      destruct (hasFaceDetector (browser w)) eqn:Hdetector; simpl;
        [destruct (faceDetectorError (browser w)) as [error|] eqn:Herror; simpl|];
        rewrite ?setupEventListeners_run; simpl; eexists _, _, _; (split; [done|]).
      all: split_and!; try done.
      all: try (by intros ms _ [= <-]; rewrite ?Hdetector, ?Herror).
      all: try (by split; [done|intros [?|[_ Hnone]]; [done|by specialize (Hnone eq_refl)]]).
      all: try (by split; [intros _; right; split; [by eexists|done]|done]).
      all: try (by intros _; split_and!; try done; eexists).
    + unfold initialize. run. rewrite Hcam, setupCamera_rejected. simpl.
      eexists _, _, _. split_and!; try done.
      all: try (by split; [done|intros [?|[[? ?] _]]]).
      all: try (by intros _; split; [done|eexists]).
      all: try (by intros ? ? [= <-]).
  - rewrite initialize_without_camera by done. eexists _, _, _. split_and!; try done.
    all: try (by split; [left|]).
Qed.

(** The witness: the capture is acquired and the constructor of the
    detector throws.  [initialize] returns [false] and has reported the
    error, the monitor holds the live stream and the video, and no
    listener is registered. *)
Lemma initialize_outcome_witness :
  ∃ w',
    initialize (normal [mkTrack live]) (construct defaultOptions withBrokenFaceDetector) =
      (normal false, w',
       [console_error "Failed to initialize test monitor:"
          "Face detection service unavailable";
        onCameraError "Face detection service unavailable"]) ∧
    stream (this w') = Some [mkTrack live] ∧
    video (this w') = Some (mkVideo true) ∧
    faceDetectionModel (this w') = None ∧
    listeners w' = [].
Proof.
  destruct (initialize_outcome (normal [mkTrack live])
              (construct defaultOptions withBrokenFaceDetector))
    as (ok & w' & effects & Hrun & Hok & _ & _ & _ & Hfailed & _ & Hcamera & _).
  destruct ok.
  - apply proj1 in Hok. destruct (Hok eq_refl) as [Hdisabled|[_ Herror]]; [done|].
    by specialize (Herror eq_refl).
  - destruct (Hfailed eq_refl) as (Hlisteners & error & -> & Herror).
    injection Herror as <-.
    destruct (Hcamera [mkTrack live] eq_refl eq_refl) as (Hstream & Hvideo & Hmodel).
    exists w'. by split_and!.
Defined.

(** ** Lifecycle controller: what [startMonitoring] starts *)

Lemma recordingEffects_kinds (now type : string) (w : World) :
  filter (λ x, isSetTimeout x = true) (recordingEffects now type w) = [] ∧
  filter (λ x, isDrawImage x = true) (recordingEffects now type w) = [] ∧
  filter (λ x, isRequestFullscreen x = true) (recordingEffects now type w) = [].
Proof. unfold recordingEffects. by destruct (_ <=? _)%nat. Qed.

Lemma cycleEffects_kinds (s : Sample) (w : World) :
  filter (λ x, isSetTimeout x = true) (cycleEffects s w) = [] ∧
  filter (λ x, isRequestFullscreen x = true) (cycleEffects s w) = [] ∧
  (isActive (this w) && bool_decide (is_Some (video (this w))) = false →
     cycleEffects s w = []).
Proof.
  unfold cycleEffects.
  destruct (isActive (this w) && bool_decide (is_Some (video (this w)))); [|done].
  destruct (recordingEffects_kinds (sampledAt s) "Significant movement detected" w)
    as (Htimer & _ & Hfullscreen).
  rewrite !filter_cons. simpl. case_match; rewrite ?Htimer, ?Hfullscreen; done.
Qed.

Lemma fullscreenRequest_kinds (b : Browser) :
  filter (λ x, isSetTimeout x = true) (fullscreenRequest b) = [] ∧
  filter (λ x, isDrawImage x = true) (fullscreenRequest b) = [] ∧
  filter (λ x, isRequestFullscreen x = true) (fullscreenRequest b) = fullscreenRequest b.
Proof.
  unfold fullscreenRequest, fullscreenEntryPoints.
  destruct (hasRequestFullscreen b), (hasWebkitRequestFullscreen b),
    (hasMozRequestFullScreen b), (hasMsRequestFullscreen b); done.
Qed.

(** X10: when camera monitoring is disabled or the monitor has no video
    element (it was not initialized, or the capture failed),
    [startMonitoring] starts no sampler: no cycle is left to resume, no
    frame is drawn, no timer is set, and the log is empty when it
    returns. *)
Theorem startMonitoring_without_capture (s : Sample) (w : World) :
  enableCameraMonitoring (options (this w)) = false ∨ video (this w) = None →
  ∃ w' effects,
    startMonitoring s w = (normal (returned false), w', effects) ∧
    isActive (this w') = true ∧
    log w' = [] ∧
    lastBrightness (this w') = lastBrightness (this w) ∧
    filter (λ x, isDrawImage x = true) effects = [] ∧
    filter (λ x, isSetTimeout x = true) effects = [].
Proof.
  intros Hcapture.
  assert (Hoff : enableCameraMonitoring (options (this w))
                 && bool_decide (is_Some (video (this w))) = false).
  { destruct Hcapture as [-> | ->]; [done|]. by rewrite andb_false_r. }
  destruct (startMonitoring_run s w) as (cycle & Hrun & Hidle & _).
  rewrite (Hidle Hoff) in Hrun. eexists _, _. split; [exact Hrun|].
  unfold startedWorld, samplesAtStart, startEffects. rewrite Hoff. simpl.
  split; [done|]. split; [apply log_resetWorld|]. split; [done|].
  destruct (fullscreenRequest_kinds (browser w)) as (Htimer & Hdraw & _).
  assert (Hcycle : (if enableCameraMonitoring (options (this w))
                    then cycleEffects s (resetWorld (with_this (set_isActive true) w))
                    else []) = []).
  { destruct (enableCameraMonitoring (options (this w))); [|done].
    apply cycleEffects_kinds. simpl in *. by rewrite Hoff. }
  rewrite Hcycle. simpl.
  destruct (enableFullscreenMonitoring (options (this w)));
    rewrite ?filter_app, ?Htimer, ?Hdraw; done.
Qed.

Lemma startMonitoring_without_capture_witness :
  ∃ w' effects,
    startMonitoring (uniformFrame xff "t1")
      (construct (mkOptions false true true true) withoutFaceDetector)
      = (normal (returned false), w', effects) ∧
    isActive (this w') = true ∧
    log w' = [] ∧
    lastBrightness (this w') =
      lastBrightness (this (construct (mkOptions false true true true) withoutFaceDetector)) ∧
    filter (λ x, isDrawImage x = true) effects = [] ∧
    filter (λ x, isSetTimeout x = true) effects = [].
Proof.
  apply (startMonitoring_without_capture (uniformFrame xff "t1")
           (construct (mkOptions false true true true) withoutFaceDetector)).
  left. reflexivity.
Defined.

(** X11: a monitor whose [initialize] failed on the camera and that is
    started all the same is active but records nothing: it has no
    listener and no sampler, so whatever events the browser delivers the
    log stays empty. *)
Theorem failed_initialize_records_nothing (opts : Options) (b : Browser)
    (error : string) (s : Sample) (events : list (string * DomEvent)) :
  enableCameraMonitoring opts = true →
  let w := runSession [actInitialize (throw error); actStart s] (construct opts b) in
  isActive (this w) = true ∧
  listeners w = [] ∧
  video (this w) = None ∧
  log (runSession ((λ p, actDeliver p.1 p.2) <$> events) w) = [].
Proof.
  intros Hcam w.
  assert (Hw : w = resetWorld (with_this (set_isActive true) (construct opts b))).
  { subst w.
    change (runSession [actInitialize (throw error); actStart s] (construct opts b))
      with (perform (actStart s) (perform (actInitialize (throw error)) (construct opts b))).
    rewrite (perform_eq (actStart s)), (perform_eq (actInitialize (throw error))).
    unfold initializedFrom. simpl. rewrite Hcam.
    unfold startedWorld, samplesAtStart. simpl.
    by rewrite andb_false_r. }
  split; [by rewrite Hw|]. split; [by rewrite Hw|]. split; [by rewrite Hw|].
  assert (Hquiet : ∀ w0, listeners w0 = [] →
            runSession ((λ p, actDeliver p.1 p.2) <$> events) w0 = w0).
  { induction events as [|[now e] events IH]; intros w0 Hnone; [done|].
    change (runSession ((λ p, actDeliver p.1 p.2) <$> (now, e) :: events) w0)
      with (runSession ((λ p, actDeliver p.1 p.2) <$> events)
              (perform (actDeliver now e) w0)).
    rewrite (perform_eq (actDeliver now e)). rewrite Hnone. simpl.
    destruct (isActive (this w0)); by apply IH. }
  rewrite Hquiet by (by rewrite Hw). rewrite Hw. apply log_resetWorld.
Qed.

Lemma failed_initialize_records_nothing_witness :
  let w := runSession [actInitialize (throw "NotAllowedError");
                       actStart (uniformFrame xff "t0")]
             (construct defaultOptions withFaceDetector) in
  isActive (this w) = true ∧
  listeners w = [] ∧
  video (this w) = None ∧
  log (runSession ((λ p, actDeliver p.1 p.2) <$>
                     [("t1", blur); ("t2", visibilitychange true); ("t3", contextmenu)]) w)
    = [].
Proof.
  apply (failed_initialize_records_nothing defaultOptions withFaceDetector
           "NotAllowedError" (uniformFrame xff "t0")
           [("t1", blur); ("t2", visibilitychange true); ("t3", contextmenu)]).
  reflexivity.
Defined.

(** X12: [startMonitoring] asks for fullscreen only when fullscreen
    monitoring is enabled, and then through one entry point at most: the
    first of [requestFullscreen], [webkitRequestFullscreen],
    [mozRequestFullScreen] and [msRequestFullscreen] that the browser has;
    when it has none, nothing is requested and nothing fails. *)
Theorem startMonitoring_fullscreen_request (s : Sample) (w : World) :
  let b := browser w in
  let requests (entryPoint : string) := [requestFullscreen entryPoint] in
  ∃ cycle w' effects,
    startMonitoring s w = (normal cycle, w', effects) ∧
    filter (λ x, isRequestFullscreen x = true) effects =
      (if enableFullscreenMonitoring (options (this w)) then fullscreenRequest b else []) ∧
    (fullscreenRequest b = requests "requestFullscreen" ↔ hasRequestFullscreen b = true) ∧
    (fullscreenRequest b = requests "webkitRequestFullscreen" ↔
       hasRequestFullscreen b = false ∧ hasWebkitRequestFullscreen b = true) ∧
    (fullscreenRequest b = requests "mozRequestFullScreen" ↔
       hasRequestFullscreen b = false ∧ hasWebkitRequestFullscreen b = false ∧
       hasMozRequestFullScreen b = true) ∧
    (fullscreenRequest b = requests "msRequestFullscreen" ↔
       hasRequestFullscreen b = false ∧ hasWebkitRequestFullscreen b = false ∧
       hasMozRequestFullScreen b = false ∧ hasMsRequestFullscreen b = true) ∧
    (fullscreenRequest b = [] ↔
       hasRequestFullscreen b = false ∧ hasWebkitRequestFullscreen b = false ∧
       hasMozRequestFullScreen b = false ∧ hasMsRequestFullscreen b = false).
Proof.
  intros b requests. subst requests.
  destruct (startMonitoring_run s w) as (cycle & Hrun & _).
  eexists _, _, _. split; [exact Hrun|]. split.
  - unfold startEffects. rewrite !filter_app.
    destruct (fullscreenRequest_kinds (browser w)) as (_ & _ & Hfullscreen).
    assert (Hcycle : filter (λ x, isRequestFullscreen x = true)
              (if enableCameraMonitoring (options (this w))
               then cycleEffects s (resetWorld (with_this (set_isActive true) w))
               else []) = []).
    { destruct (enableCameraMonitoring (options (this w))); [|done].
      apply cycleEffects_kinds. }
    rewrite Hcycle. destruct (enableFullscreenMonitoring (options (this w)));
      rewrite ?Hfullscreen; simpl; by rewrite ?app_nil_r.
  - unfold fullscreenRequest, fullscreenEntryPoints. subst b.
    destruct (hasRequestFullscreen (browser w)), (hasWebkitRequestFullscreen (browser w)),
      (hasMozRequestFullScreen (browser w)), (hasMsRequestFullscreen (browser w));
      simpl; repeat split; intros; destruct_and?; congruence.
Qed.

(** ** Camera sampler: a detection that settles after the stop *)

Lemma nativeAnalysis_no_face (s : Sample) (w : World) :
  detection s = detected [] →
  nativeAnalysis s w =
  (normal tt, recorded (sampledAt s) "No face detected - looking away" w,
   recordingEffects (sampledAt s) "No face detected - looking away" w).
Proof.
  intros Hdetection. unfold nativeAnalysis, analyzeFaces. rewrite Hdetection. run.
  rewrite recordViolation_run. simpl. by rewrite ?app_nil_r.
Qed.

(** X13: [stopMonitoring] does not cancel a cycle that is suspended at
    [detect].  When the detector then answers with no face, the violation
    is appended although the monitor is inactive, [onViolation] is called,
    and the auto-submit event is raised if the threshold is reached; only
    the next cycle is not scheduled. *)
Theorem late_detection_recorded (s : Sample) (w : World) :
  isActive (this w) = false →
  detection s = detected [] →
  ∃ w' effects,
    resumeCycle (awaiting (nativeAnalysis s)) w = (normal false, w', effects) ∧
    isActive (this w') = false ∧
    log w' = log w ++ [mkViolation "No face detected - looking away" (sampledAt s) "medium"] ∧
    onViolation (mkViolation "No face detected - looking away" (sampledAt s) "medium")
      (violations (this w)) ∈ effects ∧
    filter (λ e, isAutoSubmit e = true) effects =
      (if (alertThreshold (this w) <=? S (length (log w)))%nat
       then [dispatchTestAutoSubmit "Multiple violations detected" (violations (this w))]
       else []) ∧
    filter (λ e, isSetTimeout e = true) effects = [].
Proof.
  intros Hinactive Hdetection. unfold resumeCycle. run. simpl.
  rewrite (nativeAnalysis_no_face s w Hdetection), scheduleNext_run.
  change (isActive (this (recorded ?n ?t w))) with (isActive (this w)).
  rewrite Hinactive. eexists _, _. split; [done|]. split; [done|].
  split; [by rewrite log_recorded|]. rewrite !app_nil_r.
  split; [unfold recordingEffects; simpl; in_list|].
  split; [apply autoSubmits_recordingEffects|apply recordingEffects_kinds].
Qed.

(** Two losses of focus, a stop while [detect] is pending, and the
    detector answers: the third violation is recorded and the auto-submit
    event is raised after the stop. *)
Lemma late_detection_recorded_witness :
  ∃ w' effects,
    resumeCycle (awaiting (nativeAnalysis (mkSample [] (detected []) "t3")))
      stoppedDuringDetect = (normal false, w', effects) ∧
    isActive (this w') = false ∧
    log w' = log stoppedDuringDetect ++
             [mkViolation "No face detected - looking away" "t3" "medium"] ∧
    onViolation (mkViolation "No face detected - looking away" "t3" "medium")
      (violations (this stoppedDuringDetect)) ∈ effects ∧
    filter (λ e, isAutoSubmit e = true) effects =
      (if (alertThreshold (this stoppedDuringDetect)
             <=? S (length (log stoppedDuringDetect)))%nat
       then [dispatchTestAutoSubmit "Multiple violations detected"
               (violations (this stoppedDuringDetect))]
       else []) ∧
    filter (λ e, isSetTimeout e = true) effects = [].
Proof.
  apply (late_detection_recorded (mkSample [] (detected []) "t3") stoppedDuringDetect);
    reflexivity.
Defined.

Example late_detection_scenario :
  isActive (this stoppedDuringDetect) = false ∧
  length (log stoppedDuringDetect) = 2 ∧
  length (log (perform (actResumeNative (mkSample [] (detected []) "t3"))
                 stoppedDuringDetect)) = 3.
Proof. repeat split; vm_compute; reflexivity. Qed.

(** ** Presence analyzer: the fallback path *)

(** X14: without a native detector the analysis of a frame finishes inside
    the call.  It appends "Significant movement detected" exactly when a
    brightness is stored that is neither 0 nor NaN and differs from the
    mean luminance of the frame by more than 20; so the first frame of a
    monitor, with no brightness stored yet, records nothing.  In every
    case it stores the mean luminance of the frame and leaves the other
    fields of the monitor as they are. *)
Theorem analyzeFacePosition_fallback (s : Sample) (w : World) :
  faceDetectionModel (this w) = None →
  let brightness := meanBrightness (imageData s) in
  ∃ w' effects,
    analyzeFacePosition s w = (normal (returned tt), w', effects) ∧
    this w' = set_lastBrightness (Some brightness) (this w) ∧
    log w' =
      log w ++
      (if brightnessChanged (lastBrightness (this w)) brightness
       then [mkViolation "Significant movement detected" (sampledAt s) "low"]
       else []) ∧
    (brightnessChanged (lastBrightness (this w)) brightness = true ↔
       ∃ last, lastBrightness (this w) = Some last ∧
               PrimFloat.eqb last 0 = false ∧ PrimFloat.eqb last last = true ∧
               PrimFloat.ltb 20 (PrimFloat.abs (brightness - last)) = true) ∧
    (lastBrightness (this w) = None → log w' = log w ∧ effects = []).
Proof.
  intros Hmodel brightness. unfold analyzeFacePosition. run. rewrite Hmodel.
  rewrite analyzeBrightness_run. simpl. eexists _, _. split; [done|].
  split; [apply this_brightnessAnalyzed|]. split; [apply log_brightnessAnalyzed|]. split.
  - unfold brightnessChanged, truthy. destruct (lastBrightness (this w)) as [last|].
    + rewrite !andb_true_iff, negb_true_iff. split.
      * intros [[? ?] ?]. by exists last.
      * intros (? & [= <-] & ? & ? & ?). done.
    + split; [done|]. by intros (? & ? & _).
  - intros Hnone. rewrite log_brightnessAnalyzed, Hnone. simpl. by rewrite app_nil_r.
Qed.

Lemma analyzeFacePosition_fallback_witness :
  let s := uniformFrame xff "t2" in
  let brightness := meanBrightness (imageData s) in
  ∃ w' effects,
    analyzeFacePosition s afterFirstSession = (normal (returned tt), w', effects) ∧
    this w' = set_lastBrightness (Some brightness) (this afterFirstSession) ∧
    log w' =
      log afterFirstSession ++
      (if brightnessChanged (lastBrightness (this afterFirstSession)) brightness
       then [mkViolation "Significant movement detected" (sampledAt s) "low"]
       else []) ∧
    (brightnessChanged (lastBrightness (this afterFirstSession)) brightness = true ↔
       ∃ last, lastBrightness (this afterFirstSession) = Some last ∧
               PrimFloat.eqb last 0 = false ∧ PrimFloat.eqb last last = true ∧
               PrimFloat.ltb 20 (PrimFloat.abs (brightness - last)) = true) ∧
    (lastBrightness (this afterFirstSession) = None → log w' = log afterFirstSession ∧ effects = []).
Proof.
  apply (analyzeFacePosition_fallback (uniformFrame xff "t2") afterFirstSession).
  reflexivity.
Defined.

(** ** Camera sampler: a restart while a cycle is suspended *)

Lemma analysisOf_quiet (s : Sample) (w : World) : quietAnalysis (settle (analysisOf s w)).
Proof.
  unfold analysisOf. case_match; intros w1; simpl.
  - destruct (nativeAnalysis_run s w1) as (effects & Hrun & Hfilter & _).
    eexists _, _. split; [exact Hrun|]. split; [|done].
    destruct (detection s); [apply isActive_facesAnalyzed|done].
  - by eexists _, _.
Qed.

Lemma startEffects_timers (s : Sample) (w : World) :
  filter (λ x, isSetTimeout x = true) (startEffects s w) = [].
Proof.
  unfold startEffects. rewrite !filter_app.
  destruct (fullscreenRequest_kinds (browser w)) as (Hfullscreen & _).
  assert (Hcycle : filter (λ x, isSetTimeout x = true)
            (if enableCameraMonitoring (options (this w))
             then cycleEffects s (resetWorld (with_this (set_isActive true) w))
             else []) = []).
  { destruct (enableCameraMonitoring (options (this w))); [|done].
    apply cycleEffects_kinds. }
  rewrite Hcycle. by destruct (enableFullscreenMonitoring (options (this w)));
    rewrite ?Hfullscreen.
Qed.

Lemma startedWorld_isActive (s : Sample) (w : World) :
  isActive (this (startedWorld s w)) = true.
Proof. unfold startedWorld. case_match; [|done]. by rewrite this_brightnessAnalyzed. Qed.

(** X15: a cycle that is suspended when the host stops the monitor goes on
    if the host starts the monitor again before the cycle resumes: the
    cycle finds [isActive] set and schedules its next run, and so does the
    first cycle of the new start.  Two timers are set, and from then on two
    chains of cycles sample the camera. *)
Theorem restart_leaves_two_chains (s s' : Sample) (w : World) :
  isActive (this w) = true →
  is_Some (video (this w)) →
  enableCameraMonitoring (options (this w)) = true →
  ∃ w' effects,
    (suspended ← startCameraAnalysis s;
     stopMonitoring;;
     started ← startMonitoring s';
     scheduledOld ← settle suspended;
     scheduledNew ← settle started;
     mret (scheduledOld, scheduledNew)) w = (normal (true, true), w', effects) ∧
    isActive (this w') = true ∧
    filter (λ x, isSetTimeout x = true) effects = [setTimeout 1000; setTimeout 1000].
Proof.
  intros Hactive Hvideo Hcam.
  destruct (startCameraAnalysis_run s w) as (cycle & Hrun & _ & Hbusy).
  rewrite Hactive, bool_decide_true in Hbusy by done. specialize (Hbusy eq_refl). subst cycle.
  set (w1 := sampledWorld s w) in *.
  assert (Hw1 : options (this w1) = options (this w) ∧ is_Some (video (this w1))).
  { subst w1. by destruct (this_sampledWorld s w) as [-> | ->]. }
  destruct Hw1 as [Hoptions1 Hvideo1].
  set (w2 := stopped w1).
  assert (Hon : enableCameraMonitoring (options (this w2))
                && bool_decide (is_Some (video (this w2))) = true).
  { subst w2. simpl. rewrite Hoptions1, Hcam. destruct Hvideo1 as [v ->]. done. }
  destruct (startMonitoring_run s' w2) as (cycle' & Hrun' & _ & Hbusy').
  specialize (Hbusy' Hon). subst cycle'.
  set (w3 := startedWorld s' w2) in *.
  destruct (resumeCycle_run (analysisOf s w) w3 (analysisOf_quiet s w))
    as (w4 & e4 & Hold & Hactive4 & Htimer4).
  destruct (resumeCycle_run (analysisOf s' w2) w4 (analysisOf_quiet s' w2))
    as (w5 & e5 & Hnew & Hactive5 & Htimer5).
  assert (Hactive3 : isActive (this w3) = true) by apply startedWorld_isActive.
  rewrite Hactive3 in Hold, Hactive4, Htimer4.
  rewrite Hactive4 in Hnew, Hactive5, Htimer5.
  run. rewrite Hrun. fold w1. rewrite stopMonitoring_run. fold w2. rewrite Hrun'.
  simpl. rewrite Hold, Hnew. eexists _, _. split; [done|]. split; [done|].
  repeat (rewrite filter_app || rewrite filter_cons_False by (simpl; done)).
  rewrite Htimer4, Htimer5, startEffects_timers.
  destruct (cycleEffects_kinds s w) as (-> & _). done.
Qed.

Lemma restart_leaves_two_chains_witness :
  ∃ w' effects,
    (suspended ← startCameraAnalysis (mkSample [] (detected [faceAt 100 100]) "t2");
     stopMonitoring;;
     started ← startMonitoring (mkSample [] (detected [faceAt 100 100]) "t3");
     scheduledOld ← settle suspended;
     scheduledNew ← settle started;
     mret (scheduledOld, scheduledNew)) afterFaceAt100 = (normal (true, true), w', effects) ∧
    isActive (this w') = true ∧
    filter (λ x, isSetTimeout x = true) effects = [setTimeout 1000; setTimeout 1000].
Proof.
  apply (restart_leaves_two_chains
           (mkSample [] (detected [faceAt 100 100]) "t2")
           (mkSample [] (detected [faceAt 100 100]) "t3") afterFaceAt100).
  - reflexivity.
  - eexists. reflexivity.
  - reflexivity.
Defined.

(** ** Sessions: an inactive monitor *)

Lemma perform_inactive_log (a : Action) (w : World) :
  isActive (this w) = false → isStart a = false → isResumeNative a = false →
  log (perform a w) = log w ∧ isActive (this (perform a w)) = false.
Proof.
  intros Hinactive Hstart Hresume. split.
  - rewrite perform_eq. destruct a as [g|s| |now e|s|s| |]; try discriminate; simpl;
      try done.
    + unfold initializedFrom, listenersAdded, cameraReady, log.
      repeat case_match; done.
    + by rewrite Hinactive.
    + unfold sampledWorld. by rewrite Hinactive.
  - rewrite perform_isActive. by destruct a.
Qed.

(** X16: while the monitor is inactive, the log can change in two ways
    only: [startMonitoring] replaces it, and a cycle of the native path
    that was suspended at [detect] may still append to it.  A session made
    of any other steps (events, timers, [initialize], [stopMonitoring],
    summaries, resumptions on the fallback path) leaves the log as it is
    and the monitor inactive. *)
Theorem inactive_log_unchanged (actions : list Action) (w : World) :
  isActive (this w) = false →
  forallb (λ a, negb (isStart a) && negb (isResumeNative a)) actions = true →
  log (runSession actions w) = log w ∧ isActive (this (runSession actions w)) = false.
Proof.
  revert w. induction actions as [|a actions IH]; intros w Hinactive Hsteps; [done|].
  simpl in Hsteps. apply andb_true_iff in Hsteps as [Ha Hrest].
  apply andb_true_iff in Ha as [Hstart Hresume].
  apply negb_true_iff in Hstart, Hresume.
  destruct (perform_inactive_log a w Hinactive Hstart Hresume) as [Hlog Hstill].
  change (runSession (a :: actions) w) with (runSession actions (perform a w)).
  destruct (IH (perform a w) Hstill Hrest) as [-> ->]. done.
Qed.

Lemma inactive_log_unchanged_witness :
  let actions := [actDeliver "t3" blur; actTimer (uniformFrame xff "t4");
                  actInitialize (normal [mkTrack live]); actDeliver "t5" contextmenu;
                  actResumeFallback; actStop; actSummary] in
  log (runSession actions stoppedDuringDetect) = log stoppedDuringDetect ∧
  isActive (this (runSession actions stoppedDuringDetect)) = false.
Proof.
  apply (inactive_log_unchanged
           [actDeliver "t3" blur; actTimer (uniformFrame xff "t4");
            actInitialize (normal [mkTrack live]); actDeliver "t5" contextmenu;
            actResumeFallback; actStop; actSummary] stoppedDuringDetect);
    reflexivity.
Defined.

(** ** Lifecycle controller: what a restart keeps *)

(** X17: [startMonitoring] does not forget the last face position.  On
    the native path the first face of a new session is compared with the
    last face of the session before: the new log starts with "Suspicious
    head movement detected" exactly when the centre of its bounding box,
    ([x + width / 2], [y + height / 2]), differs from the stored position
    by more than 100 horizontally or by more than 50 vertically; the centre
    is then the stored position. *)
Theorem restart_compares_with_earlier_face (s s' : Sample) (w : World)
    (d : FaceDetector) (last : Point) (face : DetectedFace) (rest : list DetectedFace) :
  faceDetectionModel (this w) = Some d →
  lastFacePosition (this w) = Some last →
  detection s' = detected (face :: rest) →
  let box := boundingBox face in
  let cx := (x box + boxWidth box / 2)%float in
  let cy := (y box + boxHeight box / 2)%float in
  lastFacePosition (this (perform (actStart s) w)) = Some last ∧
  log (perform (actStart s) w) = [] ∧
  log (runSession [actStart s; actResumeNative s'] w) =
    (if PrimFloat.ltb 100 (PrimFloat.abs (cx - px last))
        || PrimFloat.ltb 50 (PrimFloat.abs (cy - py last))
     then [mkViolation "Suspicious head movement detected" (sampledAt s') "medium"]
     else []) ∧
  lastFacePosition (this (runSession [actStart s; actResumeNative s'] w)) =
    Some (mkPoint cx cy).
Proof.
  intros Hmodel Hlast Hdetection box cx cy.
  change (runSession [actStart s; actResumeNative s'] w)
    with (perform (actResumeNative s') (perform (actStart s) w)).
  rewrite (perform_eq (actResumeNative s')), (perform_eq (actStart s)).
  assert (Hstarted : startedWorld s w = resetWorld (with_this (set_isActive true) w)).
  { unfold startedWorld, samplesAtStart. rewrite Hmodel. simpl.
    by rewrite andb_false_r. }
  rewrite Hstarted. split; [done|]. split; [apply log_resetWorld|].
  unfold detectedWorld. rewrite Hdetection, log_facesAnalyzed_face, log_resetWorld.
  simpl. by rewrite Hlast.
Qed.

(** The witness: a session that saw a face centred at (100, 100) is
    stopped and started again; the first face of the new session has its
    corner at (370, 80) and is 60 wide and 40 high, so its centre is
    (400, 100). *)
Lemma restart_compares_with_earlier_face_witness :
  let w := perform actStop afterFaceAt100 in
  let s := mkSample [] (detected [mkFace (mkBox 370 80 60 40)]) "t5" in
  lastFacePosition (this (perform (actStart s) w)) = Some (mkPoint 100 100) ∧
  log (perform (actStart s) w) = [] ∧
  log (runSession [actStart s; actResumeNative s] w) =
    [mkViolation "Suspicious head movement detected" "t5" "medium"] ∧
  lastFacePosition (this (runSession [actStart s; actResumeNative s] w)) =
    Some (mkPoint 400 100).
Proof.
  apply (restart_compares_with_earlier_face
           (mkSample [] (detected [mkFace (mkBox 370 80 60 40)]) "t5")
           (mkSample [] (detected [mkFace (mkBox 370 80 60 40)]) "t5")
           (perform actStop afterFaceAt100)
           (mkFaceDetector true 1) (mkPoint 100 100) (mkFace (mkBox 370 80 60 40)) []);
    reflexivity.
Defined.

(** * The component loader *)

(** X18: [loadComponent] asks for at most one file: the [filePath]
    argument unless it is [null] or empty, otherwise the [data-source]
    attribute of the element unless that is missing or empty, under the
    preview path of the page's origin; without an element or a source it
    does nothing.  The element is replaced only when the response is [ok]
    and its text could be read: then its children are what the markup
    received parses to, its [data-source] is kept, and the menu button gets
    its click listener exactly when the markup has both the button and the
    navigation.  In every other case the element stays as it was, and an
    error is logged exactly when [fetch] or [text()] was rejected. *)
Theorem loadComponent_outcome (el : Element) (filePath : option string)
    (origin : string) (fetch : string → Completion Response) :
  loadComponent None filePath origin fetch = (None, []) ∧
  ∃ el' effects,
    loadComponent (Some el) filePath origin fetch = (Some el', effects) ∧
    filter (λ e, isFetched e = true) effects =
      match sourceFileOf filePath el with
      | Some sourceFile => [fetched (origin +:+ previewPath +:+ sourceFile)]
      | None => []
      end ∧
    match sourceFileOf filePath el with
    | None => el' = el ∧ effects = []
    | Some sourceFile =>
        match fetch (origin +:+ previewPath +:+ sourceFile) with
        | normal (mkResponse true (normal p)) =>
            dataSource el' = dataSource el ∧
            mobileMenuBtn el' = partialButton p ∧ mobileNav el' = partialNav p ∧
            (menuWired el' = true ↔ is_Some (partialButton p) ∧ is_Some (partialNav p)) ∧
            filter (λ e, isLoaderError e = true) effects = []
        | normal (mkResponse true (throw error)) | throw error =>
            el' = el ∧
            filter (λ e, isLoaderError e = true) effects =
              [loaderError "Error loading component:" error]
        | normal (mkResponse false _) =>
            el' = el ∧ filter (λ e, isLoaderError e = true) effects = []
        end
    end.
Proof.
  split; [done|]. unfold loadComponent, sourceFileOf, orElse.
  assert (Heqb : ∀ s, String.eqb s "" = if decide (s = "") then true else false).
  { intros s. case_decide as Hs; [by rewrite Hs|]. by apply String.eqb_neq. }
  destruct filePath as [f|]; rewrite ?Heqb.
  - destruct (decide (f = "")) as [->|Hf].
    + destruct (dataSource el) as [d|] eqn:Hd; [|by eexists _, _].
      rewrite Heqb. destruct (decide (d = "")); [by eexists _, _|].
      destruct (fetch _) as [[[] [p|error]]|error]; eexists _, _;
        (split; [done|]); (split; [done|]); try done.
      unfold initializeComponentEvents, setInnerHTML. simpl.
      destruct (partialButton p), (partialNav p); simpl; repeat split; try done;
        try (intros [[? ?] [? ?]]; done); eauto.
    + rewrite Heqb. destruct (decide (f = "")); [done|].
      destruct (fetch _) as [[[] [p|error]]|error]; eexists _, _;
        (split; [done|]); (split; [done|]); try done.
      unfold initializeComponentEvents, setInnerHTML. simpl.
      destruct (partialButton p), (partialNav p); simpl; repeat split; try done;
        try (intros [[? ?] [? ?]]; done); eauto.
  - destruct (dataSource el) as [d|] eqn:Hd; [|by eexists _, _].
    rewrite Heqb. destruct (decide (d = "")); [by eexists _, _|].
    destruct (fetch _) as [[[] [p|error]]|error]; eexists _, _;
      (split; [done|]); (split; [done|]); try done.
    unfold initializeComponentEvents, setInnerHTML. simpl.
    destruct (partialButton p), (partialNav p); simpl; repeat split; try done;
      try (intros [[? ?] [? ?]]; done); eauto.
Qed.

Lemma setFirstI_none (name : string) (icons : list IconElement) :
  setFirstI name icons = None ↔ countI icons = 0.
Proof.
  induction icons as [|[d|rendered] icons IH]; simpl; [done|done|].
  rewrite <- IH. by destruct (setFirstI name icons).
Qed.

Lemma countI_render (library : Lucide) (icons : list IconElement) :
  (countI (render library <$> icons) ≤ countI icons)%nat.
Proof.
  induction icons as [|e icons IH]; [done|]. rewrite fmap_cons. cbn [countI].
  destruct e as [[name|]|rendered]; cbn [render isI]; try lia.
  destruct (library name); cbn [isI]; lia.
Qed.

(** After the attribute is set to the name of an icon and the icons are
    rendered, the button holds one [<i>] less at least. *)
Lemma countI_setFirstI (library : Lucide) (name : string) (icons icons' : list IconElement) :
  library name = true →
  setFirstI name icons = Some icons' →
  (countI (render library <$> icons') < countI icons)%nat.
Proof.
  intros Hname. revert icons'.
  induction icons as [|[d|rendered] icons IH]; intros icons'; cbn [setFirstI]; [done|..].
  - intros [= <-]. rewrite fmap_cons. cbn [countI render isI]. rewrite Hname. cbn [isI].
    pose proof (countI_render library icons). lia.
  - destruct (setFirstI name icons) as [rest|]; [|done]. intros [= <-].
    rewrite fmap_cons. cbn [countI render isI]. by apply IH.
Qed.

(** One click on a wired button. *)
Lemma clickMenuButton_wired (lucide : option Lucide) (el : Element)
    (icons : list IconElement) (hidden : bool) :
  menuWired el = true →
  mobileMenuBtn el = Some icons →
  mobileNav el = Some hidden →
  ∃ outcome icons' effects,
    clickMenuButton lucide el =
      (outcome, mkElement (dataSource el) (Some icons') (Some (negb hidden)) true, effects) ∧
    (countI icons = 0 → outcome = throw "TypeError" ∧ icons' = icons ∧ effects = []) ∧
    (∀ library, lucide = Some library → library "x" = true → library "menu" = true →
       (0 < countI icons)%nat →
       outcome = normal tt ∧ effects = [createIcons] ∧ (countI icons' < countI icons)%nat) ∧
    (∀ d library, icons = [iElement d] → lucide = Some library →
       library "x" = true → library "menu" = true →
       icons' = [svgElement (if hidden then "x" else "menu")]) ∧
    (∀ d, icons = [iElement d] → lucide = None →
       outcome = throw "ReferenceError" ∧ effects = [] ∧
       icons' = [iElement (Some (if hidden then "x" else "menu"))]).
Proof.
  intros Hwired Hbutton Hnav. unfold clickMenuButton. rewrite Hwired, Hbutton, Hnav.
  rewrite negb_involutive.
  destruct (setFirstI (if hidden then "x" else "menu") icons) as [icons1|] eqn:Hset.
  - assert (Hpositive : countI icons ≠ 0).
    { intros Hzero. apply (setFirstI_none (if hidden then "x" else "menu")) in Hzero.
      congruence. }
    destruct lucide as [library|].
    + eexists _, _, _. split; [done|]. split_and!.
      * done.
      * intros library' [= <-] Hx Hmenu _. split_and!; try done.
        eapply countI_setFirstI; [|done]. by destruct hidden.
      * intros d library' -> [= <-] Hx Hmenu. simpl in Hset. injection Hset as <-.
        simpl. by destruct hidden; rewrite ?Hx, ?Hmenu.
      * done.
    + eexists _, _, _. split; [done|]. split_and!; try done.
      intros d -> _. simpl in Hset. by injection Hset as <-.
  - assert (Hzero : countI icons = 0) by by eapply setFirstI_none.
    eexists _, _, _. split; [done|]. split_and!; try done.
    + intros ? ? ? ? Hpositive. lia.
    + by intros d library ->.
    + by intros d ->.
Qed.

Lemma clickTimes_succ (lucide : option Lucide) (n : nat) (el el1 : Element)
    (outcome : Completion unit) (effects : list LoaderEffect) :
  clickMenuButton lucide el = (outcome, el1, effects) →
  clickTimes lucide (S n) el =
    ((clickTimes lucide n el1).1.1, outcome :: (clickTimes lucide n el1).1.2,
     effects ++ (clickTimes lucide n el1).2).
Proof. intros Hclick. cbn [clickTimes]. rewrite Hclick. by destruct (clickTimes _ _ _) as [[? ?] ?]. Qed.

(** Each click toggles the navigation, whatever the listener does then;
    with the library loaded, the listener runs to its end at most once per
    [<i>] of the button. *)
Lemma clickTimes_wired (lucide : option Lucide) (n : nat) (el : Element)
    (icons : list IconElement) (hidden : bool) :
  menuWired el = true →
  mobileMenuBtn el = Some icons →
  mobileNav el = Some hidden →
  ∃ icons' outcomes effects,
    clickTimes lucide n el =
      (mkElement (dataSource el) (Some icons')
         (Some (if Nat.even n then hidden else negb hidden)) true,
       outcomes, effects) ∧
    length outcomes = n ∧
    (countI icons = 0 →
       icons' = icons ∧ outcomes = replicate n (throw "TypeError") ∧ effects = []) ∧
    (∀ library, lucide = Some library → library "x" = true → library "menu" = true →
       (completed outcomes + countI icons' ≤ countI icons)%nat ∧
       effects = replicate (completed outcomes) createIcons).
Proof.
  revert el icons hidden. induction n as [|n IH]; intros el icons hidden Hwired Hbutton Hnav.
  - exists icons, [], []. split_and!; try done.
    simpl. destruct el; simpl in *. by subst.
  - destruct (clickMenuButton_wired lucide el icons hidden Hwired Hbutton Hnav)
      as (outcome & icons1 & effects1 & Hclick & Hnone & Hlibrary & _).
    rewrite (clickTimes_succ _ _ _ _ _ _ Hclick).
    destruct (IH (mkElement (dataSource el) (Some icons1) (Some (negb hidden)) true)
                icons1 (negb hidden) eq_refl eq_refl eq_refl)
      as (icons' & outcomes & effects & -> & Hlength & Hnone' & Hlibrary').
    cbn [fst snd dataSource]. exists icons', (outcome :: outcomes), (effects1 ++ effects).
    rewrite Nat.even_succ, <- Nat.negb_even. split_and!.
    + by destruct (Nat.even n), hidden.
    + simpl. by rewrite Hlength.
    + intros Hzero. destruct (Hnone Hzero) as (-> & -> & ->).
      destruct (Hnone' Hzero) as (-> & -> & ->). done.
    + intros library Hlucide Hx Hmenu.
      destruct (Hlibrary' library Hlucide Hx Hmenu) as [Hle ->].
      destruct (decide (countI icons = 0)) as [Hzero|Hpositive].
      * destruct (Hnone Hzero) as (-> & -> & ->).
        unfold completed in *. rewrite filter_cons_False by done. split; [lia|done].
      * destruct (Hlibrary library Hlucide Hx Hmenu ltac:(lia)) as (-> & -> & Hless).
        unfold completed in *. rewrite filter_cons_True by done. simpl. split; [lia|done].
Qed.

(** Without the library, a button with one [<i>] keeps it, and each click
    raises once the attribute is set. *)
Lemma clickTimes_without_library (n : nat) (el : Element) (d : option string) (hidden : bool) :
  menuWired el = true →
  mobileMenuBtn el = Some [iElement d] →
  mobileNav el = Some hidden →
  clickTimes None n el =
    (mkElement (dataSource el)
       (Some [iElement (if decide (n = 0) then d
                        else Some (if (if Nat.even n then hidden else negb hidden)
                                   then "menu" else "x"))])
       (Some (if Nat.even n then hidden else negb hidden)) true,
     replicate n (throw "ReferenceError"), []).
Proof.
  revert el d hidden. induction n as [|n IH]; intros el d hidden Hwired Hbutton Hnav.
  - simpl. destruct el; simpl in *. by subst.
  - destruct (clickMenuButton_wired None el [iElement d] hidden Hwired Hbutton Hnav)
      as (outcome & icons1 & effects1 & Hclick & _ & _ & _ & Hwithout).
    destruct (Hwithout d eq_refl eq_refl) as (-> & -> & ->).
    rewrite (clickTimes_succ _ _ _ _ _ _ Hclick).
    rewrite (IH _ (Some (if hidden then "x" else "menu")) (negb hidden)) by done.
    cbn [fst snd dataSource app replicate].
    rewrite Nat.even_succ, <- Nat.negb_even.
    destruct (decide (n = 0)) as [->|Hn]; [by destruct hidden|].
    by destruct (Nat.even n), hidden.
Qed.

(** X19: once the menu button is wired, each click toggles the
    navigation, whatever the listener does after that: after [n] clicks it
    is hidden as at the start when [n] is even and the other way round when
    [n] is odd.  Where the button holds no [<i>], every click raises a
    TypeError and nothing else changes.  With the icon library loaded, a
    click whose listener runs to its end leaves one [<i>] less in the
    button, the library having replaced it by an [<svg>]; so the listener
    runs to its end at most once per [<i>], and the icons are rendered that
    often.  For a button with one [<i>]: the first click renders the icon
    of the state the menu is then in, every later click raises a TypeError
    and leaves that icon, though the menu goes on opening and closing.
    Without the library every click raises a ReferenceError after it has
    set the attribute, which then follows the menu.  Without the listener
    a click changes nothing. *)
Theorem menu_clicks (lucide : option Lucide) (n : nat) (el : Element)
    (icons : list IconElement) (hidden : bool) :
  mobileMenuBtn el = Some icons →
  mobileNav el = Some hidden →
  let hidden' := if Nat.even n then hidden else negb hidden in
  (menuWired el = true →
     ∃ icons' outcomes effects,
       clickTimes lucide n el =
         (mkElement (dataSource el) (Some icons') (Some hidden') true, outcomes, effects) ∧
       length outcomes = n ∧
       (countI icons = 0 →
          icons' = icons ∧ outcomes = replicate n (throw "TypeError") ∧ effects = []) ∧
       (∀ library, lucide = Some library → library "x" = true → library "menu" = true →
          (completed outcomes + countI icons' ≤ countI icons)%nat ∧
          effects = replicate (completed outcomes) createIcons ∧
          ∀ d, icons = [iElement d] → (0 < n)%nat →
            icons' = [svgElement (if hidden then "x" else "menu")] ∧
            outcomes = normal tt :: replicate (n - 1) (throw "TypeError")) ∧
       (lucide = None → ∀ d, icons = [iElement d] → (0 < n)%nat →
          icons' = [iElement (Some (if hidden' then "menu" else "x"))] ∧
          outcomes = replicate n (throw "ReferenceError") ∧ effects = [])) ∧
  (menuWired el = false → clickTimes lucide n el = (el, replicate n (normal tt), [])).
Proof.
  intros Hbutton Hnav hidden'. split.
  - intros Hwired.
    destruct (clickTimes_wired lucide n el icons hidden Hwired Hbutton Hnav)
      as (icons' & outcomes & effects & Hrun & Hlength & Hnone & Hlibrary).
    exists icons', outcomes, effects. split_and!; try done.
    + intros library Hlucide Hx Hmenu.
      destruct (Hlibrary library Hlucide Hx Hmenu) as [Hle Heffects].
      split_and!; try done. intros d -> Hn.
      destruct n as [|n]; [lia|].
      destruct (clickMenuButton_wired lucide el [iElement d] hidden Hwired Hbutton Hnav)
        as (outcome & icons1 & effects1 & Hclick & _ & Hfirst & Hone & _).
      destruct (Hfirst library Hlucide Hx Hmenu ltac:(simpl; lia))
        as (-> & -> & _).
      rewrite (Hone d library eq_refl Hlucide Hx Hmenu) in Hclick.
      rewrite (clickTimes_succ _ _ _ _ _ _ Hclick) in Hrun.
      destruct (clickTimes_wired lucide n
                  (mkElement (dataSource el)
                     (Some [svgElement (if hidden then "x" else "menu")])
                     (Some (negb hidden)) true)
                  [svgElement (if hidden then "x" else "menu")] (negb hidden)
                  eq_refl eq_refl eq_refl)
        as (icons2 & outcomes2 & effects2 & Hrest & _ & Hstuck & _).
      destruct (Hstuck eq_refl) as (-> & -> & ->).
      rewrite Hrest in Hrun. cbn [fst snd] in Hrun.
      pose proof (f_equal (λ r, mobileMenuBtn r.1.1) Hrun) as Hicons.
      pose proof (f_equal (λ r, r.1.2) Hrun) as Houtcomes.
      cbn [fst snd mobileMenuBtn] in Hicons, Houtcomes.
      injection Hicons as <-. subst outcomes. split; [done|].
      by replace (S n - 1) with n by lia.
    + intros -> d -> Hn.
      rewrite (clickTimes_without_library n el d hidden Hwired Hbutton Hnav) in Hrun.
      pose proof (f_equal (λ r, mobileMenuBtn r.1.1) Hrun) as Hicons.
      pose proof (f_equal (λ r, r.1.2) Hrun) as Houtcomes.
      pose proof (f_equal (λ r, r.2) Hrun) as Heffects.
      cbn [fst snd mobileMenuBtn] in Hicons, Houtcomes, Heffects.
      injection Hicons as <-. subst outcomes effects. by rewrite decide_False by lia.
  - intros Hunwired. clear Hbutton Hnav hidden'. induction n as [|n IH]; [done|].
    cbn [clickTimes]. unfold clickMenuButton. rewrite Hunwired. by rewrite IH.
Qed.

(** The header is loaded on a page with the icon library and its menu
    button is clicked three times: the first click opens the menu and
    renders "x"; the second and the third raise, and the icon stays "x"
    while the menu closes and opens again. *)
Lemma menu_clicks_witness :
  clickTimes (Some menuIcons) 3 loadedHeader =
    (mkElement (Some "partials/header.html") (Some [svgElement "x"]) (Some false) true,
     [normal tt; throw "TypeError"; throw "TypeError"],
     [createIcons]).
Proof.
  destruct (menu_clicks (Some menuIcons) 3 loadedHeader [iElement (Some "menu")] true
              eq_refl eq_refl) as [Hwired _].
  destruct (Hwired eq_refl) as (icons' & outcomes & effects & Hrun & _ & _ & Hlibrary & _).
  destruct (Hlibrary menuIcons eq_refl eq_refl eq_refl) as (_ & Heffects & Hone).
  destruct (Hone (Some "menu") eq_refl ltac:(lia)) as [Hicons Houtcomes].
  rewrite Hrun, Heffects, Hicons, Houtcomes. reflexivity.
Defined.
